(** * ConceptMap SaaS: the concept-map service, embedded and verified

    This development embeds [server/services/conceptMapService.js], the
    service that [server/controllers/conceptMapController.js] requires, and
    proves properties of its six-stage pipeline: concept extraction,
    relationship detection and classification, semantic enrichment,
    validation with the coherence score, visual formatting and the final
    Markdown emission.  It also embeds the Mermaid emitter of
    [server/services/fixed-conceptMapService.js], the second service of the
    repository, and proves its round trip.

    Conventions of the embedding.
    - A JavaScript string is a [string] of 8-bit characters read as ASCII.
      Case folding and the regular-expression classes [\s], [\w] and [\b] are
      the ASCII ones, so the model coincides with the code on ASCII text
      ([plainText]); on other text the code also folds and keeps accented
      letters and splits at further spaces.  String literals of the source
      keep their UTF-8 bytes.
    - A JavaScript number that the code only ever computes as a finite value
      is a rational [Q] (exact arithmetic, the rounding of doubles is not
      modelled: where the code has 3.3000000000000003 the model has 3.3).
      The coherence score, where the code divides by array lengths that can
      be zero, is computed in [JSNum.num]: rationals extended with a
      negative zero, the two infinities and NaN.
    - Arrays are lists; a [Set] is a duplicate-free list in insertion order;
      a plain object used as a table is an association list in insertion
      order, and [Object.keys] puts its integer-like keys first.
    - [Math.random] is an oracle [rnd : nat -> nat]: the k-th evaluation of
      [Math.floor(Math.random() * 3)] is [rnd k mod 3].
    - Fields that the service only writes for reporting (timestamps,
      [stageResults], [summary], [semanticDepth], [enrichmentStats],
      [hierarchy], [knowledgeGraph]) are left out of the result: nothing
      reads them back into concepts, relationships or content.  The tree
      that [createHierarchicalStructure] builds is modelled as a function of
      its own.
    - A table has only the keys that were entered.  The objects of the code
      also answer to the names of the members of [Object.prototype]: the
      tokens [constructor] and [__proto__] in the frequency table, and a
      style of such a name, for which stage 5 throws at its first concept.
      These inputs are outside the model; [plainText], [plainWords] and
      [knownStyle] name the inputs inside it. *)

From Stdlib Require Import String Ascii List Bool Arith ZArith QArith Qround.
From Stdlib Require Import Lia Lqa Permutation Sorted DecimalString DecimalNat.
Import ListNotations.

Local Open Scope string_scope.
Local Open Scope list_scope.
Local Open Scope nat_scope.

(** ** JavaScript strings *)

Module JSString.

(** The class [\s] on ASCII: tab, line feed, vertical tab, form feed,
    carriage return and space. *)
Definition isSpace (c : ascii) : bool :=
  let n := nat_of_ascii c in
  ((9 <=? n) && (n <=? 13)) || (n =? 32).

Definition isDigit (c : ascii) : bool :=
  let n := nat_of_ascii c in (48 <=? n) && (n <=? 57).

Definition isUpper (c : ascii) : bool :=
  let n := nat_of_ascii c in (65 <=? n) && (n <=? 90).

Definition isLower (c : ascii) : bool :=
  let n := nat_of_ascii c in (97 <=? n) && (n <=? 122).

(** The class [\w]: letters, digits and the underscore. *)
Definition isWordChar (c : ascii) : bool :=
  isUpper c || isLower c || isDigit c || (nat_of_ascii c =? 95).

Definition toLowerChar (c : ascii) : ascii :=
  if isUpper c then ascii_of_nat (nat_of_ascii c + 32) else c.

Fixpoint map (f : ascii -> ascii) (s : string) : string :=
  match s with
  | EmptyString => EmptyString
  | String c s' => String (f c) (map f s')
  end.

Fixpoint filter (p : ascii -> bool) (s : string) : string :=
  match s with
  | EmptyString => EmptyString
  | String c s' => if p c then String c (filter p s') else filter p s'
  end.

Fixpoint forallb (p : ascii -> bool) (s : string) : bool :=
  match s with
  | EmptyString => true
  | String c s' => p c && forallb p s'
  end.

Fixpoint rev (s : string) : string :=
  match s with
  | EmptyString => EmptyString
  | String c s' => rev s' ++ String c EmptyString
  end.

(** [s.toLowerCase()] on ASCII: only the letters A to Z change. *)
Definition toLowerCase (s : string) : string := map toLowerChar s.

(** [s.split(re)] for a regular expression [re] of the shape [[class]+]:
    the string is cut at every maximal run of separator characters.  [cur]
    is the piece being read and [inSep] tells whether the previous
    character was a separator. *)
Fixpoint splitRuns (sep : ascii -> bool) (s cur : string) (inSep : bool)
  : list string :=
  match s with
  | EmptyString => [cur]
  | String c s' =>
      if sep c then
        if inSep then splitRuns sep s' cur true
        else cur :: splitRuns sep s' EmptyString true
      else splitRuns sep s' (cur ++ String c EmptyString) false
  end.

Definition split (sep : ascii -> bool) (s : string) : list string :=
  splitRuns sep s EmptyString false.

Fixpoint trimStart (s : string) : string :=
  match s with
  | EmptyString => EmptyString
  | String c s' => if isSpace c then trimStart s' else s
  end.

Definition trim (s : string) : string := rev (trimStart (rev (trimStart s))).

(** [s.startsWith(p)] *)
Definition startsWith (s p : string) : bool := prefix p s.

(** [s.includes(sub)] *)
Fixpoint includes (s sub : string) : bool :=
  prefix sub s ||
  match s with
  | EmptyString => false
  | String _ s' => includes s' sub
  end.

(** [s.indexOf(sub)], -1 when [sub] does not occur. *)
Fixpoint indexOfFrom (i : Z) (s sub : string) : Z :=
  if prefix sub s then i
  else match s with
       | EmptyString => (-1)%Z
       | String _ s' => indexOfFrom (i + 1)%Z s' sub
       end.

Definition indexOf (s sub : string) : Z := indexOfFrom 0%Z s sub.

(** Decimal rendering of a natural number, as a template literal does. *)
Definition ofNat (n : nat) : string :=
  NilEmpty.string_of_uint (Nat.to_uint n).

(** [a || b] on strings: the empty string is falsy. *)
Definition orElse (a b : string) : string :=
  match a with EmptyString => b | _ => a end.

(** Truthiness of an optional string field: [undefined] and [''] are
    falsy. *)
Definition truthy (o : option string) : bool :=
  match o with
  | Some (String _ _) => true
  | _ => false
  end.

(** [arr.join(sep)] *)
Definition join (sep : string) (l : list string) : string := String.concat sep l.

End JSString.

(** ** Arrays *)

Module JSArray.

Section Sort.
Context {A : Type}.
(** [le x y] holds when the comparison function of the call returns a
    value that is not positive on [(x, y)]. *)
Variable le : A -> A -> bool.

Fixpoint insert (x : A) (l : list A) : list A :=
  match l with
  | [] => [x]
  | y :: l' => if le x y then x :: l else y :: insert x l'
  end.

(** [Array.prototype.sort] is stable: elements that compare equal keep
    their order.  With a consistent comparison function the result is
    the one of this insertion sort. *)
Fixpoint sort (l : list A) : list A :=
  match l with
  | [] => []
  | x :: l' => insert x (sort l')
  end.
End Sort.

(** [arr.slice(0, n)] for an integer [n]: a negative [n] counts from the
    end. *)
Definition slice0 {A : Type} (n : Z) (l : list A) : list A :=
  if (0 <=? n)%Z then firstn (Z.to_nat n) l
  else firstn (Z.to_nat (Z.of_nat (length l) + n)) l.

(** [new Set(arr)]: first occurrences, in order. *)
Fixpoint toSet (l : list string) (acc : list string) : list string :=
  match l with
  | [] => acc
  | x :: l' =>
      if existsb (String.eqb x) acc then toSet l' acc
      else toSet l' (acc ++ [x])
  end.

Definition has (s : list string) (x : string) : bool :=
  existsb (String.eqb x) s.

(** [arr.find(p)] *)
Definition find {A : Type} (p : A -> bool) (l : list A) : option A :=
  List.find p l.

End JSArray.

(** ** JavaScript numbers with their special values *)

Module JSNum.

Inductive num : Type :=
| Fin (q : Q)     (* a finite value; [Fin 0] is the positive zero *)
| NegZero
| PInf
| NInf
| NaN.

Definition ofNat (n : nat) : num := Fin (inject_Z (Z.of_nat n)).

Definition isNaN (x : num) : bool :=
  match x with NaN => true | _ => false end.

Definition isInf (x : num) : bool :=
  match x with PInf | NInf => true | _ => false end.

Definition isZero (x : num) : bool :=
  match x with Fin q => Qeq_bool q 0 | NegZero => true | _ => false end.

Definition isNeg (x : num) : bool :=
  match x with
  | Fin q => negb (Qle_bool 0 q)
  | NegZero | NInf => true
  | PInf | NaN => false
  end.

Definition value (x : num) : Q :=
  match x with Fin q => q | _ => 0%Q end.

Definition zero (negative : bool) : num :=
  if negative then NegZero else Fin 0.

Definition inf (negative : bool) : num :=
  if negative then NInf else PInf.

Definition neg (x : num) : num :=
  match x with
  | Fin q => if Qeq_bool q 0 then NegZero else Fin (- q)
  | NegZero => Fin 0
  | PInf => NInf
  | NInf => PInf
  | NaN => NaN
  end.

Definition add (x y : num) : num :=
  match x, y with
  | NaN, _ | _, NaN => NaN
  | PInf, NInf | NInf, PInf => NaN
  | PInf, _ | _, PInf => PInf
  | NInf, _ | _, NInf => NInf
  | NegZero, NegZero => NegZero
  | NegZero, Fin q | Fin q, NegZero => Fin q
  | Fin a, Fin b => Fin (a + b)
  end.

Definition sub (x y : num) : num := add x (neg y).

Definition mul (x y : num) : num :=
  if isNaN x || isNaN y then NaN
  else
    let s := xorb (isNeg x) (isNeg y) in
    if isInf x || isInf y then
      if isZero x || isZero y then NaN else inf s
    else if isZero x || isZero y then zero s
    else Fin (value x * value y).

Definition div (x y : num) : num :=
  if isNaN x || isNaN y then NaN
  else
    let s := xorb (isNeg x) (isNeg y) in
    if isInf x then (if isInf y then NaN else inf s)
    else if isInf y then zero s
    else if isZero y then (if isZero x then NaN else inf s)
    else if isZero x then zero s
    else Fin (value x / value y).

(** [x < y]; every comparison with NaN is false. *)
Definition ltb (x y : num) : bool :=
  match x, y with
  | NaN, _ | _, NaN => false
  | _, NInf | PInf, _ => false
  | NInf, _ | _, PInf => true
  | _, _ => negb (Qle_bool (value y) (value x))
  end.

(** Rounding of a non-negative rational to two decimals, ties upwards. *)
Definition round2 (q : Q) : Q :=
  (inject_Z (Qfloor (q * 100 + (1 # 2))) / 100)%Q.

(** [parseFloat(x.toFixed(2))] of the exact value; the code rounds the
    double that it has computed. *)
Definition toFixed2 (x : num) : num :=
  match x with
  | Fin q =>
      if Qle_bool 0 q then Fin (round2 q)
      else let r := round2 (- q) in
           if Qeq_bool r 0 then NegZero else Fin (- r)
  | NegZero => Fin 0
  | PInf => PInf
  | NInf => NInf
  | NaN => NaN
  end.

(** The number lies in the closed interval [[0,1]]. *)
Definition inUnitInterval (x : num) : Prop :=
  match x with
  | Fin q => (0 <= q /\ q <= 1)%Q
  | NegZero => True
  | PInf | NInf | NaN => False
  end.

End JSNum.

(** ** Data model *)

Module Formatting.
Record t : Type := mk {
  bold : bool;
  underline : bool;
  color : option string;
  font : option string;
  padding : option string
}.

(** The empty object [{}]. *)
Definition empty : t := mk false false None None None.
End Formatting.

Module Concept.
Record t : Type := mk {
  id : string;
  name : string;
  originalForm : string;
  importance : Q;
  frequency : nat;
  level : nat;
  firstOccurrence : Z;
  isCritical : bool;
  definition : option string;
  examples : option (list string);
  relatedTerms : option (list string);
  classification : option (string * string);
  formatting : option Formatting.t
}.

Definition setDefinition (d : option string) (c : t) : t :=
  mk (id c) (name c) (originalForm c) (importance c) (frequency c) (level c)
     (firstOccurrence c) (isCritical c) d (examples c)
     (relatedTerms c) (classification c) (formatting c).

Definition setExamples (e : list string) (c : t) : t :=
  mk (id c) (name c) (originalForm c) (importance c) (frequency c) (level c)
     (firstOccurrence c) (isCritical c) (definition c) (Some e)
     (relatedTerms c) (classification c) (formatting c).

Definition setRelatedTerms (r : list string) (c : t) : t :=
  mk (id c) (name c) (originalForm c) (importance c) (frequency c) (level c)
     (firstOccurrence c) (isCritical c) (definition c) (examples c)
     (Some r) (classification c) (formatting c).

Definition setClassification (k : string * string) (c : t) : t :=
  mk (id c) (name c) (originalForm c) (importance c) (frequency c) (level c)
     (firstOccurrence c) (isCritical c) (definition c) (examples c)
     (relatedTerms c) (Some k) (formatting c).

Definition setFormatting (f : Formatting.t) (c : t) : t :=
  mk (id c) (name c) (originalForm c) (importance c) (frequency c) (level c)
     (firstOccurrence c) (isCritical c) (definition c) (examples c)
     (relatedTerms c) (classification c) (Some f).
End Concept.

Module Relationship.
Record t : Type := mk {
  id : string;
  source : string;
  target : string;
  type : string;
  strength : Q;
  sharedSentences : nat;
  semanticCategory : option string;
  visualWeight : option Z;
  lineStyle : option string
}.
End Relationship.

Module Metadata.
Record t : Type := mk {
  textLength : nat;
  conceptCount : nat;
  relationshipCount : nat;
  coherenceScore : option JSNum.num;
  conceptsRemoved : option Z;
  relationshipsRemoved : option Z;
  warnings : list string;
  (** [limitationApplied = { conceptsRemoved, relationshipsRemoved }] *)
  limitationApplied : option (Z * Z)
}.
End Metadata.

Module Result.
Record t : Type := mk {
  concepts : list Concept.t;
  relationships : list Relationship.t;
  (** [conceptEmojis]: concept id to emoji, set by the aesthetics stage *)
  conceptEmojis : option (list (string * string));
  content : option string;
  metadata : Metadata.t
}.
End Result.

Module Stages.
Record t : Type := mk {
  organization : bool;
  reasoning : bool;
  enrichment : bool;
  validation : bool;
  aesthetics : bool;
  conclusion : bool
}.
End Stages.

(** The configuration after the merge with [defaultConfig]: every field is
    present and [maxConcepts] is an integer. *)
Module Config.
Record t : Type := mk {
  maxConcepts : Z;
  style : string;
  stages : Stages.t;
  includeExamples : bool;
  includeDefinitions : bool
}.
End Config.

(** [defaultConfig] of [processText]. *)
Definition defaultConfig : Config.t :=
  Config.mk 20 "educational" (Stages.mk true true true true true true) true true.

(** ** Stage 1: organisation and hierarchy *)

(** A plain object used as a table from strings to values. *)
Module Table.
Section Ops.
Context {V : Type}.

Fixpoint get (t : list (string * V)) (k : string) : option V :=
  match t with
  | [] => None
  | (k', v) :: t' => if String.eqb k' k then Some v else get t' k
  end.

(** [t[k] = f(t[k])]: an existing key keeps its place, a new key goes
    last. *)
Fixpoint update (f : option V -> V) (t : list (string * V)) (k : string)
  : list (string * V) :=
  match t with
  | [] => [(k, f None)]
  | (k', v) :: t' =>
      if String.eqb k' k then (k', f (Some v)) :: t'
      else (k', v) :: update f t' k
  end.

Definition set (t : list (string * V)) (k : string) (v : V)
  : list (string * V) :=
  update (fun _ => v) t k.
End Ops.

Definition digitValue (c : ascii) : N := N.of_nat (nat_of_ascii c - 48).

Fixpoint digitsValueFrom (acc : N) (s : string) : N :=
  match s with
  | EmptyString => acc
  | String c s' => digitsValueFrom (acc * 10 + digitValue c)%N s'
  end.

Definition digitsValue (s : string) : N := digitsValueFrom 0%N s.

(** A key is an array index when it is the canonical decimal form of an
    integer below 2^32 - 1. *)
Definition isArrayIndex (s : string) : bool :=
  match s with
  | EmptyString => false
  | String c rest =>
      JSString.forallb JSString.isDigit s
      && (negb (Ascii.eqb c "0") || String.eqb rest EmptyString)
      && (digitsValue s <? 4294967295)%N
  end.

(** [Object.keys(t)]: array indices in increasing order, then the other
    keys in insertion order. *)
Definition keys {V : Type} (t : list (string * V)) : list string :=
  let ks := List.map fst t in
  JSArray.sort (fun a b => (digitsValue a <=? digitsValue b)%N)
               (List.filter isArrayIndex ks)
  ++ List.filter (fun k => negb (isArrayIndex k)) ks.
End Table.

Definition commonWords : list string :=
  ["para"; "como"; "esto"; "este"; "esta"; "estos"; "estas"; "pero"; "porque"].

(** [word.toLowerCase().replace(/[^a-záéíóúüñ\w]/g, '')] on an ASCII word.
    The accented letters that the class of the source also keeps are not
    ASCII: here their bytes are dropped. *)
Definition cleanWord (word : string) : string :=
  JSString.filter JSString.isWordChar (JSString.toLowerCase word).

(** One round of the loop that fills [wordFrequency].  The association list
    holds only the words that were counted; the object of the code also
    reads [constructor] and [__proto__] from [Object.prototype]. *)
Definition countWord (wordFrequency : list (string * nat)) (word : string)
  : list (string * nat) :=
  let cw := cleanWord word in
  if 3 <? String.length cw
  then Table.update (fun o => match o with Some n => n + 1 | None => 1 end)
                    wordFrequency cw
  else wordFrequency.

Definition wordFrequencyOf (words : list string) : list (string * nat) :=
  fold_left countWord words [].

Definition frequencyOf (wordFrequency : list (string * nat)) (w : string) : nat :=
  match Table.get wordFrequency w with Some n => n | None => 0 end.

(** The eligible tokens of a text: the keys of the frequency table without
    the common words, by decreasing frequency. *)
Definition sortedWords (text : string) : list string :=
  let words := JSString.split JSString.isSpace text in
  let wordFrequency := wordFrequencyOf words in
  JSArray.sort
    (fun a b => frequencyOf wordFrequency b <=? frequencyOf wordFrequency a)
    (List.filter (fun w => negb (JSArray.has commonWords w))
                 (Table.keys wordFrequency)).

Fixpoint prefixIgnoreCase (w s : string) : bool :=
  match w, s with
  | EmptyString, _ => true
  | String _ _, EmptyString => false
  | String a w', String b s' =>
      Ascii.eqb (JSString.toLowerChar a) (JSString.toLowerChar b)
      && prefixIgnoreCase w' s'
  end.

Fixpoint takeWordChars (s : string) : string :=
  match s with
  | EmptyString => EmptyString
  | String c s' =>
      if JSString.isWordChar c then String c (takeWordChars s') else EmptyString
  end.

(** First match of [\b<word>\w*\b], ignoring case, for a [word] made of word
    characters; [prevIsWord] tells whether the character before the current
    position is a word character. *)
Fixpoint matchOriginalFrom (prevIsWord : bool) (word text : string)
  : option string :=
  match text with
  | EmptyString => None
  | String c rest =>
      if negb prevIsWord && prefixIgnoreCase word text
      then Some (takeWordChars text)
      else matchOriginalFrom (JSString.isWordChar c) word rest
  end.

Definition findOriginalForm (word text : string) : string :=
  match matchOriginalFrom false word text with
  | Some m => m
  | None => word
  end.

(** [Math.min] on finite numbers. *)
Definition Qmin' (a b : Q) : Q := if Qle_bool a b then a else b.
Definition Qmax' (a b : Q) : Q := if Qle_bool a b then b else a.

Definition ofNatQ (n : nat) : Q := inject_Z (Z.of_nat n).

(** The body of the [map] callback of [extractMainConcepts]. *)
Definition makeConcept (text : string) (wordCount : nat)
  (wordFrequency : list (string * nat)) (index : nat) (word : string)
  : Concept.t :=
  let importance :=
    (ofNatQ (frequencyOf wordFrequency word) / ofNatQ wordCount * 100
     + inject_Z (15 - Z.of_nat index) / 3)%Q in
  let level := if index <? 3 then 0 else if index <? 8 then 1 else 2 in
  Concept.mk
    ("concept-" ++ JSString.ofNat index)
    word
    (findOriginalForm word text)
    (Qmin' importance 6)
    (frequencyOf wordFrequency word)
    level
    (JSString.indexOf (JSString.toLowerCase text) (JSString.toLowerCase word))
    (index <? 5)
    None None None None None.

(** [arr.map((x, index) => f(index, x))] *)
Fixpoint mapi_from {A B : Type} (f : nat -> A -> B) (i : nat) (l : list A)
  : list B :=
  match l with
  | [] => []
  | x :: l' => f i x :: mapi_from f (S i) l'
  end.

Definition mapi {A B : Type} (f : nat -> A -> B) (l : list A) : list B :=
  mapi_from f 0 l.

Definition extractMainConcepts (text : string) : list Concept.t :=
  let words := JSString.split JSString.isSpace text in
  let wordFrequency := wordFrequencyOf words in
  mapi (makeConcept text (length words) wordFrequency)
       (firstn 15 (sortedWords text)).

(** [levels[concept.level].push(concept)], creating the array when the level
    is new. *)
Definition pushLevel (levels : list (string * list Concept.t)) (c : Concept.t)
  : list (string * list Concept.t) :=
  Table.update (fun o => match o with Some l => l ++ [c] | None => [c] end)
               levels (JSString.ofNat (Concept.level c)).

Definition byImportanceDesc (a b : Concept.t) : bool :=
  Qle_bool (Concept.importance b) (Concept.importance a).

Definition sortConceptsByRelevance (concepts : list Concept.t)
  : list Concept.t :=
  let sortedByLevel :=
    JSArray.sort (fun a b => Concept.level a <=? Concept.level b) concepts in
  let levels := fold_left pushLevel sortedByLevel [] in
  let levels :=
    List.map (fun kv => (fst kv, JSArray.sort byImportanceDesc (snd kv)))
             levels in
  flat_map (fun k => match Table.get levels k with
                     | Some l => l
                     | None => []
                     end)
           (JSArray.sort String.leb (Table.keys levels)).

(** [step1_OrganizeAndHierarchize] as far as concepts go; the hierarchy tree
    it also builds is read by no later stage. *)
Definition step1_OrganizeAndHierarchize (text : string) (result : Result.t)
  : Result.t :=
  let mainConcepts := extractMainConcepts text in
  let sortedConcepts := sortConceptsByRelevance mainConcepts in
  Result.mk sortedConcepts (Result.relationships result)
            (Result.conceptEmojis result) (Result.content result)
            (Result.metadata result).

(** ** Stage 2: relationships *)

Definition isSentenceEnd (c : ascii) : bool :=
  Ascii.eqb c "." || Ascii.eqb c "!" || Ascii.eqb c "?".

(** [text.split(/[.!?]+/).filter(s => s.trim().length > 0)] *)
Definition sentencesOf (text : string) : list string :=
  List.filter (fun s => 0 <? String.length (JSString.trim s))
              (JSString.split isSentenceEnd text).

(** [sentence.toLowerCase().includes(name.toLowerCase())] *)
Definition mentions (name sentence : string) : bool :=
  JSString.includes (JSString.toLowerCase sentence) (JSString.toLowerCase name).

(** The number of sentences that contain both concepts. *)
Definition sharedSentencesOf (sentences : list string) (source target : Concept.t)
  : nat :=
  let relevantSentences := List.filter (mentions (Concept.name source)) sentences in
  length (List.filter (mentions (Concept.name target)) relevantSentences).

(** The object pushed for a pair of concepts that share sentences. *)
Definition cooccurrence (source target : Concept.t) (sharedSentences : nat)
  : Relationship.t :=
  Relationship.mk
    ("rel-" ++ Concept.id source ++ "-" ++ Concept.id target)
    (Concept.id source)
    (Concept.id target)
    "relacionado con"
    (ofNatQ (Nat.min (sharedSentences + 1) 5))
    sharedSentences
    None None None.

(** The body of the inner [forEach] of [identifyConceptRelationships]. *)
Definition relate (sentences : list string) (source target : Concept.t)
  : list Relationship.t :=
  if String.eqb (Concept.id source) (Concept.id target) then []
  else
    let sharedSentences := sharedSentencesOf sentences source target in
    if 0 <? sharedSentences then [cooccurrence source target sharedSentences]
    else [].

Definition identifyConceptRelationships (text : string)
  (concepts : list Concept.t) : list Relationship.t :=
  let sentences := sentencesOf text in
  flat_map (fun source => flat_map (relate sentences source) concepts) concepts.

(** [relationTypes]: name and indicator (the weights of the table are never
    read). *)
Definition relationTypes : list (string * string) :=
  [ ("es parte de", "pertenencia");
    ("causa", "causalidad");
    ("es un tipo de", "clasificación");
    ("contiene", "composición");
    ("influye en", "influencia");
    ("se relaciona con", "asociación");
    ("precede a", "secuencia");
    ("requiere", "dependencia");
    ("se opone a", "contraste") ].

Definition typeWeights : list (string * Q) :=
  [ ("causa", 1.5); ("es un tipo de", 1.3); ("es parte de", 1.3);
    ("contiene", 1.2); ("requiere", 1.2); ("precede a", 1.1);
    ("influye en", 1.0); ("se opone a", 1.0); ("se relaciona con", 0.8) ]%Q.

(** Computations that draw from [Math.random]: the state is the number of
    draws made so far. *)
Module Rand.
Definition t (A : Type) : Type := nat -> A * nat.

Definition ret {A : Type} (a : A) : t A := fun k => (a, k).

Definition bind {A B : Type} (m : t A) (f : A -> t B) : t B :=
  fun k => let (a, k') := m k in f a k'.

Fixpoint mapM {A B : Type} (f : A -> t B) (l : list A) : t (list B) :=
  match l with
  | [] => ret []
  | x :: l' =>
      bind (f x) (fun y => bind (mapM f l') (fun ys => ret (y :: ys)))
  end.

Definition run {A : Type} (m : t A) : A := fst (m 0).
End Rand.

Notation "x <- m ;; k" := (Rand.bind m (fun x => k))
  (at level 61, m at next level, right associativity).

Section Engine.

(** The oracle behind [Math.random]. *)
Variable rnd : nat -> nat.

(** [Math.floor(Math.random() * 3)] *)
Definition random3 : Rand.t nat := fun k => (rnd k mod 3, S k).

Definition chooseTypeIndex (strength : Q) : Rand.t nat :=
  if Qle_bool 4 strength then random3
  else if Qle_bool 2 strength then (i <- random3 ;; Rand.ret (4 + i))
  else Rand.ret 5.

Definition classifyOne (rel : Relationship.t) : Rand.t Relationship.t :=
  typeIndex <- chooseTypeIndex (Relationship.strength rel) ;;
  let ty := nth typeIndex relationTypes ("", "") in
  Rand.ret
    (Relationship.mk (Relationship.id rel) (Relationship.source rel)
       (Relationship.target rel) (fst ty) (Relationship.strength rel)
       (Relationship.sharedSentences rel) (Some (snd ty))
       (Relationship.visualWeight rel) (Relationship.lineStyle rel)).

Definition classifyRelationshipTypes (relationships : list Relationship.t)
  : Rand.t (list Relationship.t) :=
  Rand.mapM classifyOne relationships.

End Engine.

(** [typeWeights[rel.type] || 1.0], the weights as exact decimals. *)
Definition typeWeightOf (ty : string) : Q :=
  match Table.get typeWeights ty with
  | Some w => if Qeq_bool w 0 then 1 else w
  | None => 1
  end.

(** The callback of [assignRelationshipStrength], in exact arithmetic: the
    code rounds the product to the nearest double, which moves it by less
    than a billionth and leaves its ceiling unchanged. *)
Definition adjustStrength (rel : Relationship.t) : Relationship.t :=
  let weight := typeWeightOf (Relationship.type rel) in
  let adjustedStrength :=
    Qmin' (Qmax' (Relationship.strength rel * weight) 1) 5 in
  Relationship.mk (Relationship.id rel) (Relationship.source rel)
    (Relationship.target rel) (Relationship.type rel) adjustedStrength
    (Relationship.sharedSentences rel) (Relationship.semanticCategory rel)
    (Some (Qceiling adjustedStrength)) (Relationship.lineStyle rel).

Definition assignRelationshipStrength (relationships : list Relationship.t)
  : list Relationship.t :=
  List.map adjustStrength relationships.

(** The relationship engine: detection, classification and weighting. *)
Definition analyzeRelationships (rnd : nat -> nat) (text : string)
  (concepts : list Concept.t) : Rand.t (list Relationship.t) :=
  let relationships := identifyConceptRelationships text concepts in
  typedRelationships <- classifyRelationshipTypes rnd relationships ;;
  Rand.ret (assignRelationshipStrength typedRelationships).

Definition step2_AnalyzeRelationships (rnd : nat -> nat) (text : string)
  (result : Result.t) : Rand.t Result.t :=
  weightedRelationships <- analyzeRelationships rnd text (Result.concepts result) ;;
  Rand.ret (Result.mk (Result.concepts result) weightedRelationships
              (Result.conceptEmojis result) (Result.content result)
              (Result.metadata result)).

(** ** Stage 3: semantic enrichment *)

(** [definitions[(level + Math.floor(importance)) % 4]]; a negative index
    reads [undefined]. *)
Definition generateConciseDefinition (concept : Concept.t) : option string :=
  let definitions : list string :=
    [ ("Término que hace referencia a " ++ Concept.name concept
        ++ " en el contexto del documento")%string;
      "Concepto clave relacionado con la temática principal";
      ("Elemento fundamental que representa "
        ++ JSString.orElse (Concept.originalForm concept) (Concept.name concept))%string;
      "Componente que define aspectos esenciales del tema tratado" ] in
  let index :=
    Z.rem (Z.of_nat (Concept.level concept) + Qfloor (Concept.importance concept)) 4 in
  if (index <? 0)%Z then None else nth_error definitions (Z.to_nat index).

Definition findRelevantExamples (concept : Concept.t) : list string :=
  let examples : list string :=
    [ ("Ejemplo aplicado de "
        ++ JSString.orElse (Concept.originalForm concept) (Concept.name concept))%string;
      "Caso práctico que ilustra este concepto";
      "Instancia específica que demuestra su aplicación" ] in
  let numExamples := Nat.min 3 (Nat.max 1 (3 - Concept.level concept)) in
  firstn numExamples examples.

Definition identifyRelatedTerms (concept : Concept.t) : list string :=
  [ ("Término relacionado con " ++ Concept.name concept)%string;
    "Sinónimo contextual" ].

Definition classifyConcept (concept : Concept.t) : string * string :=
  let categories :=
    [ "Concepto principal"; "Concepto secundario"; "Concepto terciario";
      "Detalle"; "Ejemplo" ] in
  (nth (Concept.level concept) categories "Concepto principal", "General").

(** The callback of the [map] of [step3_EnrichSemantically]. *)
Definition enrich (concept : Concept.t) : Concept.t :=
  let concept :=
    if negb (JSString.truthy (Concept.definition concept))
    then Concept.setDefinition (generateConciseDefinition concept) concept
    else concept in
  let concept :=
    match Concept.examples concept with
    | None => Concept.setExamples (findRelevantExamples concept) concept
    | Some _ => concept
    end in
  let concept :=
    match Concept.relatedTerms concept with
    | None => Concept.setRelatedTerms (identifyRelatedTerms concept) concept
    | Some _ => concept
    end in
  match Concept.classification concept with
  | None => Concept.setClassification (classifyConcept concept) concept
  | Some _ => concept
  end.

Definition step3_EnrichSemantically (text : string) (result : Result.t)
  : Result.t :=
  Result.mk (List.map enrich (Result.concepts result))
            (Result.relationships result) (Result.conceptEmojis result)
            (Result.content result) (Result.metadata result).

(** ** Stage 4: validation and coherence *)

Definition isRelevant (concept : Concept.t) : bool :=
  negb (Qle_bool (Concept.importance concept) 1.5)
  || (1 <? Concept.frequency concept)
  || Concept.isCritical concept.

Definition filterIrrelevantConcepts (concepts : list Concept.t)
  : list Concept.t :=
  List.filter isRelevant concepts.

(** One round of the loop of [removeRedundantConcepts] over the pair
    [(uniqueConcepts, seenNames)]. *)
Definition keepIfNew (state : list Concept.t * list string)
  (concept : Concept.t) : list Concept.t * list string :=
  let (uniqueConcepts, seenNames) := state in
  let normalizedName := JSString.toLowerCase (Concept.name concept) in
  if JSArray.has seenNames normalizedName then state
  else
    let isDuplicate :=
      if 4 <? String.length normalizedName then
        let prefix := substring 0 4 normalizedName in
        existsb (fun name => JSString.startsWith name prefix
                             && negb (String.eqb name normalizedName))
                seenNames
      else false in
    if isDuplicate then state
    else (uniqueConcepts ++ [concept], seenNames ++ [normalizedName]).

Definition removeRedundantConcepts (concepts : list Concept.t)
  : list Concept.t :=
  fst (fold_left keepIfNew concepts ([], [])).

Definition conceptIdsOf (concepts : list Concept.t) : list string :=
  JSArray.toSet (List.map Concept.id concepts) [].

(** [concepts.find(c => c.id === id)?.level || 0] *)
Definition levelOf (concepts : list Concept.t) (id : string) : nat :=
  match JSArray.find (fun c => String.eqb (Concept.id c) id) concepts with
  | Some c => Concept.level c
  | None => 0
  end.

Definition connectsValidConcepts (validConceptIds : list string)
  (rel : Relationship.t) : bool :=
  JSArray.has validConceptIds (Relationship.source rel)
  && JSArray.has validConceptIds (Relationship.target rel).

Definition isCoherent (concepts : list Concept.t) (rel : Relationship.t)
  : bool :=
  let sourceLevel := levelOf concepts (Relationship.source rel) in
  let targetLevel := levelOf concepts (Relationship.target rel) in
  if String.eqb (Relationship.type rel) "es parte de"
     && (sourceLevel <=? targetLevel)
  then false else true.

Definition validateRelationshipCoherence (relationships : list Relationship.t)
  (concepts : list Concept.t) : list Relationship.t :=
  let validConceptIds := conceptIdsOf concepts in
  let validRelationships :=
    List.filter (connectsValidConcepts validConceptIds) relationships in
  List.filter (isCoherent concepts) validRelationships.

(** The set filled by the first loop of [calculateCoherenceScore]. *)
Definition connectedConceptIds (relationships : list Relationship.t)
  : list string :=
  JSArray.toSet
    (flat_map (fun rel => [Relationship.source rel; Relationship.target rel])
              relationships)
    [].

Definition strongRelationships (relationships : list Relationship.t) : nat :=
  length (List.filter (fun rel => negb (Qle_bool (Relationship.strength rel) 3))
                      relationships).

Definition calculateCoherenceScore (concepts : list Concept.t)
  (relationships : list Relationship.t) : JSNum.num :=
  let n := JSNum.ofNat (length concepts) in
  let connectivityRatio :=
    JSNum.div (JSNum.ofNat (length (connectedConceptIds relationships))) n in
  let relationshipDensity :=
    JSNum.div (JSNum.ofNat (length relationships))
      (JSNum.div (JSNum.mul n (JSNum.sub n (JSNum.Fin 1))) (JSNum.Fin 2)) in
  let significanceRatio :=
    JSNum.div (JSNum.ofNat (strongRelationships relationships))
              (JSNum.ofNat (Nat.max 1 (length relationships))) in
  JSNum.add
    (JSNum.add (JSNum.mul connectivityRatio (JSNum.Fin 0.4))
               (JSNum.mul relationshipDensity (JSNum.Fin 0.3)))
    (JSNum.mul significanceRatio (JSNum.Fin 0.3)).

Definition lowCoherenceWarning : string := "low_coherence".

Definition step4_VerifyAndValidate (result : Result.t) : Result.t :=
  let originalConceptCount := length (Result.concepts result) in
  let originalRelationshipCount := length (Result.relationships result) in
  let relevantConcepts := filterIrrelevantConcepts (Result.concepts result) in
  let uniqueConcepts := removeRedundantConcepts relevantConcepts in
  let relationships :=
    validateRelationshipCoherence (Result.relationships result) uniqueConcepts in
  let coherenceScore := calculateCoherenceScore uniqueConcepts relationships in
  let m := Result.metadata result in
  let warnings :=
    if JSNum.ltb coherenceScore (JSNum.Fin 0.5)
    then Metadata.warnings m ++ [lowCoherenceWarning]
    else Metadata.warnings m in
  Result.mk uniqueConcepts relationships (Result.conceptEmojis result)
    (Result.content result)
    (Metadata.mk (Metadata.textLength m) (Metadata.conceptCount m)
       (Metadata.relationshipCount m)
       (Some (JSNum.toFixed2 coherenceScore))
       (Some (Z.of_nat originalConceptCount - Z.of_nat (length uniqueConcepts))%Z)
       (Some (Z.of_nat originalRelationshipCount - Z.of_nat (length relationships))%Z)
       warnings
       (Metadata.limitationApplied m)).

(** ** Stage 5: visual presentation *)

Module VisualSettings.
Record t : Type := mk {
  colorPalette : list string;
  fontTitle : string;
  fontConcept : string;
  fontSubconcept : string;
  fontDetail : string;
  lineStrong : string;
  lineMedium : string;
  lineLight : string;
  nodePadding : string;
  levelMargin : string
}.
End VisualSettings.

(** A name between double quotes, as in the font lists of the source. *)
Definition quoted (s : string) : string :=
  let dq := String (ascii_of_nat 34) EmptyString in (dq ++ s ++ dq)%string.

Definition fontOf (size family generic : string) : string :=
  (size ++ quoted family ++ ", " ++ generic)%string.

Definition educationalStyle : VisualSettings.t :=
  VisualSettings.mk
    ["#3b82f6"; "#10b981"; "#f59e0b"; "#6366f1"; "#a855f7"]
    "bold 18px Arial, sans-serif" "16px Arial, sans-serif"
    "14px Arial, sans-serif" "12px Arial, sans-serif"
    "3px solid" "2px solid" "1px solid" "10px" "30px".

Definition minimalStyle : VisualSettings.t :=
  VisualSettings.mk
    ["#1f2937"; "#374151"; "#4b5563"; "#6b7280"; "#9ca3af"]
    (fontOf "bold 16px " "Helvetica Neue" "sans-serif")
    (fontOf "14px " "Helvetica Neue" "sans-serif")
    (fontOf "13px " "Helvetica Neue" "sans-serif")
    (fontOf "12px " "Helvetica Neue" "sans-serif")
    "2px solid" "1.5px solid" "1px solid" "8px" "25px".

Definition colorfulStyle : VisualSettings.t :=
  VisualSettings.mk
    ["#ef4444"; "#f59e0b"; "#10b981"; "#3b82f6"; "#8b5cf6"]
    (fontOf "bold 18px " "Comic Sans MS" "cursive")
    (fontOf "16px " "Comic Sans MS" "cursive")
    (fontOf "14px " "Comic Sans MS" "cursive")
    (fontOf "12px " "Comic Sans MS" "cursive")
    "3px dashed" "2px dashed" "1px dashed" "12px" "35px".

Definition academicStyle : VisualSettings.t :=
  VisualSettings.mk
    ["#1e40af"; "#047857"; "#b45309"; "#4f46e5"; "#7e22ce"]
    (fontOf "bold 16px " "Times New Roman" "serif")
    (fontOf "15px " "Times New Roman" "serif")
    (fontOf "14px " "Times New Roman" "serif")
    (fontOf "13px " "Times New Roman" "serif")
    "2px solid" "1.5px solid" "1px solid" "10px" "30px".

(** [styles[style] || styles.educational] for a style that is a key of
    [styles] or names no member of [Object.prototype]. *)
Definition getEducationalVisualSettings (style : string) : VisualSettings.t :=
  if String.eqb style "educational" then educationalStyle
  else if String.eqb style "minimal" then minimalStyle
  else if String.eqb style "colorful" then colorfulStyle
  else if String.eqb style "academic" then academicStyle
  else educationalStyle.

Definition levelEmojis : list string := ["💡"; "🔎"; "📋"].
Definition criticalEmoji : string := "⭐".

Definition assignEmoji (conceptEmojis : list (string * string))
  (concept : Concept.t) : list (string * string) :=
  let conceptEmojis :=
    Table.set conceptEmojis (Concept.id concept)
      (nth (Concept.level concept) levelEmojis "💡") in
  if Concept.isCritical concept
  then Table.set conceptEmojis (Concept.id concept) criticalEmoji
  else conceptEmojis.

(** The table is the list of the entries in the order of their first
    assignment; an id that names a member of [Object.prototype] is outside
    the model. *)
Definition assignRelevantEmojis (concepts : list Concept.t)
  : list (string * string) :=
  fold_left assignEmoji concepts [].

Definition formatConcept (visualSettings : VisualSettings.t)
  (concept : Concept.t) : Concept.t :=
  let f := match Concept.formatting concept with
           | Some f => f
           | None => Formatting.empty
           end in
  let bold :=
    if (Concept.level concept =? 0)
       || negb (Qle_bool (Concept.importance concept) 4)
       || Concept.isCritical concept
    then true else Formatting.bold f in
  let underline :=
    if (Concept.level concept =? 1)
       && negb (Qle_bool (Concept.importance concept) 3)
    then true else Formatting.underline f in
  let palette := VisualSettings.colorPalette visualSettings in
  let colorIndex := Concept.level concept mod length palette in
  let font :=
    if Concept.level concept =? 0 then VisualSettings.fontTitle visualSettings
    else if Concept.level concept =? 1 then VisualSettings.fontConcept visualSettings
    else if Concept.level concept =? 2 then VisualSettings.fontSubconcept visualSettings
    else VisualSettings.fontDetail visualSettings in
  Concept.setFormatting
    (Formatting.mk bold underline (nth_error palette colorIndex) (Some font)
       (Some (VisualSettings.nodePadding visualSettings)))
    concept.

(** [x || 1] on a finite number. *)
Definition orOne (x : Q) : Q := if Qeq_bool x 0 then 1 else x.

(** [concepts.find(c => c.id === id)?.importance || 1] *)
Definition importanceOf (concepts : list Concept.t) (id : string) : Q :=
  match JSArray.find (fun c => String.eqb (Concept.id c) id) concepts with
  | Some c => orOne (Concept.importance c)
  | None => 1
  end.

(** [Math.round] *)
Definition round (x : Q) : Z := Qfloor (x + (1 # 2)).

Definition styleRelationship (visualSettings : VisualSettings.t)
  (concepts : list Concept.t) (relationship : Relationship.t)
  : Relationship.t :=
  let sourceImportance := importanceOf concepts (Relationship.source relationship) in
  let targetImportance := importanceOf concepts (Relationship.target relationship) in
  let relationStrength := orOne (Relationship.strength relationship) in
  let avgImportance := ((sourceImportance + targetImportance) / 2)%Q in
  let visualWeight :=
    Z.max 1 (Z.min 3 (round ((avgImportance + relationStrength) / 2))) in
  let lineStyle :=
    if (visualWeight =? 3)%Z then VisualSettings.lineStrong visualSettings
    else if (visualWeight =? 2)%Z then VisualSettings.lineMedium visualSettings
    else VisualSettings.lineLight visualSettings in
  Relationship.mk (Relationship.id relationship)
    (Relationship.source relationship) (Relationship.target relationship)
    (Relationship.type relationship) (Relationship.strength relationship)
    (Relationship.sharedSentences relationship)
    (Relationship.semanticCategory relationship)
    (Some visualWeight) (Some lineStyle).

Definition step5_OptimizeVisualPresentation (result : Result.t)
  (config : Config.t) : Result.t :=
  let visualSettings := getEducationalVisualSettings (Config.style config) in
  let conceptEmojis := assignRelevantEmojis (Result.concepts result) in
  let concepts := List.map (formatConcept visualSettings) (Result.concepts result) in
  let relationships :=
    List.map (styleRelationship visualSettings concepts)
             (Result.relationships result) in
  Result.mk concepts relationships (Some conceptEmojis)
            (Result.content result) (Result.metadata result).

(** ** Limitation to [maxConcepts] *)

(** The block of [processText] that limits the number of concepts. *)
Definition limitConcepts (config : Config.t) (result : Result.t) : Result.t :=
  let maxConcepts := Config.maxConcepts config in
  if (maxConcepts <? Z.of_nat (length (Result.concepts result)))%Z then
    let sorted := JSArray.sort byImportanceDesc (Result.concepts result) in
    let removedCount := (Z.of_nat (length sorted) - maxConcepts)%Z in
    let concepts := JSArray.slice0 maxConcepts sorted in
    let conceptIds := conceptIdsOf concepts in
    let originalRelationships := length (Result.relationships result) in
    let relationships :=
      List.filter (connectsValidConcepts conceptIds) (Result.relationships result) in
    let m := Result.metadata result in
    Result.mk concepts relationships (Result.conceptEmojis result)
      (Result.content result)
      (Metadata.mk (Metadata.textLength m) (Metadata.conceptCount m)
         (Metadata.relationshipCount m) (Metadata.coherenceScore m)
         (Metadata.conceptsRemoved m) (Metadata.relationshipsRemoved m)
         (Metadata.warnings m)
         (Some (removedCount,
                (Z.of_nat originalRelationships - Z.of_nat (length relationships))%Z)))
  else result.

(** ** Emission of the Markdown document *)

Definition nl : string := String (ascii_of_nat 10) EmptyString.

(** [emojis[id] || ''] *)
Definition emojiOf (emojis : list (string * string)) (id : string) : string :=
  match Table.get emojis id with
  | Some e => e
  | None => ""
  end.

(** [concept.formatting?.bold] and [concept.formatting?.underline] *)
Definition isBold (concept : Concept.t) : bool :=
  match Concept.formatting concept with
  | Some f => Formatting.bold f
  | None => false
  end.

Definition isUnderlined (concept : Concept.t) : bool :=
  match Concept.formatting concept with
  | Some f => Formatting.underline f
  | None => false
  end.

Definition displayName (concept : Concept.t) : string :=
  JSString.orElse (Concept.originalForm concept) (Concept.name concept).

(** [conceptsByLevel[level] || []] where the code guards the access. *)
Definition atLevel (conceptsByLevel : list (string * list Concept.t))
  (level : nat) : list Concept.t :=
  match Table.get conceptsByLevel (JSString.ofNat level) with
  | Some l => l
  | None => []
  end.

Definition targets (relations : list Relationship.t) (concept : Concept.t)
  : bool :=
  existsb (fun rel => String.eqb (Relationship.target rel) (Concept.id concept))
          relations.

Definition relationTo (relations : list Relationship.t) (concept : Concept.t)
  : option Relationship.t :=
  JSArray.find
    (fun rel => String.eqb (Relationship.target rel) (Concept.id concept))
    relations.

Section Emission.

Local Open Scope string_scope.

Variable result : Result.t.
Variable conceptsByLevel : list (string * list Concept.t).
Variable emojis : list (string * string).

(** The text appended for one related detail (level 2). *)
Definition detailLine (subConcept : Concept.t)
  (subRelations : list Relationship.t) (detail : Concept.t) : string :=
  let detailName := displayName detail in
  let detailName :=
    if isBold detail then "**" ++ detailName ++ "**" else detailName in
  "- **" ++ detailName ++ "**: "
  ++ match relationTo subRelations detail with
     | Some detailRelation =>
         "*" ++ Relationship.type detailRelation ++ "* "
         ++ Concept.name subConcept
     | None => ""
     end
  ++ nl.

(** The text appended for one related subconcept (level 1). *)
Definition subConceptSection (mainConcept : Concept.t)
  (relations : list Relationship.t) (subConcept : Concept.t) : string :=
  let subEmoji := emojiOf emojis (Concept.id subConcept) in
  let subConceptName := displayName subConcept in
  let subConceptName :=
    if isBold subConcept then "**" ++ subConceptName ++ "**"
    else subConceptName in
  let subConceptName :=
    if isUnderlined subConcept then "<u>" ++ subConceptName ++ "</u>"
    else subConceptName in
  let subRelations :=
    List.filter
      (fun rel => String.eqb (Relationship.source rel) (Concept.id subConcept))
      (Result.relationships result) in
  let relatedDetails :=
    List.filter (targets subRelations) (atLevel conceptsByLevel 2) in
  "### " ++ subEmoji ++ " " ++ subConceptName ++ nl ++ nl
  ++ match relationTo relations subConcept with
     | Some relation =>
         "*" ++ Relationship.type relation ++ "* "
         ++ Concept.name mainConcept ++ nl ++ nl
     | None => ""
     end
  ++ match Concept.definition subConcept with
     | Some ((String _ _) as d) => d ++ nl ++ nl
     | _ => ""
     end
  ++ match Concept.examples subConcept with
     | Some ((_ :: _) as examples) =>
         "**Ejemplos:**" ++ nl
         ++ fold_left (fun content example => content ++ "- " ++ example ++ nl)
                      examples ""
         ++ nl
     | _ => ""
     end
  ++ match relatedDetails with
     | _ :: _ =>
         "**Detalles relacionados:**" ++ nl
         ++ fold_left
              (fun content detail =>
                 content ++ detailLine subConcept subRelations detail)
              relatedDetails ""
         ++ nl
     | [] => ""
     end
  ++ match Concept.relatedTerms subConcept with
     | Some ((_ :: _) as relatedTerms) =>
         "**Términos relacionados:** " ++ JSString.join ", " relatedTerms
         ++ nl ++ nl
     | _ => ""
     end.

(** The heading and the definition of one main concept (level 0): the text
    that the callback appends before it turns to the subconcepts. *)
Definition mainHeading (mainConcept : Concept.t) : string :=
  let emoji := emojiOf emojis (Concept.id mainConcept) in
  let conceptName :=
    if isBold mainConcept then "**" ++ displayName mainConcept ++ "**"
    else displayName mainConcept in
  "## " ++ emoji ++ " " ++ conceptName ++ nl ++ nl
  ++ match Concept.definition mainConcept with
     | Some ((String _ _) as d) => d ++ nl ++ nl
     | _ => ""
     end.

(** [result.relationships.filter(rel => rel.source === concept.id)] *)
Definition relationsFrom (concept : Concept.t) : list Relationship.t :=
  List.filter
    (fun rel => String.eqb (Relationship.source rel) (Concept.id concept))
    (Result.relationships result).

(** The text appended for one main concept. *)
Definition mainConceptSection (mainConcept : Concept.t) : string :=
  let relations := relationsFrom mainConcept in
  let relatedSubconcepts :=
    List.filter (targets relations) (atLevel conceptsByLevel 1) in
  fold_left
    (fun content subConcept =>
       content ++ subConceptSection mainConcept relations subConcept)
    relatedSubconcepts (mainHeading mainConcept).

End Emission.

Definition title : string := ("# Mapa Conceptual" ++ nl ++ nl)%string.

Definition generateEducationalConceptMap (result : Result.t)
  (config : Config.t) : string :=
  let conceptsByLevel := fold_left pushLevel (Result.concepts result) [] in
  let emojis := match Result.conceptEmojis result with
                | Some e => e
                | None => []
                end in
  fold_left
    (fun content mainConcept =>
       (content ++ mainConceptSection result conceptsByLevel emojis mainConcept)%string)
    (atLevel conceptsByLevel 0)
    title.

(** ** The pipeline *)

Definition emptyResult (text : string) : Result.t :=
  Result.mk [] [] None None
    (Metadata.mk (String.length text) 0 0 None None None [] None).

(** [processText] on a string and a configuration with all its fields.  The
    result is given directly: the one statement that can throw is the
    formatting of a concept in stage 5 under a style that names a member of
    [Object.prototype], and such a style is outside the model. *)
Definition processText (rnd : nat -> nat) (text : string) (config : Config.t)
  : Result.t :=
  let stages := Config.stages config in
  let result := emptyResult text in
  let result :=
    if Stages.organization stages
    then step1_OrganizeAndHierarchize text result else result in
  let result :=
    if Stages.reasoning stages
    then Rand.run (step2_AnalyzeRelationships rnd text result) else result in
  let result :=
    if Stages.enrichment stages
    then step3_EnrichSemantically text result else result in
  let result :=
    if Stages.validation stages
    then step4_VerifyAndValidate result else result in
  let result :=
    if Stages.aesthetics stages
    then step5_OptimizeVisualPresentation result config else result in
  let result := limitConcepts config result in
  let content := generateEducationalConceptMap result config in
  let m := Result.metadata result in
  Result.mk (Result.concepts result) (Result.relationships result)
    (Result.conceptEmojis result) (Some content)
    (Metadata.mk (Metadata.textLength m)
       (length (Result.concepts result))
       (length (Result.relationships result))
       (Metadata.coherenceScore m) (Metadata.conceptsRemoved m)
       (Metadata.relationshipsRemoved m) (Metadata.warnings m)
       (Metadata.limitationApplied m)).

(** ** The controller's guard *)

Inductive Response : Type :=
| BadRequest (error : string)
| Success (result : Result.t).

(** [generateMap], for a request whose body carries a string [text] and whose
    options are already turned into a configuration: [!text] rejects the
    empty string only. *)
Definition generateMap (rnd : nat -> nat) (text : string) (config : Config.t)
  : Response :=
  if String.eqb text "" then BadRequest "El texto es requerido"
  else Success (processText rnd text config).

(** ** The statements of the specification that the code does not follow *)

Module Claimed.

(** The mean importance of a list of concepts. *)
Definition meanImportance (concepts : list Concept.t) : Q :=
  (fold_right (fun c acc => Concept.importance c + acc) 0 concepts
   / ofNatQ (Nat.max 1 (length concepts)))%Q.

(** The filter as the specification words it: a concept is dropped exactly
    when its importance is below 0.4 times the mean, unless it has level 0
    or is critical. *)
Definition keeps (concepts : list Concept.t) (c : Concept.t) : bool :=
  (Concept.level c =? 0) || Concept.isCritical c
  || Qle_bool (0.4 * meanImportance concepts) (Concept.importance c).

Definition filterIrrelevantConcepts (concepts : list Concept.t)
  : list Concept.t :=
  List.filter (keeps concepts) concepts.

(** The weighted sum of the specification, for given values of its level
    balance and density signals. *)
Definition coherence (connectivity levelBalance density : Q) : Q :=
  (0.5 * connectivity + 0.3 * levelBalance + 0.2 * density)%Q.

(** The text the specification expects when nothing was extracted; the
    service file has no such text, this is the one of a variant of the
    service. *)
Definition placeholder : string :=
  ("# No se pudieron extraer conceptos" ++ nl ++ nl
   ++ "No hay suficiente información para generar un mapa conceptual.")%string.

End Claimed.

(** The connectivity ratio, relationship density and significance ratio of
    [calculateCoherenceScore] as rationals, for a non-empty concept list. *)
Definition connectivityRatio (concepts : list Concept.t)
  (relationships : list Relationship.t) : Q :=
  (ofNatQ (length (connectedConceptIds relationships)) / ofNatQ (length concepts))%Q.

Definition relationshipDensity (concepts : list Concept.t)
  (relationships : list Relationship.t) : Q :=
  (ofNatQ (length relationships)
   / (ofNatQ (length concepts) * (ofNatQ (length concepts) - 1) / 2))%Q.

Definition significanceRatio (relationships : list Relationship.t) : Q :=
  (ofNatQ (strongRelationships relationships)
   / ofNatQ (Nat.max 1 (length relationships)))%Q.

(** The relationship with source and target exchanged, as the detection step
    builds it. *)
Definition mirror (r : Relationship.t) : Relationship.t :=
  Relationship.mk
    ("rel-" ++ Relationship.target r ++ "-" ++ Relationship.source r)
    (Relationship.target r) (Relationship.source r) (Relationship.type r)
    (Relationship.strength r) (Relationship.sharedSentences r)
    (Relationship.semanticCategory r) (Relationship.visualWeight r)
    (Relationship.lineStyle r).

(** The unordered pairs of concepts that share a sentence: each concept with
    the concepts after it in the list. *)
Fixpoint sharingPairs (sentences : list string) (concepts : list Concept.t)
  : list (Concept.t * Concept.t) :=
  match concepts with
  | [] => []
  | c :: rest =>
      List.map (pair c)
        (List.filter
           (fun t => negb (String.eqb (Concept.id c) (Concept.id t))
                     && (0 <? sharedSentencesOf sentences c t))
           rest)
      ++ sharingPairs sentences rest
  end.

(** Every endpoint of a relationship is the id of a concept. *)
Definition endpointsIn (concepts : list Concept.t)
  (relationships : list Relationship.t) : Prop :=
  forall r, In r relationships ->
    In (Relationship.source r) (List.map Concept.id concepts)
    /\ In (Relationship.target r) (List.map Concept.id concepts).

Definition triple (r : Relationship.t) : string * string * string :=
  (Relationship.source r, Relationship.target r, Relationship.type r).

(** [x] is the finite number [q]. *)
Definition isFinite (x : JSNum.num) (q : Q) : Prop :=
  match x with
  | JSNum.Fin q' => q' == q
  | _ => False
  end.

(** Sample data: two concepts of level 0 joined in both directions by a
    strong relationship. *)
Definition sampleConcept (index level : nat) (name : string) (importance : Q)
  (isCritical : bool) : Concept.t :=
  Concept.mk ("concept-" ++ JSString.ofNat index) name name importance 1 level 0
             isCritical None None None None None.

Definition sampleEdge (source target : string) (strength : Q) : Relationship.t :=
  Relationship.mk ("rel-" ++ source ++ "-" ++ target) source target "causa"
                  strength 3 (Some "causalidad") (Some 5%Z) None.

Definition twoConcepts : list Concept.t :=
  [ sampleConcept 0 0 "alpha" 6 true; sampleConcept 1 0 "beta" 6 true ].

Definition bothDirections : list Relationship.t :=
  [ sampleEdge "concept-0" "concept-1" 5; sampleEdge "concept-1" "concept-0" 5 ].

(** The test and the object of [relate] on a pair of concepts. *)
Definition related (sentences : list string) (p : Concept.t * Concept.t)
  : bool :=
  negb (String.eqb (Concept.id (fst p)) (Concept.id (snd p)))
  && (0 <? sharedSentencesOf sentences (fst p) (snd p)).

Definition edgeOf (sentences : list string) (p : Concept.t * Concept.t)
  : Relationship.t :=
  cooccurrence (fst p) (snd p) (sharedSentencesOf sentences (fst p) (snd p)).

Definition endpoints (r : Relationship.t) : string * string :=
  (Relationship.source r, Relationship.target r).

(** Sample data for the relevance filter: three concepts of importance 6, a
    weak concept of importance 1.6 at level 2 and a concept of level 0 and
    importance 1, none of them critical, all of frequency 1. *)
Definition mixedConcepts : list Concept.t :=
  [ sampleConcept 0 1 "alpha" 6 false; sampleConcept 1 1 "beta" 6 false;
    sampleConcept 2 1 "gamma" 6 false; sampleConcept 3 2 "weak" 1.6 false;
    sampleConcept 4 0 "root" 1 false ].

(** The invariant of the pipeline on relationships. *)
Definition closed (r : Result.t) : Prop :=
  endpointsIn (Result.concepts r) (Result.relationships r).

(** The concatenation of a list of pieces of text. *)
Definition concatAll (pieces : list string) : string :=
  fold_right String.append EmptyString pieces.

(** The concepts of level 0, which head the sections of the document. *)
Definition mainConcepts (concepts : list Concept.t) : list Concept.t :=
  List.filter (fun c => Concept.level c =? 0) concepts.

(** The concepts of level 1, candidates for the subsections. *)
Definition secondaryConcepts (concepts : list Concept.t) : list Concept.t :=
  List.filter (fun c => Concept.level c =? 1) concepts.

(** A result holding given concepts and relationships and nothing else. *)
Definition resultOf (concepts : list Concept.t)
  (relationships : list Relationship.t) : Result.t :=
  Result.mk concepts relationships None None
            (Metadata.mk 0 0 0 None None None [] None).

(** The first relationship of a result, for examples. *)
Definition firstRelationship (result : Result.t) : Relationship.t :=
  hd (sampleEdge "" "" 0) (Result.relationships result).

(** ** The inputs on which the model is the code *)

(** The members of [Object.prototype], which every plain object of the
    service inherits: [table[key]] finds them although the table has no
    such key, and an assignment to [__proto__] adds no key. *)
Definition objectPrototypeMembers : list string :=
  [ "constructor"; "__defineGetter__"; "__defineSetter__"; "hasOwnProperty";
    "__lookupGetter__"; "__lookupSetter__"; "isPrototypeOf";
    "propertyIsEnumerable"; "toString"; "valueOf"; "__proto__";
    "toLocaleString" ].

(** Those that a cleaned word, which has no upper-case letter, can be. *)
Definition inheritedKeys : list string := [ "constructor"; "__proto__" ].

Definition isAscii (c : ascii) : bool := nat_of_ascii c <? 128.

(** The words for which the association list of [countWord] is the
    frequency table of the code: ASCII words, on which [cleanWord],
    [toLowerCase] and the character classes are those of JavaScript, and
    whose cleaned form is no inherited key. *)
Definition plainWords (words : list string) : bool :=
  List.forallb
    (fun word => JSString.forallb isAscii word
                 && negb (JSArray.has inheritedKeys (cleanWord word)))
    words.

(** The texts on which the model of the extraction is the code. *)
Definition plainText (text : string) : bool :=
  JSString.forallb isAscii text
  && plainWords (JSString.split JSString.isSpace text).

(** The styles for which [styles[style] || styles.educational] is one of
    the three styles of the service.  For a member of [Object.prototype]
    the code reads [colorPalette] of a value that has none and stage 5
    throws at its first concept. *)
Definition knownStyle (style : string) : bool :=
  negb (JSArray.has objectPrototypeMembers style).

(** ** Notions for the further properties *)

(** The number of words of a text that the frequency table holds for a
    token. *)
Definition occurrences (text w : string) : nat :=
  frequencyOf (wordFrequencyOf (JSString.split JSString.isSpace text)) w.

(** The concepts of a given level, in the order of the list. *)
Definition conceptsAtLevel (level : nat) (concepts : list Concept.t)
  : list Concept.t :=
  List.filter (fun c => Concept.level c =? level) concepts.

(** The names and indicators that [classifyRelationshipTypes] can give to a
    relationship of a given strength: the entries 0 to 2, 4 to 6 or 5 of
    [relationTypes]. *)
Definition typesFor (strength : Q) : list (string * string) :=
  if Qle_bool 4 strength then
    [ ("es parte de", "pertenencia"); ("causa", "causalidad");
      ("es un tipo de", "clasificación") ]
  else if Qle_bool 2 strength then
    [ ("influye en", "influencia"); ("se relaciona con", "asociación");
      ("precede a", "secuencia") ]
  else [ ("se relaciona con", "asociación") ].

(** [sub] is [l] without some of its elements, the others in their order. *)
Inductive Subsequence {A : Type} : list A -> list A -> Prop :=
| Subsequence_nil : Subsequence [] []
| Subsequence_skip (x : A) (sub l : list A) :
    Subsequence sub l -> Subsequence sub (x :: l)
| Subsequence_keep (x : A) (sub l : list A) :
    Subsequence sub l -> Subsequence (x :: sub) (x :: l).

(** [concept.name.toLowerCase()], the name that [removeRedundantConcepts]
    compares. *)
Definition normalizedName (concept : Concept.t) : string :=
  JSString.toLowerCase (Concept.name concept).

(** The two tests of the loop of [removeRedundantConcepts] on one name seen
    before: it is the name of the candidate, or the candidate has more than
    four characters and the seen name starts with its first four. *)
Definition resembles (seen candidate : string) : bool :=
  String.eqb candidate seen
  || ((4 <? String.length candidate)
      && (JSString.startsWith seen (substring 0 4 candidate)
          && negb (String.eqb seen candidate))).

(** The loop of [removeRedundantConcepts] as a recursive function of the
    names seen so far. *)
Fixpoint keptFrom (seenNames : list string) (concepts : list Concept.t)
  : list Concept.t :=
  match concepts with
  | [] => []
  | concept :: rest =>
      if existsb (fun name => resembles name (normalizedName concept)) seenNames
      then keptFrom seenNames rest
      else concept :: keptFrom (seenNames ++ [normalizedName concept]) rest
  end.

(** The emoji that [assignRelevantEmojis] stores for one concept. *)
Definition emojiFor (concept : Concept.t) : string :=
  if Concept.isCritical concept then criticalEmoji
  else nth (Concept.level concept) levelEmojis "💡".

(** A concept without what enrichment and formatting add to it. *)
Definition bare (c : Concept.t) : Concept.t :=
  Concept.mk (Concept.id c) (Concept.name c) (Concept.originalForm c)
             (Concept.importance c) (Concept.frequency c) (Concept.level c)
             (Concept.firstOccurrence c) (Concept.isCritical c)
             None None None None None.

(** The six relationship types that the classification can assign. *)
Definition assignedTypes : list string :=
  [ "es parte de"; "causa"; "es un tipo de";
    "influye en"; "se relaciona con"; "precede a" ].

(** The invariant of the pipeline: the concepts are extracted concepts in
    their order, no two relationships lie on the same ordered pair, and
    every relationship satisfies [Q]. *)
Definition wellFormed (Q : Relationship.t -> Prop) (text : string)
  (r : Result.t) : Prop :=
  Subsequence (List.map bare (Result.concepts r)) (extractMainConcepts text)
  /\ NoDup (List.map endpoints (Result.relationships r))
  /\ Forall Q (Result.relationships r).

(** ** The hierarchy tree of stage 1 *)

Set Warnings "-register-all".

(** A node of the tree: [{ id, name, importance, level, children }]. *)
Inductive TreeNode : Type :=
| Node (id name : string) (importance : Q) (level : nat)
       (children : list TreeNode).

Definition nodeId (t : TreeNode) : string :=
  match t with Node id _ _ _ _ => id end.

Definition nodeLevel (t : TreeNode) : nat :=
  match t with Node _ _ _ level _ => level end.

Definition nodeChildren (t : TreeNode) : list TreeNode :=
  match t with Node _ _ _ _ children => children end.

Module Hierarchy.
Record t : Type := mk {
  nodes : list Concept.t;
  root : list TreeNode
}.
End Hierarchy.

(** The filter of [buildConceptChildren]: exactly one level below the
    parent, and first met later in the text. *)
Definition isChildOf (parent concept : Concept.t) : bool :=
  (Concept.level concept =? Concept.level parent + 1)
  && (Concept.firstOccurrence parent <? Concept.firstOccurrence concept)%Z.

(** [buildConceptChildren] with a bound on the nested calls: below the
    bound the function is the one of the source; at the bound the nested
    call is replaced by the empty list. *)
Fixpoint buildChildren (depth : nat) (parent : Concept.t)
  (allConcepts : list Concept.t) : list TreeNode :=
  let children := List.filter (isChildOf parent) allConcepts in
  let limitedChildren := JSArray.slice0 4 children in
  List.map
    (fun child =>
       Node (Concept.id child)
            (JSString.orElse (Concept.originalForm child) (Concept.name child))
            (Concept.importance child) (Concept.level child)
            (if Concept.level child <? 2
             then match depth with
                  | S depth' => buildChildren depth' child allConcepts
                  | 0 => []
                  end
             else []))
    limitedChildren.

(** A nested call is made for a child of level below 2 only, whose own
    children have level 2: two nested calls are never reached. *)
Definition buildConceptChildren (parent : Concept.t)
  (allConcepts : list Concept.t) : list TreeNode :=
  buildChildren 2 parent allConcepts.

Definition createHierarchicalStructure (concepts : list Concept.t)
  : Hierarchy.t :=
  let levels := fold_left pushLevel concepts [] in
  let rootConcepts := atLevel levels 0 in
  Hierarchy.mk concepts
    (List.map
       (fun root =>
          Node (Concept.id root)
               (JSString.orElse (Concept.originalForm root) (Concept.name root))
               (Concept.importance root) (Concept.level root)
               (buildConceptChildren root concepts))
       rootConcepts).

(** The shape of a tree: at most four children under every node, each one
    level below its parent. *)
Fixpoint shaped (t : TreeNode) : Prop :=
  match t with
  | Node _ _ _ level children =>
      length children <= 4
      /\ (fix all (l : list TreeNode) : Prop :=
            match l with
            | [] => True
            | child :: l' =>
                (nodeLevel child = level + 1 /\ shaped child) /\ all l'
            end) children
  end.

(** The number of levels of a tree. *)
Fixpoint height (t : TreeNode) : nat :=
  match t with
  | Node _ _ _ _ children =>
      S ((fix highest (l : list TreeNode) : nat :=
            match l with
            | [] => 0
            | child :: l' => Nat.max (height child) (highest l')
            end) children)
  end.

(** The ids of the nodes of a tree, parents first. *)
Fixpoint nodeIds (t : TreeNode) : list string :=
  match t with
  | Node id _ _ _ children =>
      id :: (fix ids (l : list TreeNode) : list string :=
               match l with
               | [] => []
               | child :: l' => nodeIds child ++ ids l'
               end) children
  end.

(** Sample data: a text of three sentences that each name the same four
    words, and a configuration with a negative bound. *)
Definition fourWords : string :=
  "alpha beta gamma delta. alpha beta gamma delta. alpha beta gamma delta.".

Definition negativeConfig : Config.t :=
  Config.mk (-1) "educational" (Stages.mk true true true true true true)
            true true.

(** ** The Mermaid emitter of [fixed-conceptMapService.js] *)

(** The second service of the repository, which no controller loads,
    writes the result as the source of a Mermaid flowchart: a node
    declaration per concept, decorative nodes for its definition,
    attributes, examples and origin, a cloud per context note and a
    labelled edge per relationship.  Its emitter reads only the fields
    below; a field that an object does not have is [None]. *)

Module Fixed.

Module Attribute.
Record t : Type := mk {
  name : string;
  subAttributes : option (list string)
}.
End Attribute.

Module Concept.
Record t : Type := mk {
  id : string;
  name : string;
  icon : option string;
  definition : option string;
  attributes : option (list Attribute.t);
  examples : option (list string);
  origin : option string;
  isMainConcept : bool;
  importance : option Q
}.
End Concept.

Module ContextNote.
Record t : Type := mk {
  content : string;
  relatedConceptId : string
}.
End ContextNote.

Module Relationship.
Record t : Type := mk {
  source : string;
  target : string;
  label : option string
}.
End Relationship.

Module Result.
Record t : Type := mk {
  concepts : list Concept.t;
  contextNotes : option (list ContextNote.t);
  relationships : list Relationship.t;
  summary : option string            (* [result.metadata.summary] *)
}.
End Result.

(** The double quote of the templates. *)
Definition dq : string := String (ascii_of_nat 34) EmptyString.

(** A template that ends with a line feed. *)
Definition line (s : string) : string := (s ++ nl)%string.

(** [    ${id}["${label}"]] *)
Definition declaration (id label : string) : string :=
  ("    " ++ id ++ "[" ++ dq ++ label ++ dq ++ "]")%string.

(** [    class ${id} ${className};] *)
Definition classStatement (id className : string) : string :=
  ("    class " ++ id ++ " " ++ className ++ ";")%string.

(** [    ${source} --> ${target}] *)
Definition arrow (source target : string) : string :=
  ("    " ++ source ++ " --> " ++ target)%string.

(** [    ${rel.source} --> |"${rel.label || ''}"|${rel.target}] *)
Definition labelledArrow (rel : Relationship.t) : string :=
  ("    " ++ Relationship.source rel ++ " --> |" ++ dq
   ++ match Relationship.label rel with
      | Some label => label
      | None => ""
      end
   ++ dq ++ "|" ++ Relationship.target rel)%string.

(** [importance || 0] *)
Definition orZero (importance : option Q) : Q :=
  match importance with
  | Some importance => importance
  | None => 0%Q
  end.

(** The comparison [(b.importance || 0) - (a.importance || 0)] is not
    positive. *)
Definition byImportance (a b : Concept.t) : bool :=
  Qle_bool (orZero (Concept.importance b)) (orZero (Concept.importance a)).

(** [{ id: 'main', name: 'Concepto Principal' }] *)
Definition fallbackConcept : Concept.t :=
  Concept.mk "main" "Concepto Principal" None None None None None false None.

(** [identifyMainConcept] returns the concept that is marked as main or,
    after it has sorted [result.concepts] in place by importance, the first
    concept or the fallback object.  The result is returned as the emitter
    sees it afterwards. *)
Definition identifyMainConcept (result : Result.t) : Concept.t * Result.t :=
  match JSArray.find Concept.isMainConcept (Result.concepts result) with
  | Some explicitMain => (explicitMain, result)
  | None =>
      let sorted := JSArray.sort byImportance (Result.concepts result) in
      (hd fallbackConcept sorted,
       Result.mk sorted (Result.contextNotes result)
                 (Result.relationships result) (Result.summary result))
  end.

(** The node of a concept: the main concept carries its icon and the class
    [mainConcept]. *)
Definition conceptNode (mainConcept concept : Concept.t) : string :=
  if String.eqb (Concept.id concept) (Concept.id mainConcept) then
    let iconPrefix :=
      match Concept.icon concept with
      | Some ((String _ _) as icon) => (icon ++ " ")%string
      | _ => ""
      end in
    (line (declaration (Concept.id concept)
                       (iconPrefix ++ Concept.name concept))
     ++ line (classStatement (Concept.id concept) "mainConcept"))%string
  else line (declaration (Concept.id concept) (Concept.name concept)).

(** [if (concept.definition) { ... }] *)
Definition definitionNode (concept : Concept.t) : string :=
  match Concept.definition concept with
  | Some ((String _ _) as definition) =>
      let defId := (Concept.id concept ++ "_def")%string in
      (line (declaration defId definition)
       ++ line (arrow (Concept.id concept) defId))%string
  | _ => ""
  end.

(** The callback of [attr.subAttributes.forEach]. *)
Definition subAttributeNode (concept : Concept.t) (attrId : string)
  (index subIndex : nat) (subAttr : string) : string :=
  let subAttrId :=
    (Concept.id concept ++ "_attr_" ++ JSString.ofNat index
     ++ "_sub_" ++ JSString.ofNat subIndex)%string in
  (line (declaration subAttrId subAttr)
   ++ line (classStatement subAttrId "attributeNode")
   ++ line (arrow attrId subAttrId))%string.

(** The callback of [concept.attributes.forEach]. *)
Definition attributeNode (concept : Concept.t) (index : nat)
  (attr : Attribute.t) : string :=
  let attrId :=
    (Concept.id concept ++ "_attr_" ++ JSString.ofNat index)%string in
  (line (declaration attrId (Attribute.name attr))
   ++ line (classStatement attrId "attributeNode")
   ++ line (arrow (Concept.id concept) attrId)
   ++ match Attribute.subAttributes attr with
      | Some ((_ :: _) as subAttributes) =>
          concatAll (mapi (subAttributeNode concept attrId index)
                          subAttributes)
      | _ => ""
      end)%string.

(** [if (concept.attributes && concept.attributes.length > 0) { ... }] *)
Definition attributeNodes (concept : Concept.t) : string :=
  match Concept.attributes concept with
  | Some ((_ :: _) as attributes) =>
      concatAll (mapi (attributeNode concept) attributes)
  | _ => ""
  end.

(** [if (concept.examples && concept.examples.length > 0) { ... }]: one
    node whose label lists the examples, one per line. *)
Definition examplesNode (concept : Concept.t) : string :=
  match Concept.examples concept with
  | Some ((_ :: _) as examples) =>
      let exampleId := (Concept.id concept ++ "_examples")%string in
      let exampleContent :=
        fold_left (fun content example =>
                     (content ++ "• " ++ example ++ nl)%string)
                  examples ("Ejemplos de uso:" ++ nl)%string in
      (line (declaration exampleId exampleContent)
       ++ line (classStatement exampleId "exampleNode")
       ++ line (arrow (Concept.id concept) exampleId))%string
  | _ => ""
  end.

(** [if (concept.origin) { ... }] *)
Definition originNode (concept : Concept.t) : string :=
  match Concept.origin concept with
  | Some ((String _ _) as origin) =>
      let originId := (Concept.id concept ++ "_origin")%string in
      let originContent :=
        ("Origen y matiz:" ++ nl ++ "• " ++ origin ++ nl)%string in
      (line (declaration originId originContent)
       ++ line (classStatement originId "originNode")
       ++ line (arrow (Concept.id concept) originId))%string
  | _ => ""
  end.

(** The callback of [result.concepts.forEach]. *)
Definition conceptNodes (mainConcept concept : Concept.t) : string :=
  (conceptNode mainConcept concept ++ definitionNode concept
   ++ attributeNodes concept ++ examplesNode concept
   ++ originNode concept)%string.

(** The callback of [result.contextNotes.forEach]. *)
Definition contextNode (index : nat) (note : ContextNote.t) : string :=
  let noteId := ("context_" ++ JSString.ofNat index)%string in
  (line (declaration noteId (ContextNote.content note))
   ++ line (classStatement noteId "cloudNode")
   ++ line (arrow (ContextNote.relatedConceptId note) noteId))%string.

Definition contextNodes (result : Result.t) : string :=
  match Result.contextNotes result with
  | Some ((_ :: _) as contextNotes) => concatAll (mapi contextNode contextNotes)
  | _ => ""
  end.

(** The class definitions that open the flowchart; the last one is
    followed by an empty line. *)
Definition classDefinitions : string :=
  (line "    %% Definición de clases para estilizar nodos"
   ++ line "    classDef mainConcept fill:#ffffff,stroke:#555,stroke-width:2.5px;"
   ++ line "    classDef attributeNode fill:#FFF9C4,stroke:#FBC02D;"
   ++ line "    classDef exampleNode fill:#ffffff,stroke:#2E7D32;"
   ++ line "    classDef originNode fill:#ffffff,stroke:#6D4C41;"
   ++ line "    classDef cloudNode fill:#ffffff,stroke:#795548,rx:25,ry:25;"
   ++ nl)%string.

(** The flowchart between its fences. *)
Definition mermaidContent (mainConcept : Concept.t) (result : Result.t)
  : string :=
  let mermaidContent := (line "```mermaid" ++ line "flowchart TD")%string in
  let mermaidContent := (mermaidContent ++ classDefinitions)%string in
  let mermaidContent :=
    fold_left (fun content concept =>
                 (content ++ conceptNodes mainConcept concept)%string)
              (Result.concepts result) mermaidContent in
  let mermaidContent := (mermaidContent ++ contextNodes result)%string in
  let mermaidContent :=
    fold_left (fun content rel => (content ++ line (labelledArrow rel))%string)
              (Result.relationships result) mermaidContent in
  (mermaidContent ++ "```")%string.

(** The heading and the optional summary that precede the flowchart. *)
Definition markdownHeader (mainConcept : Concept.t) (result : Result.t)
  : string :=
  let markdownContent :=
    (line ("# Mapa Conceptual: " ++ Concept.name mainConcept) ++ nl)%string in
  match Result.summary result with
  | Some ((String _ _) as summary) =>
      (markdownContent ++ line "## Resumen" ++ summary ++ nl ++ nl)%string
  | _ => markdownContent
  end.

Definition generateEducationalConceptMap (result : Result.t)
  (config : Config.t) : string :=
  let (mainConcept, result) := identifyMainConcept result in
  (markdownHeader mainConcept result ++ mermaidContent mainConcept result)%string.

End Fixed.

(** A concept, a relationship and a result of the pipeline of
    [conceptMapService.js] as the Mermaid emitter reads them: the pipeline
    sets no [icon], [attributes], [origin] or [isMainConcept] on a concept,
    no [label] on a relationship and no [contextNotes] on the result.  The
    summary, which the pipeline writes with [generateConceptualSummary], is
    given apart. *)
Definition asFixedConcept (c : Concept.t) : Fixed.Concept.t :=
  Fixed.Concept.mk (Concept.id c) (Concept.name c) None (Concept.definition c)
                   None (Concept.examples c) None false
                   (Some (Concept.importance c)).

Definition asFixedRelationship (r : Relationship.t) : Fixed.Relationship.t :=
  Fixed.Relationship.mk (Relationship.source r) (Relationship.target r) None.

Definition asFixedResult (result : Result.t) (summary : option string)
  : Fixed.Result.t :=
  Fixed.Result.mk (List.map asFixedConcept (Result.concepts result)) None
                  (List.map asFixedRelationship (Result.relationships result))
                  summary.

(** ** Reading a flowchart back *)

(** The reader counts lines.  A line declares a concept when, after the
    indentation of four spaces, an identifier of letters, digits and
    hyphens is followed at once by [["]; the decorative nodes, whose
    identifiers all hold an underscore ([_def], [_attr_], [_examples],
    [_origin], [context_]), are thereby left out of the count.  A line is a
    labelled edge when the identifier is followed by [ --> |"]. *)

Module Diagram.

Definition isIdChar (c : ascii) : bool :=
  JSString.isUpper c || JSString.isLower c || JSString.isDigit c
  || (nat_of_ascii c =? 45).

(** What follows the prefix [p] in [s], when [s] starts with [p]. *)
Fixpoint afterPrefix (p s : string) : option string :=
  match p with
  | EmptyString => Some s
  | String a p' =>
      match s with
      | EmptyString => None
      | String b s' => if Ascii.eqb a b then afterPrefix p' s' else None
      end
  end.

(** The longest identifier at the start of [s], and the rest. *)
Fixpoint spanId (s : string) : string * string :=
  match s with
  | EmptyString => (EmptyString, EmptyString)
  | String c s' =>
      if isIdChar c
      then let (id, rest) := spanId s' in (String c id, rest)
      else (EmptyString, s)
  end.

(** [s.split('\n')] *)
Fixpoint lines (s : string) : list string :=
  match s with
  | EmptyString => [EmptyString]
  | String c s' =>
      if (nat_of_ascii c =? 10) then EmptyString :: lines s'
      else match lines s' with
           | l :: ls => String c l :: ls
           | [] => [String c EmptyString]
           end
  end.

(** The line is [    id] followed by [opening], for a non-empty
    identifier. *)
Definition opens (opening line : string) : bool :=
  match afterPrefix "    " line with
  | Some rest =>
      let (id, tail) := spanId rest in
      negb (String.eqb id "")
      && match afterPrefix opening tail with
         | Some _ => true
         | None => false
         end
  | None => false
  end.

Definition declaresConcept (line : string) : bool :=
  opens ("[" ++ Fixed.dq) line.

Definition isLabelledEdge (line : string) : bool :=
  opens (" --> |" ++ Fixed.dq) line.

Definition countLines (p : string -> bool) (content : string) : nat :=
  length (List.filter p (lines content)).

Definition nodeCount (content : string) : nat :=
  countLines declaresConcept content.

Definition edgeCount (content : string) : nat :=
  countLines isLabelledEdge content.

End Diagram.

(** ** The results that the Mermaid emitter writes line by line *)

Definition noLineFeed (s : string) : bool :=
  JSString.forallb (fun c => negb (nat_of_ascii c =? 10)) s.

(** A non-empty identifier of letters, digits and hyphens. *)
Definition isIdentifier (s : string) : bool :=
  negb (String.eqb s "") && JSString.forallb Diagram.isIdChar s.

Definition optionb {A : Type} (p : A -> bool) (o : option A) : bool :=
  match o with
  | Some x => p x
  | None => true
  end.

Definition printableAttribute (attr : Fixed.Attribute.t) : bool :=
  noLineFeed (Fixed.Attribute.name attr)
  && optionb (List.forallb noLineFeed) (Fixed.Attribute.subAttributes attr).

(** The id of the concept is an identifier and no text of the concept
    holds a line feed. *)
Definition printableConcept (c : Fixed.Concept.t) : bool :=
  isIdentifier (Fixed.Concept.id c)
  && noLineFeed (Fixed.Concept.name c)
  && optionb noLineFeed (Fixed.Concept.icon c)
  && optionb noLineFeed (Fixed.Concept.definition c)
  && optionb (List.forallb printableAttribute) (Fixed.Concept.attributes c)
  && optionb (List.forallb noLineFeed) (Fixed.Concept.examples c)
  && optionb noLineFeed (Fixed.Concept.origin c).

Definition printableNote (note : Fixed.ContextNote.t) : bool :=
  noLineFeed (Fixed.ContextNote.content note)
  && JSString.forallb Diagram.isIdChar (Fixed.ContextNote.relatedConceptId note).

Definition printableRelationship (rel : Fixed.Relationship.t) : bool :=
  isIdentifier (Fixed.Relationship.source rel)
  && noLineFeed (Fixed.Relationship.target rel)
  && optionb noLineFeed (Fixed.Relationship.label rel).

(** The line does not start with four spaces. *)
Definition unindented (line : string) : bool :=
  match Diagram.afterPrefix "    " line with
  | Some _ => false
  | None => true
  end.

(** No line of the summary is indented by four spaces. *)
Definition plainSummary (summary : option string) : bool :=
  optionb (fun s => List.forallb unindented (Diagram.lines s)) summary.

Definition printable (result : Fixed.Result.t) : bool :=
  List.forallb printableConcept (Fixed.Result.concepts result)
  && optionb (List.forallb printableNote) (Fixed.Result.contextNotes result)
  && List.forallb printableRelationship (Fixed.Result.relationships result)
  && plainSummary (Fixed.Result.summary result).

(** [chunk] adds [nodes] concept declarations and [edges] labelled edges to
    what follows it: it ends where a line ends. *)
Definition Writes (chunk : string) (nodes edges : nat) : Prop :=
  forall rest : string,
    Diagram.nodeCount (chunk ++ rest) = nodes + Diagram.nodeCount rest
    /\ Diagram.edgeCount (chunk ++ rest) = edges + Diagram.edgeCount rest.

(** What the two emitters need of a concept of the pipeline: its id is an
    identifier, none of its texts holds a line feed and its definition does
    not start with four spaces. *)
Definition conceptOk (c : Concept.t) : Prop :=
  isIdentifier (Concept.id c) = true
  /\ noLineFeed (Concept.name c) = true
  /\ noLineFeed (Concept.originalForm c) = true
  /\ optionb noLineFeed (Concept.definition c) = true
  /\ optionb unindented (Concept.definition c) = true
  /\ optionb (List.forallb noLineFeed) (Concept.examples c) = true
  /\ optionb (List.forallb noLineFeed) (Concept.relatedTerms c) = true.

(** A result with every kind of decoration: an icon, a definition, an
    attribute with sub-attributes, examples, an origin and a context
    note. *)
Definition decoratedResult : Fixed.Result.t :=
  Fixed.Result.mk
    [ Fixed.Concept.mk "c-1" "Agua" (Some "💧") (Some "Liquido vital")
        (Some [Fixed.Attribute.mk "estado" (Some ["liquido"; "solido"])])
        (Some ["rio"; "mar"]) (Some "latin aqua") false (Some 2%Q);
      Fixed.Concept.mk "c-2" "Nube" None None None None None false (Some 5%Q) ]
    (Some [Fixed.ContextNote.mk "nota" "c-1"])
    [ Fixed.Relationship.mk "c-1" "c-2" (Some "forma") ]
    (Some "Resumen breve").

(* ================================================================= *)
(** * Properties *)

(** ** Lists, sets and sorting *)

Lemma has_In (s : list string) (x : string) :
  JSArray.has s x = true <-> In x s.
Proof.
  unfold JSArray.has. rewrite existsb_exists. split.
  - intros (y & Hy & E). apply String.eqb_eq in E. now subst.
  - intros H. exists x. split; [assumption | apply String.eqb_refl].
Qed.

Lemma toSet_In (l acc : list string) (x : string) :
  In x (JSArray.toSet l acc) <-> In x acc \/ In x l.
Proof.
  revert acc. induction l as [|y l IH]; intros acc; simpl.
  - tauto.
  - destruct (existsb (String.eqb y) acc) eqn:E.
    + rewrite IH. apply (has_In acc y) in E.
      split; [tauto | intros [H | [H | H]]; subst; tauto].
    + rewrite IH, in_app_iff. simpl. tauto.
Qed.

Lemma conceptIdsOf_In (concepts : list Concept.t) (x : string) :
  JSArray.has (conceptIdsOf concepts) x = true
  <-> In x (List.map Concept.id concepts).
Proof.
  rewrite has_In. unfold conceptIdsOf. rewrite toSet_In. simpl. tauto.
Qed.

Section SortFacts.
Context {A : Type}.
Variable le : A -> A -> bool.

Lemma insert_perm (x : A) (l : list A) :
  Permutation (JSArray.insert le x l) (x :: l).
Proof.
  induction l as [|y l IH]; simpl.
  - reflexivity.
  - destruct (le x y).
    + reflexivity.
    + rewrite IH. apply perm_swap.
Qed.

Lemma sort_perm (l : list A) : Permutation (JSArray.sort le l) l.
Proof.
  induction l as [|x l IH]; simpl.
  - reflexivity.
  - rewrite insert_perm. now constructor.
Qed.

Lemma sort_length (l : list A) : length (JSArray.sort le l) = length l.
Proof. apply Permutation_length, sort_perm. Qed.

Hypothesis le_total : forall x y, le x y = false -> le y x = true.
Hypothesis le_trans : forall x y z, le x y = true -> le y z = true -> le x z = true.

Lemma insert_sorted (x : A) (l : list A) :
  StronglySorted (fun a b => le a b = true) l ->
  StronglySorted (fun a b => le a b = true) (JSArray.insert le x l).
Proof.
  induction 1 as [|y l Hs IH Hy]; simpl.
  - constructor; constructor.
  - destruct (le x y) eqn:E.
    + constructor.
      * now constructor.
      * constructor; [assumption|].
        rewrite Forall_forall in *. intros z Hz. eauto.
    + constructor; [assumption|].
      rewrite Forall_forall in *. intros z Hz.
      apply (Permutation_in _ (insert_perm x l)) in Hz.
      destruct Hz as [<- | Hz]; auto.
Qed.

Lemma sort_sorted (l : list A) :
  StronglySorted (fun a b => le a b = true) (JSArray.sort le l).
Proof.
  induction l as [|x l IH]; simpl.
  - constructor.
  - now apply insert_sorted.
Qed.
End SortFacts.



Lemma ofNat_inj (n m : nat) : JSString.ofNat n = JSString.ofNat m -> n = m.
Proof.
  unfold JSString.ofNat. intros H.
  apply Unsigned.to_uint_inj.
  assert (E : Some (Nat.to_uint n) = Some (Nat.to_uint m))
    by (rewrite <- !NilEmpty.usu; now f_equal).
  now injection E.
Qed.

(** ** Arithmetic of the coherence score *)

Section ScoreArithmetic.

Local Open Scope Q_scope.

Lemma ofNatQ_nonneg (n : nat) : 0 <= ofNatQ n.
Proof.
unfold ofNatQ, Qle. simpl. lia.
Qed.

Lemma ofNatQ_le (n m : nat) : (n <= m)%nat -> ofNatQ n <= ofNatQ m.
Proof.
intros H. unfold ofNatQ. rewrite <- Zle_Qle. lia.
Qed.

Lemma ofNatQ_pos (n : nat) : (0 < n)%nat -> 0 < ofNatQ n.
Proof.
intros H. unfold ofNatQ. change 0%Q with (inject_Z 0).
rewrite <- Zlt_Qlt. lia.
Qed.

Lemma isFinite_ofNat (n : nat) : isFinite (JSNum.ofNat n) (ofNatQ n).
Proof. simpl. reflexivity. Qed.

Lemma isNeg_nonneg (q : Q) : 0 <= q -> JSNum.isNeg (JSNum.Fin q) = false.
Proof.
intros H. simpl. apply Qle_bool_iff in H. now rewrite H.
Qed.

Lemma isFinite_mul (x y : JSNum.num) (a b : Q) :
isFinite x a -> isFinite y b -> 0 <= a -> 0 <= b ->
isFinite (JSNum.mul x y) (a * b).
Proof.
destruct x as [p| | | |], y as [q| | | |]; simpl; try contradiction.
intros Hp Hq Ha Hb. unfold JSNum.mul. simpl.
assert (Np : Qle_bool 0 p = true) by (apply Qle_bool_iff; now rewrite Hp).
assert (Nq : Qle_bool 0 q = true) by (apply Qle_bool_iff; now rewrite Hq).
rewrite Np, Nq. simpl.
destruct (Qeq_bool p 0) eqn:Zp; simpl.
- apply Qeq_bool_iff in Zp. rewrite <- Hp, Zp. ring.
- destruct (Qeq_bool q 0) eqn:Zq; simpl.
  + apply Qeq_bool_iff in Zq. rewrite <- Hq, Zq. ring.
  + now rewrite Hp, Hq.
Qed.

Lemma isFinite_div (x y : JSNum.num) (a b : Q) :
isFinite x a -> isFinite y b -> 0 <= a -> 0 < b ->
isFinite (JSNum.div x y) (a / b).
Proof.
destruct x as [p| | | |], y as [q| | | |]; simpl; try contradiction.
intros Hp Hq Ha Hb. unfold JSNum.div. simpl.
assert (Np : Qle_bool 0 p = true) by (apply Qle_bool_iff; now rewrite Hp).
assert (Nq : Qle_bool 0 q = true)
  by (apply Qle_bool_iff; rewrite Hq; now apply Qlt_le_weak).
rewrite Np, Nq. simpl.
destruct (Qeq_bool q 0) eqn:Zq; simpl.
- apply Qeq_bool_iff in Zq. rewrite Hq in Zq. rewrite Zq in Hb.
  now apply Qlt_irrefl in Hb.
- destruct (Qeq_bool p 0) eqn:Zp; simpl.
  + apply Qeq_bool_iff in Zp. rewrite <- Hp, Zp. unfold Qdiv. ring.
  + now rewrite Hp, Hq.
Qed.

Lemma isFinite_add (x y : JSNum.num) (a b : Q) :
isFinite x a -> isFinite y b -> isFinite (JSNum.add x y) (a + b).
Proof.
destruct x as [p| | | |], y as [q| | | |]; simpl; try contradiction.
intros Hp Hq. now rewrite Hp, Hq.
Qed.

Lemma isFinite_sub (x y : JSNum.num) (a b : Q) :
isFinite x a -> isFinite y b -> isFinite (JSNum.sub x y) (a - b).
Proof.
destruct x as [p| | | |], y as [q| | | |]; simpl; try contradiction.
intros Hp Hq. unfold JSNum.sub, JSNum.neg.
destruct (Qeq_bool q 0) eqn:Zq; simpl.
- apply Qeq_bool_iff in Zq. rewrite Hp, <- Hq, Zq. ring.
- rewrite Hp, Hq. reflexivity.
Qed.

Lemma pairs_positive (n : nat) :
(2 <= n)%nat -> 0 < ofNatQ n * (ofNatQ n - 1) / 2.
Proof.
intros H.
assert (H1 : 0 < ofNatQ n) by (apply ofNatQ_pos; lia).
assert (H2 : 2 <= ofNatQ n) by (apply (ofNatQ_le 2 n H)).
apply Qlt_shift_div_l; [reflexivity|].
rewrite Qmult_0_l. apply Qmult_lt_0_compat; [assumption | lra].
Qed.

Lemma isFinite_unique (x : JSNum.num) (a b : Q) :
isFinite x a -> isFinite x b -> a == b.
Proof.
destruct x; simpl; try contradiction.
intros Ha Hb. now rewrite <- Ha, <- Hb.
Qed.

Lemma Qdiv_nonneg (a b : Q) : 0 <= a -> 0 < b -> 0 <= a / b.
Proof.
intros Ha Hb. apply Qle_shift_div_l; [assumption|]. now rewrite Qmult_0_l.
Qed.

(** C3 (as amended).  For every concept graph with at least two concepts,
  the coherence score of the validator is the finite number
  0.4 * connectivity ratio + 0.3 * relationship density + 0.3 *
  significance ratio, where the connectivity ratio is the number of
  distinct ids touched by an edge over the number of concepts, the density
  is the number of edges over n(n-1)/2 and the significance ratio is the
  number of edges of strength above 3 over max(1, number of edges). *)
Theorem coherence_score_formula
(concepts : list Concept.t) (relationships : list Relationship.t) :
(2 <= length concepts)%nat ->
isFinite (calculateCoherenceScore concepts relationships)
         (connectivityRatio concepts relationships * 0.4
          + relationshipDensity concepts relationships * 0.3
          + significanceRatio relationships * 0.3).
Proof.
intros Hn.
assert (Hpos : 0 < ofNatQ (length concepts)) by (apply ofNatQ_pos; lia).
assert (Hmax : 0 < ofNatQ (Nat.max 1 (length relationships)))
  by (apply ofNatQ_pos; lia).
pose proof (pairs_positive _ Hn) as Hpairs.
assert (H2 : 2 <= ofNatQ (length concepts)) by (apply (ofNatQ_le 2 _ Hn)).
unfold calculateCoherenceScore, connectivityRatio, relationshipDensity,
  significanceRatio.
cbv zeta.
assert (Hden : isFinite
          (JSNum.div
             (JSNum.mul (JSNum.ofNat (length concepts))
                (JSNum.sub (JSNum.ofNat (length concepts)) (JSNum.Fin 1)))
             (JSNum.Fin 2))
          (ofNatQ (length concepts) * (ofNatQ (length concepts) - 1) / 2)).
{ apply isFinite_div.
  - apply isFinite_mul.
    + apply isFinite_ofNat.
    + apply isFinite_sub; [apply isFinite_ofNat | simpl; reflexivity].
    + apply ofNatQ_nonneg.
    + lra.
  - simpl. reflexivity.
  - apply Qmult_le_0_compat; [apply ofNatQ_nonneg | lra].
  - reflexivity. }
repeat apply isFinite_add.
- apply isFinite_mul.
  + apply isFinite_div; try apply isFinite_ofNat;
      [apply ofNatQ_nonneg | assumption].
  + simpl. reflexivity.
  + apply Qdiv_nonneg; [apply ofNatQ_nonneg | assumption].
  + discriminate.
- apply isFinite_mul.
  + apply isFinite_div; try apply isFinite_ofNat;
      [assumption | apply ofNatQ_nonneg | assumption].
  + simpl. reflexivity.
  + apply Qdiv_nonneg; [apply ofNatQ_nonneg | assumption].
  + discriminate.
- apply isFinite_mul.
  + apply isFinite_div; try apply isFinite_ofNat;
      [apply ofNatQ_nonneg | assumption].
  + simpl. reflexivity.
  + apply Qdiv_nonneg; [apply ofNatQ_nonneg | assumption].
  + discriminate.
Qed.

Lemma coherence_score_formula_witness :
(2 <= length twoConcepts)%nat
/\ isFinite (calculateCoherenceScore twoConcepts bothDirections)
            (connectivityRatio twoConcepts bothDirections * 0.4
             + relationshipDensity twoConcepts bothDirections * 0.3
             + significanceRatio bothDirections * 0.3).
Proof.
split.
- simpl. lia.
- apply (coherence_score_formula twoConcepts bothDirections). simpl. lia.
Defined.

(** C3 (as stated) fails.  For two concepts joined in both directions by
  strong relationships the connectivity ratio is 1 and the score is 1.3;
  0.5 * 1 + 0.3 * levelBalance + 0.2 * density does not reach that value
  for any level balance and density that are at most 1. *)
Lemma coherence_score_is_not_claimed_sum :
isFinite (calculateCoherenceScore twoConcepts bothDirections) 1.3
/\ connectivityRatio twoConcepts bothDirections == 1
/\ forall levelBalance density : Q,
     levelBalance <= 1 -> density <= 1 ->
     ~ isFinite (calculateCoherenceScore twoConcepts bothDirections)
                (Claimed.coherence
                   (connectivityRatio twoConcepts bothDirections)
                   levelBalance density).
Proof.
assert (H13 : isFinite (calculateCoherenceScore twoConcepts bothDirections) 1.3)
  by (vm_compute; reflexivity).
assert (Hc : connectivityRatio twoConcepts bothDirections == 1)
  by (vm_compute; reflexivity).
repeat split; try assumption.
intros lb ds Hlb Hds H.
pose proof (isFinite_unique _ _ _ H13 H) as E.
unfold Claimed.coherence in E. rewrite Hc in E. lra.
Qed.

(** C2.  The score leaves the interval [[0,1]]: two concepts joined in both
  directions by strong relationships score 1.3, a single concept without
  relationships scores NaN, and the pipeline reports 1.3 for a text of
  three sentences that each name the same two words. *)
Theorem coherence_score_exceeds_one :
isFinite (calculateCoherenceScore twoConcepts bothDirections) 1.3
/\ ~ JSNum.inUnitInterval (calculateCoherenceScore twoConcepts bothDirections)
/\ calculateCoherenceScore [sampleConcept 0 0 "alpha" 6 true] [] = JSNum.NaN
/\ exists score,
     Metadata.coherenceScore
       (Result.metadata
          (processText (fun _ => 1%nat) "alpha beta. alpha beta. alpha beta."
                       defaultConfig))
     = Some score
     /\ isFinite score 1.3
     /\ ~ JSNum.inUnitInterval score.
Proof.
split; [vm_compute; reflexivity|].
split; [vm_compute; intros [_ H]; now apply H|].
split; [vm_compute; reflexivity|].
eexists. split; [vm_compute; reflexivity|].
split; [vm_compute; reflexivity|].
vm_compute. intros [_ H]. now apply H.
Qed.

End ScoreArithmetic.

(** ** The relevance filter *)

Lemma negb_Qle_bool (a b : Q) : negb (Qle_bool a b) = true <-> (b < a)%Q.
Proof.
  rewrite negb_true_iff. split.
  - intros H. apply Qnot_le_lt. intros L. apply Qle_bool_iff in L. congruence.
  - intros H. destruct (Qle_bool a b) eqn:E; [|reflexivity].
    apply Qle_bool_iff in E. exfalso. now apply (Qlt_not_le _ _ H).
Qed.

(** C7 (as amended).  The validation filter keeps a concept exactly when its
    importance exceeds 1.5, or its frequency exceeds 1, or it is critical;
    neither the mean importance nor the level plays a part. *)
Theorem filterIrrelevantConcepts_keeps
  (concepts : list Concept.t) (c : Concept.t) :
  In c (filterIrrelevantConcepts concepts)
  <-> In c concepts
      /\ ((1.5 < Concept.importance c)%Q
          \/ 1 < Concept.frequency c
          \/ Concept.isCritical c = true).
Proof.
  unfold filterIrrelevantConcepts, isRelevant.
  rewrite filter_In, !orb_true_iff, negb_Qle_bool, Nat.ltb_lt. tauto.
Qed.

(** C7 (as stated) fails.  Among three concepts of importance 6, a weak
    concept of importance 1.6 and a non-critical concept of level 0 and
    importance 1, the code keeps the weak concept, whose importance is below
    0.4 times the mean 4.12, and drops the concept of level 0. *)
Lemma filter_is_not_the_claimed_one :
  List.map Concept.name (filterIrrelevantConcepts mixedConcepts)
  = ["alpha"; "beta"; "gamma"; "weak"]
  /\ List.map Concept.name (Claimed.filterIrrelevantConcepts mixedConcepts)
     = ["alpha"; "beta"; "gamma"; "root"]
  /\ filterIrrelevantConcepts mixedConcepts
     <> Claimed.filterIrrelevantConcepts mixedConcepts.
Proof.
  assert (H1 : List.map Concept.name (filterIrrelevantConcepts mixedConcepts)
               = ["alpha"; "beta"; "gamma"; "weak"]) by (vm_compute; reflexivity).
  assert (H2 : List.map Concept.name
                 (Claimed.filterIrrelevantConcepts mixedConcepts)
               = ["alpha"; "beta"; "gamma"; "root"]) by (vm_compute; reflexivity).
  repeat split; try assumption.
  intros E. rewrite E, H2 in H1. discriminate.
Qed.

(** ** Relationship detection *)

Lemma relate_row (sentences : list string) (s : Concept.t)
  (concepts : list Concept.t) :
  flat_map (relate sentences s) concepts
  = List.map (edgeOf sentences)
      (List.filter (related sentences) (List.map (pair s) concepts)).
Proof.
  induction concepts as [|t l IH]; simpl; [reflexivity|].
  unfold relate at 1, related at 1. simpl.
  destruct (String.eqb (Concept.id s) (Concept.id t)); simpl; [exact IH|].
  destruct (0 <? sharedSentencesOf sentences s t); simpl; [|exact IH].
  now rewrite IH.
Qed.

Lemma identify_as_filter (text : string) (concepts : list Concept.t) :
  identifyConceptRelationships text concepts
  = List.map (edgeOf (sentencesOf text))
      (List.filter (related (sentencesOf text)) (list_prod concepts concepts)).
Proof.
  unfold identifyConceptRelationships.
  generalize concepts at 2 3 as outer.
  induction outer as [|s l IH]; simpl; [reflexivity|].
  now rewrite filter_app, map_app, IH, relate_row.
Qed.

Lemma identify_In (text : string) (concepts : list Concept.t)
  (r : Relationship.t) :
  In r (identifyConceptRelationships text concepts)
  <-> exists s t,
        In s concepts /\ In t concepts
        /\ Concept.id s <> Concept.id t
        /\ 0 < sharedSentencesOf (sentencesOf text) s t
        /\ r = cooccurrence s t (sharedSentencesOf (sentencesOf text) s t).
Proof.
  rewrite identify_as_filter, in_map_iff. split.
  - intros ([s t] & <- & H). apply filter_In in H. destruct H as [H R].
    apply in_prod_iff in H. unfold related in R. simpl in R.
    apply andb_true_iff in R. destruct R as [R1 R2].
    apply negb_true_iff, String.eqb_neq in R1. apply Nat.ltb_lt in R2.
    exists s, t. unfold edgeOf. simpl. tauto.
  - intros (s & t & Hs & Ht & Hid & Hn & ->).
    exists (s, t). split; [reflexivity|].
    apply filter_In. split; [now apply in_prod_iff|].
    unfold related. simpl. apply andb_true_iff. split.
    + now apply negb_true_iff, String.eqb_neq.
    + now apply Nat.ltb_lt.
Qed.

Lemma filter_filter_length {A : Type} (p q : A -> bool) (l : list A) :
  length (List.filter q (List.filter p l))
  = length (List.filter p (List.filter q l)).
Proof.
  induction l as [|x l IH]; simpl; [reflexivity|].
  destruct (p x) eqn:P, (q x) eqn:Q'; simpl; rewrite ?P, ?Q'; simpl; lia.
Qed.

Lemma sharedSentencesOf_sym (sentences : list string) (s t : Concept.t) :
  sharedSentencesOf sentences s t = sharedSentencesOf sentences t s.
Proof. unfold sharedSentencesOf. apply filter_filter_length. Qed.

Lemma mirror_cooccurrence (s t : Concept.t) (n : nat) :
  mirror (cooccurrence s t n) = cooccurrence t s n.
Proof. reflexivity. Qed.

Lemma relate_length_sym (sentences : list string) (s t : Concept.t) :
  length (relate sentences s t) = length (relate sentences t s).
Proof.
  unfold relate. rewrite (String.eqb_sym (Concept.id t)).
  rewrite (sharedSentencesOf_sym sentences t s).
  destruct (String.eqb (Concept.id s) (Concept.id t)); [reflexivity|].
  now destruct (0 <? sharedSentencesOf sentences s t).
Qed.

Lemma relate_self (sentences : list string) (s : Concept.t) :
  relate sentences s s = [].
Proof. unfold relate. now rewrite String.eqb_refl. Qed.

Lemma flat_map_length_sum {A B : Type} (f g : A -> list B) (l : list A) :
  length (flat_map (fun x => f x ++ g x) l)
  = length (flat_map f l) + length (flat_map g l).
Proof.
  induction l as [|x l IH]; simpl; [reflexivity|].
  rewrite !length_app, IH. lia.
Qed.

Lemma column_length (sentences : list string) (c : Concept.t)
  (l : list Concept.t) :
  length (flat_map (fun s => relate sentences s c) l)
  = length (flat_map (relate sentences c) l).
Proof.
  induction l as [|x l IH]; simpl; [reflexivity|].
  now rewrite !length_app, IH, relate_length_sym.
Qed.

Lemma row_length (sentences : list string) (c : Concept.t)
  (l : list Concept.t) :
  length (flat_map (relate sentences c) l)
  = length (List.filter
              (fun t => negb (String.eqb (Concept.id c) (Concept.id t))
                        && (0 <? sharedSentencesOf sentences c t))
              l).
Proof.
  induction l as [|x l IH]; simpl; [reflexivity|].
  unfold relate at 1.
  destruct (String.eqb (Concept.id c) (Concept.id x)); simpl; [exact IH|].
  destruct (0 <? sharedSentencesOf sentences c x); simpl; now rewrite IH.
Qed.

Lemma identify_length (text : string) (concepts : list Concept.t) :
  length (identifyConceptRelationships text concepts)
  = 2 * length (sharingPairs (sentencesOf text) concepts).
Proof.
  unfold identifyConceptRelationships.
  induction concepts as [|c rest IH]; [reflexivity|].
  cbn [flat_map sharingPairs].
  rewrite relate_self, app_nil_l, !length_app, length_map.
  rewrite (flat_map_length_sum (fun s => relate (sentencesOf text) s c)
             (fun s => flat_map (relate (sentencesOf text) s) rest)).
  rewrite column_length, IH, row_length. lia.
Qed.

(** C10.  Detection emits a relationship from A to B exactly when it emits
    the mirror relationship from B to A; the two carry the same count of
    shared sentences and the same strength min(count + 1, 5), so the
    relationships are twice the unordered pairs of concepts that share a
    sentence. *)
Theorem cooccurrence_edges_are_symmetric
  (text : string) (concepts : list Concept.t) :
  let sentences := sentencesOf text in
  let rels := identifyConceptRelationships text concepts in
  (forall A B : Concept.t,
     In A concepts -> In B concepts -> Concept.id A <> Concept.id B ->
     sharedSentencesOf sentences A B = sharedSentencesOf sentences B A
     /\ (In (cooccurrence A B (sharedSentencesOf sentences A B)) rels
         <-> 0 < sharedSentencesOf sentences A B)
     /\ (In (cooccurrence A B (sharedSentencesOf sentences A B)) rels
         <-> In (cooccurrence B A (sharedSentencesOf sentences B A)) rels))
  /\ (forall r : Relationship.t,
        In r rels ->
        In (mirror r) rels
        /\ Relationship.sharedSentences (mirror r) = Relationship.sharedSentences r
        /\ Relationship.strength (mirror r) = Relationship.strength r
        /\ Relationship.strength r
           = ofNatQ (Nat.min (Relationship.sharedSentences r + 1) 5))
  /\ length rels = 2 * length (sharingPairs sentences concepts).
Proof.
  cbv zeta.
  assert (emitted : forall A B, In A concepts -> In B concepts ->
            Concept.id A <> Concept.id B ->
            (In (cooccurrence A B (sharedSentencesOf (sentencesOf text) A B))
                (identifyConceptRelationships text concepts)
             <-> 0 < sharedSentencesOf (sentencesOf text) A B)).
  { intros A B HA HB Hid. rewrite identify_In. split.
    - intros (s & t & _ & _ & _ & Hn & E).
      apply (f_equal Relationship.sharedSentences) in E. simpl in E.
      now rewrite E.
    - intros Hn. now exists A, B. }
  split; [|split].
  - intros A B HA HB Hid.
    split; [apply sharedSentencesOf_sym|].
    split; [now apply emitted|].
    rewrite (emitted A B), (emitted B A); auto.
    now rewrite (sharedSentencesOf_sym _ A B).
  - intros r Hr. apply identify_In in Hr.
    destruct Hr as (s & t & Hs & Ht & Hid & Hn & ->).
    rewrite mirror_cooccurrence. repeat split.
    apply identify_In. exists t, s.
    rewrite (sharedSentencesOf_sym _ t s). auto 6.
  - apply identify_length.
Qed.

Lemma cooccurrence_edges_are_symmetric_witness :
  let A := sampleConcept 0 0 "alpha" 6 true in
  let B := sampleConcept 1 0 "beta" 6 true in
  let rels := identifyConceptRelationships "alpha beta. gamma." twoConcepts in
  In (cooccurrence A B 1) rels /\ In (cooccurrence B A 1) rels
  /\ length rels = 2.
Proof.
  cbv zeta.
  pose proof (cooccurrence_edges_are_symmetric "alpha beta. gamma." twoConcepts)
    as T.
  cbv zeta in T. destruct T as (pairs & _ & doubled).
  assert (HA : In (sampleConcept 0 0 "alpha" 6 true) twoConcepts)
    by (left; reflexivity).
  assert (HB : In (sampleConcept 1 0 "beta" 6 true) twoConcepts)
    by (right; left; reflexivity).
  assert (Hid : Concept.id (sampleConcept 0 0 "alpha" 6 true)
                <> Concept.id (sampleConcept 1 0 "beta" 6 true))
    by discriminate.
  destruct (pairs _ _ HA HB Hid) as (sym & emitted & mirrored).
  assert (Hn : sharedSentencesOf (sentencesOf "alpha beta. gamma.")
                 (sampleConcept 0 0 "alpha" 6 true)
                 (sampleConcept 1 0 "beta" 6 true) = 1)
    by (vm_compute; reflexivity).
  rewrite <- sym in mirrored. rewrite Hn in emitted, mirrored.
  assert (H : In (cooccurrence (sampleConcept 0 0 "alpha" 6 true)
                    (sampleConcept 1 0 "beta" 6 true) 1)
                 (identifyConceptRelationships "alpha beta. gamma." twoConcepts))
    by (exact (proj2 emitted (Nat.lt_0_1))).
  split; [exact H|]. split; [exact (proj1 mirrored H)|].
  rewrite doubled. vm_compute. reflexivity.
Defined.

(** ** The relationship engine *)

Lemma row_endpoints_In (sentences : list string) (s : Concept.t)
  (l : list Concept.t) (e : string * string) :
  In e (List.map endpoints (flat_map (relate sentences s) l)) ->
  fst e = Concept.id s /\ In (snd e) (List.map Concept.id l).
Proof.
  induction l as [|t l IH]; simpl; [tauto|].
  rewrite map_app, in_app_iff. intros [H | H].
  - unfold relate in H.
    destruct (String.eqb (Concept.id s) (Concept.id t)); [contradiction|].
    destruct (0 <? sharedSentencesOf sentences s t); [|contradiction].
    destruct H as [<- | []]. simpl. tauto.
  - destruct (IH H). tauto.
Qed.

Lemma rows_endpoints_In (sentences : list string) (inner outer : list Concept.t)
  (e : string * string) :
  In e (List.map endpoints
          (flat_map (fun s => flat_map (relate sentences s) inner) outer)) ->
  In (fst e) (List.map Concept.id outer).
Proof.
  induction outer as [|s l IH]; simpl; [tauto|].
  rewrite map_app, in_app_iff. intros [H | H].
  - left. symmetry. now apply (row_endpoints_In _ _ _ _ H).
  - right. now apply IH.
Qed.

Lemma row_endpoints_NoDup (sentences : list string) (s : Concept.t)
  (l : list Concept.t) :
  NoDup (List.map Concept.id l) ->
  NoDup (List.map endpoints (flat_map (relate sentences s) l)).
Proof.
  induction l as [|t l IH]; simpl; intros Hnd; [constructor|].
  apply NoDup_cons_iff in Hnd. destruct Hnd as [Hnotin Hnd].
  rewrite map_app. apply NoDup_app; [| now apply IH |].
  - unfold relate.
    destruct (String.eqb (Concept.id s) (Concept.id t)); [constructor|].
    destruct (0 <? sharedSentencesOf sentences s t); simpl; repeat constructor.
    tauto.
  - intros e He Hrest. apply row_endpoints_In in Hrest.
    unfold relate in He.
    destruct (String.eqb (Concept.id s) (Concept.id t)); [contradiction|].
    destruct (0 <? sharedSentencesOf sentences s t); [|contradiction].
    destruct He as [<- | []]. simpl in Hrest. tauto.
Qed.

Lemma identify_endpoints_NoDup (text : string) (concepts : list Concept.t) :
  NoDup (List.map Concept.id concepts) ->
  NoDup (List.map endpoints (identifyConceptRelationships text concepts)).
Proof.
  intros Hnd. unfold identifyConceptRelationships.
  generalize Hnd. generalize concepts at 1 3 as outer.
  induction outer as [|s l IH]; simpl; intros Hout; [constructor|].
  apply NoDup_cons_iff in Hout. destruct Hout as [Hnotin Hout].
  rewrite map_app. apply NoDup_app.
  - now apply row_endpoints_NoDup.
  - now apply IH.
  - intros e He Hrest. apply row_endpoints_In in He.
    apply rows_endpoints_In in Hrest. destruct He as [E _].
    rewrite E in Hrest. contradiction.
Qed.

Lemma classifyOne_endpoints (rnd : nat -> nat) (rel : Relationship.t) (k : nat) :
  endpoints (fst (classifyOne rnd rel k)) = endpoints rel.
Proof.
  unfold classifyOne, Rand.bind.
  now destruct (chooseTypeIndex rnd (Relationship.strength rel) k).
Qed.

Lemma classify_endpoints (rnd : nat -> nat) (l : list Relationship.t) (k : nat) :
  List.map endpoints (fst (classifyRelationshipTypes rnd l k))
  = List.map endpoints l.
Proof.
  unfold classifyRelationshipTypes. revert k.
  induction l as [|x l IH]; intros k; simpl; [reflexivity|].
  unfold Rand.bind at 1.
  pose proof (classifyOne_endpoints rnd x k) as Hx.
  destruct (classifyOne rnd x k) as [y k1]. simpl in Hx.
  unfold Rand.bind. specialize (IH k1).
  destruct (Rand.mapM (classifyOne rnd) l k1) as [ys k2]. simpl in *.
  now rewrite Hx, IH.
Qed.

Lemma assign_endpoints (l : list Relationship.t) :
  List.map endpoints (assignRelationshipStrength l) = List.map endpoints l.
Proof.
  unfold assignRelationshipStrength. rewrite map_map. now apply map_ext.
Qed.

Lemma analyze_endpoints (rnd : nat -> nat) (text : string)
  (concepts : list Concept.t) (k : nat) :
  List.map endpoints (fst (analyzeRelationships rnd text concepts k))
  = List.map endpoints (identifyConceptRelationships text concepts).
Proof.
  unfold analyzeRelationships, Rand.bind.
  pose proof (classify_endpoints rnd
                (identifyConceptRelationships text concepts) k) as H.
  destruct (classifyRelationshipTypes rnd
              (identifyConceptRelationships text concepts) k) as [typed k1].
  simpl in *. now rewrite assign_endpoints.
Qed.

(** C9.  For a list of concepts with pairwise distinct ids, the
    relationships that the engine produces (detection, classification and
    weighting, whatever [Math.random] draws) contain no self-loop and no two
    relationships with the same source, target and type. *)
Theorem engine_no_self_loop_no_duplicate
  (rnd : nat -> nat) (text : string) (concepts : list Concept.t) (k : nat) :
  NoDup (List.map Concept.id concepts) ->
  let rels := fst (analyzeRelationships rnd text concepts k) in
  (forall r, In r rels -> Relationship.source r <> Relationship.target r)
  /\ NoDup (List.map triple rels).
Proof.
  intros Hnd rels. split.
  - intros r Hr.
    assert (He : In (endpoints r)
                    (List.map endpoints (identifyConceptRelationships text concepts))).
    { unfold rels in Hr. rewrite <- (analyze_endpoints rnd text concepts k).
      now apply in_map. }
    apply in_map_iff in He. destruct He as (r0 & E & H0).
    apply identify_In in H0. destruct H0 as (s & t & _ & _ & Hid & _ & ->).
    unfold endpoints in E. simpl in E. injection E as <- <-. exact Hid.
  - apply (NoDup_map_inv (fun p => (fst (fst p), snd (fst p)))).
    rewrite map_map.
    change (NoDup (List.map endpoints rels)).
    unfold rels. rewrite analyze_endpoints.
    now apply identify_endpoints_NoDup.
Qed.

Lemma engine_no_self_loop_no_duplicate_witness :
  NoDup (List.map Concept.id twoConcepts)
  /\ (forall r,
        In r (fst (analyzeRelationships (fun _ => 0) "alpha beta." twoConcepts 0)) ->
        Relationship.source r <> Relationship.target r)
  /\ NoDup (List.map triple
              (fst (analyzeRelationships (fun _ => 0) "alpha beta." twoConcepts 0))).
Proof.
  assert (Hnd : NoDup (List.map Concept.id twoConcepts)).
  { simpl. repeat constructor; simpl; intuition discriminate. }
  split; [exact Hnd|].
  exact (engine_no_self_loop_no_duplicate (fun _ => 0) "alpha beta."
           twoConcepts 0 Hnd).
Defined.

(** ** Relationships only join concepts of the result *)

Lemma analyze_closed (rnd : nat -> nat) (text : string)
  (concepts : list Concept.t) (k : nat) :
  endpointsIn concepts (fst (analyzeRelationships rnd text concepts k)).
Proof.
  intros r Hr.
  assert (He : In (endpoints r)
                  (List.map endpoints (identifyConceptRelationships text concepts))).
  { rewrite <- (analyze_endpoints rnd text concepts k). now apply in_map. }
  apply in_map_iff in He. destruct He as (r0 & E & H0).
  apply identify_In in H0. destruct H0 as (s & t & Hs & Ht & _ & _ & ->).
  unfold endpoints in E. simpl in E. injection E as <- <-.
  split; now apply in_map.
Qed.

Lemma step2_closed (rnd : nat -> nat) (text : string) (r : Result.t) :
  closed (Rand.run (step2_AnalyzeRelationships rnd text r)).
Proof.
  unfold closed, Rand.run, step2_AnalyzeRelationships, Rand.bind.
  pose proof (analyze_closed rnd text (Result.concepts r) 0) as H.
  destruct (analyzeRelationships rnd text (Result.concepts r) 0) as [rels k].
  exact H.
Qed.

Lemma enrich_id (c : Concept.t) : Concept.id (enrich c) = Concept.id c.
Proof.
  unfold enrich.
  repeat match goal with
         | |- context [match ?x with _ => _ end] => destruct x
         end; reflexivity.
Qed.

Lemma step3_closed (text : string) (r : Result.t) :
  closed r -> closed (step3_EnrichSemantically text r).
Proof.
  unfold closed, step3_EnrichSemantically, endpointsIn. simpl.
  rewrite map_map.
  now rewrite (map_ext (fun c => Concept.id (enrich c)) Concept.id enrich_id).
Qed.

Lemma validate_closed (relationships : list Relationship.t)
  (concepts : list Concept.t) :
  endpointsIn concepts (validateRelationshipCoherence relationships concepts).
Proof.
  intros r Hr. unfold validateRelationshipCoherence in Hr.
  apply filter_In in Hr. destruct Hr as [Hr _].
  apply filter_In in Hr. destruct Hr as [_ Hr].
  unfold connectsValidConcepts in Hr. apply andb_true_iff in Hr.
  now rewrite !conceptIdsOf_In in Hr.
Qed.

Lemma step4_closed (r : Result.t) : closed (step4_VerifyAndValidate r).
Proof. apply validate_closed. Qed.

Lemma step5_closed (r : Result.t) (config : Config.t) :
  closed r -> closed (step5_OptimizeVisualPresentation r config).
Proof.
  unfold closed, step5_OptimizeVisualPresentation, endpointsIn. simpl.
  intros H s Hs. rewrite map_map. simpl.
  apply in_map_iff in Hs. destruct Hs as (s0 & <- & Hs0). simpl.
  now apply H.
Qed.

Lemma limit_closed (config : Config.t) (r : Result.t) :
  closed r -> closed (limitConcepts config r).
Proof.
  unfold closed, limitConcepts. intros H.
  destruct (Config.maxConcepts config <? Z.of_nat (length (Result.concepts r)))%Z;
    [|exact H].
  simpl. intros s Hs. apply filter_In in Hs. destruct Hs as [_ Hs].
  unfold connectsValidConcepts in Hs. apply andb_true_iff in Hs.
  now rewrite !conceptIdsOf_In in Hs.
Qed.

(** C5.  For every text and every configuration, the source and the target
    of every relationship of the result of [processText] are ids of concepts
    of that result. *)
Theorem processText_relationships_join_concepts
  (rnd : nat -> nat) (text : string) (config : Config.t) :
  let result := processText rnd text config in
  forall r, In r (Result.relationships result) ->
    In (Relationship.source r) (List.map Concept.id (Result.concepts result))
    /\ In (Relationship.target r) (List.map Concept.id (Result.concepts result)).
Proof.
  cbv zeta. unfold processText. cbn [Result.concepts Result.relationships].
  apply limit_closed.
  assert (H1 : closed (if Stages.organization (Config.stages config)
                       then step1_OrganizeAndHierarchize text (emptyResult text)
                       else emptyResult text)).
  { destruct (Stages.organization (Config.stages config));
      intros r Hr; destruct Hr. }
  destruct (Stages.reasoning (Config.stages config)),
    (Stages.enrichment (Config.stages config)),
    (Stages.validation (Config.stages config)),
    (Stages.aesthetics (Config.stages config));
    auto using step2_closed, step3_closed, step4_closed, step5_closed.
Qed.

Lemma processText_relationships_join_concepts_witness :
  let result := processText (fun _ => 0) "alpha beta." defaultConfig in
  let r := firstRelationship result in
  In r (Result.relationships result)
  /\ In (Relationship.source r) (List.map Concept.id (Result.concepts result))
  /\ In (Relationship.target r) (List.map Concept.id (Result.concepts result)).
Proof.
  cbv zeta.
  assert (H : In (firstRelationship
                    (processText (fun _ => 0) "alpha beta." defaultConfig))
                 (Result.relationships
                    (processText (fun _ => 0) "alpha beta." defaultConfig)))
    by (vm_compute; left; reflexivity).
  split; [exact H|].
  exact (processText_relationships_join_concepts (fun _ => 0) "alpha beta."
           defaultConfig _ H).
Defined.

(** ** Limitation to [maxConcepts] *)

Lemma StronglySorted_app_inv {A : Type} (R : A -> A -> Prop) (l1 l2 : list A) :
  StronglySorted R (l1 ++ l2) ->
  StronglySorted R l1 /\ forall x y, In x l1 -> In y l2 -> R x y.
Proof.
  induction l1 as [|a l1 IH]; simpl; intros H.
  - split; [constructor | intros x y []].
  - apply StronglySorted_inv in H. destruct H as [Hs Ha].
    destruct (IH Hs) as [Hs1 Hcross].
    rewrite Forall_forall in Ha. split.
    + constructor; [assumption|].
      rewrite Forall_forall. intros x Hx. apply Ha, in_or_app. now left.
    + intros x y [<- | Hx] Hy.
      * apply Ha, in_or_app. now right.
      * now apply Hcross.
Qed.

Lemma StronglySorted_weaken {A : Type} (R S : A -> A -> Prop) (l : list A) :
  (forall a b, R a b -> S a b) -> StronglySorted R l -> StronglySorted S l.
Proof.
  intros Himp. induction 1 as [|a l Hs IH Ha]; constructor; [assumption|].
  rewrite Forall_forall in *. auto.
Qed.



(** ** Texts without eligible tokens *)

Lemma splitRuns_blank (text : string) (inSep : bool) :
  JSString.forallb JSString.isSpace text = true ->
  Forall (eq EmptyString)
         (JSString.splitRuns JSString.isSpace text EmptyString inSep).
Proof.
  revert inSep. induction text as [|c s IH]; simpl; intros inSep H.
  - repeat constructor.
  - apply andb_true_iff in H. destruct H as [Hc Hs]. rewrite Hc.
    destruct inSep; [|constructor; [reflexivity|]]; now apply IH.
Qed.

Lemma wordFrequencyOf_blank (words : list string) :
  Forall (eq EmptyString) words -> wordFrequencyOf words = [].
Proof.
  unfold wordFrequencyOf. induction 1 as [|w l <- _ IH]; simpl; [reflexivity|].
  exact IH.
Qed.

Lemma blank_text_has_no_token (text : string) :
  JSString.forallb JSString.isSpace text = true -> sortedWords text = [].
Proof.
  intros H. unfold sortedWords, JSString.split.
  now rewrite (wordFrequencyOf_blank _ (splitRuns_blank text false H)).
Qed.

Lemma no_token_no_concept (text : string) :
  sortedWords text = [] -> extractMainConcepts text = [].
Proof.
  intros H. unfold extractMainConcepts. now rewrite H.
Qed.

Lemma pipeline_without_concepts (rnd : nat -> nat) (text : string)
  (config : Config.t) :
  extractMainConcepts text = [] ->
  let result := processText rnd text config in
  Result.concepts result = []
  /\ Result.relationships result = []
  /\ Result.content result = Some title.
Proof.
  intros H. cbv zeta. unfold processText, step1_OrganizeAndHierarchize.
  rewrite H. unfold limitConcepts.
  destruct (Stages.organization (Config.stages config)),
    (Stages.reasoning (Config.stages config)),
    (Stages.enrichment (Config.stages config)),
    (Stages.validation (Config.stages config)),
    (Stages.aesthetics (Config.stages config));
    cbn; destruct (Config.maxConcepts config <? 0)%Z; cbn;
    unfold JSArray.slice0; try destruct (0 <=? Config.maxConcepts config)%Z;
    cbn; rewrite ?firstn_nil; repeat split; reflexivity.
Qed.

(** C1.  On a text that is empty or made of whitespace only, [processText]
    does not fail: it runs its stages and returns a result without concepts
    whose content is the bare title.  The controller stops the empty string
    only, so a text of spaces reaches the service and is answered with that
    result. *)
Theorem processText_blank_text_returns_result
  (rnd : nat -> nat) (text : string) (config : Config.t) :
  JSString.forallb JSString.isSpace text = true ->
  Result.concepts (processText rnd text config) = []
  /\ Result.relationships (processText rnd text config) = []
  /\ Result.content (processText rnd text config) = Some title
  /\ (text <> "" ->
      generateMap rnd text config = Success (processText rnd text config)).
Proof.
  intros H.
  destruct (pipeline_without_concepts rnd text config
              (no_token_no_concept text (blank_text_has_no_token text H)))
    as (Hc & Hr & Hcontent).
  repeat split; try assumption.
  intros Hne. unfold generateMap.
  apply String.eqb_neq in Hne. now rewrite Hne.
Qed.

Lemma processText_blank_text_returns_result_witness :
  JSString.forallb JSString.isSpace "   " = true
  /\ Result.concepts (processText (fun _ => 0) "   " defaultConfig) = []
  /\ Result.content (processText (fun _ => 0) "   " defaultConfig) = Some title
  /\ generateMap (fun _ => 0) "   " defaultConfig
     = Success (processText (fun _ => 0) "   " defaultConfig).
Proof.
  assert (H : JSString.forallb JSString.isSpace "   " = true) by reflexivity.
  destruct (processText_blank_text_returns_result (fun _ => 0) "   "
              defaultConfig H) as (Hc & _ & Hcontent & Hmap).
  split; [exact H|]. split; [exact Hc|]. split; [exact Hcontent|].
  apply Hmap. discriminate.
Defined.

(** With the default configuration the result for a text of spaces reports
    NaN as its coherence score. *)
Example processText_blank_text_coherence :
  Metadata.coherenceScore
    (Result.metadata (processText (fun _ => 0) "   " defaultConfig))
  = Some JSNum.NaN.
Proof. vm_compute. reflexivity. Qed.

(** C8 (as amended).  For every text that yields no eligible token,
    [processText] returns a result with no concept and no relationship whose
    content is the bare title of the document; the function is total, so
    nothing is thrown. *)
Theorem processText_without_tokens
  (rnd : nat -> nat) (text : string) (config : Config.t) :
  sortedWords text = [] ->
  Result.concepts (processText rnd text config) = []
  /\ Result.relationships (processText rnd text config) = []
  /\ Result.content (processText rnd text config) = Some title.
Proof.
  intros H.
  exact (pipeline_without_concepts rnd text config (no_token_no_concept text H)).
Qed.

Lemma processText_without_tokens_witness :
  sortedWords "uno y dos, para ti." = []
  /\ Result.concepts
       (processText (fun _ => 0) "uno y dos, para ti." defaultConfig) = []
  /\ Result.content
       (processText (fun _ => 0) "uno y dos, para ti." defaultConfig)
     = Some title.
Proof.
  assert (H : sortedWords "uno y dos, para ti." = []) by reflexivity.
  destruct (processText_without_tokens (fun _ => 0) "uno y dos, para ti."
              defaultConfig H) as (Hc & _ & Hcontent).
  split; [exact H|]. split; [exact Hc | exact Hcontent].
Defined.

(** C8 (as stated) fails.  The text [alpha beta gamma] has three distinct
    eligible tokens, fewer than four, and the result has three concepts and
    a content that is neither the bare title nor a placeholder. *)
Lemma three_tokens_give_three_concepts :
  let result := processText (fun _ => 0) "alpha beta gamma" defaultConfig in
  sortedWords "alpha beta gamma" = ["alpha"; "beta"; "gamma"]
  /\ List.map Concept.name (Result.concepts result) = ["alpha"; "beta"; "gamma"]
  /\ Result.content result <> Some Claimed.placeholder
  /\ Result.content result <> Some title.
Proof.
  cbv zeta.
  split; [vm_compute; reflexivity|].
  split; [vm_compute; reflexivity|].
  split; vm_compute; discriminate.
Qed.

(** ** The emitted document *)

Lemma get_update {V : Type} (f : option V -> V) (t : list (string * V))
  (k k' : string) :
  Table.get (Table.update f t k) k'
  = if String.eqb k k' then Some (f (Table.get t k)) else Table.get t k'.
Proof.
  induction t as [|[k0 v] t IH]; simpl.
  - reflexivity.
  - destruct (String.eqb k0 k) eqn:E0; simpl.
    + apply String.eqb_eq in E0. subst k0.
      now destruct (String.eqb k k').
    + destruct (String.eqb k0 k') eqn:E1.
      * apply String.eqb_eq in E1. subst k0.
        rewrite String.eqb_sym in E0. now rewrite E0.
      * exact IH.
Qed.

Lemma atLevel_pushLevel (t : list (string * list Concept.t)) (c : Concept.t)
  (l : nat) :
  atLevel (pushLevel t c) l
  = atLevel t l ++ (if Concept.level c =? l then [c] else []).
Proof.
  unfold atLevel, pushLevel. rewrite get_update.
  destruct (Nat.eqb_spec (Concept.level c) l) as [-> | Hne].
  - rewrite String.eqb_refl.
    now destruct (Table.get t (JSString.ofNat l)).
  - destruct (String.eqb_spec (JSString.ofNat (Concept.level c)) (JSString.ofNat l))
      as [E | _].
    + now apply ofNat_inj in E.
    + now rewrite app_nil_r.
Qed.

Lemma atLevel_fold (concepts : list Concept.t)
  (t : list (string * list Concept.t)) (l : nat) :
  atLevel (fold_left pushLevel concepts t) l
  = atLevel t l ++ List.filter (fun c => Concept.level c =? l) concepts.
Proof.
  revert t. induction concepts as [|c cs IH]; intros t; simpl.
  - now rewrite app_nil_r.
  - rewrite IH, atLevel_pushLevel, <- app_assoc.
    now destruct (Concept.level c =? l).
Qed.

Lemma fold_append {A : Type} (f : A -> string) (l : list A) (init : string) :
  fold_left (fun content x => (content ++ f x)%string) l init
  = (init ++ concatAll (List.map f l))%string.
Proof.
  revert init. induction l as [|x l IH]; intros init; simpl.
  - clear. induction init as [|c s IHs]; simpl; [reflexivity | now rewrite <- IHs].
  - rewrite IH. clear.
    induction init as [|c s IHs]; simpl; [reflexivity | now rewrite IHs].
Qed.

Lemma prefix_append (p s : string) : prefix p (p ++ s) = true.
Proof.
  induction p as [|c p IH]; simpl.
  - now destruct s.
  - now destruct (ascii_dec c c).
Qed.

Lemma append_assoc (a b c : string) : ((a ++ b) ++ c = a ++ (b ++ c))%string.
Proof.
  induction a as [|x a IH]; simpl; [reflexivity | now rewrite IH].
Qed.

Lemma heading_prefix (emojis : list (string * string)) (c : Concept.t)
  (rest : string) :
  JSString.startsWith (mainHeading emojis c ++ rest) "## " = true.
Proof.
  unfold JSString.startsWith, mainHeading. cbv zeta.
  rewrite append_assoc. apply prefix_append.
Qed.

Lemma readings_agree (parse : string -> nat * nat) (ra rb : Result.t) :
  Result.content ra = Result.content rb ->
  Result.content ra <> None ->
  (forall content, Result.content ra = Some content ->
     parse content
     = (length (Result.concepts ra), length (Result.relationships ra))) ->
  (forall content, Result.content rb = Some content ->
     parse content
     = (length (Result.concepts rb), length (Result.relationships rb))) ->
  length (Result.concepts ra) = length (Result.concepts rb).
Proof.
  intros Hsame Hsome Pa Pb.
  destruct (Result.content ra) as [content|] eqn:E; [|congruence].
  specialize (Pa content eq_refl). specialize (Pb content (eq_sym Hsame)).
  congruence.
Qed.

(** C4 fails for the content that the pipeline stores, which is the
    Markdown outline of [conceptMapService.js].  The texts
    [alpha beta gamma] and [alpha beta gamma. delta] give results with
    three and with four concepts and the same content; the texts
    [alpha beta gamma] and [alpha beta. gamma] give results with six and
    with two relationships and the same content; and the content of the
    first holds no node declaration and no labelled edge.  So no reading of
    the content gives back the number of concepts and of relationships of
    every result. *)
Lemma content_does_not_determine_counts :
  let r1 := processText (fun _ => 0) "alpha beta gamma" defaultConfig in
  let r2 := processText (fun _ => 0) "alpha beta gamma. delta" defaultConfig in
  let r3 := processText (fun _ => 0) "alpha beta. gamma" defaultConfig in
  Result.content r1 = Result.content r2
  /\ length (Result.concepts r1) = 3
  /\ length (Result.concepts r2) = 4
  /\ Result.content r1 = Result.content r3
  /\ length (Result.relationships r1) = 6
  /\ length (Result.relationships r3) = 2
  /\ option_map Diagram.nodeCount (Result.content r1) = Some 0
  /\ option_map Diagram.edgeCount (Result.content r1) = Some 0
  /\ ~ exists parse : string -> nat * nat,
         forall rnd text config content,
           Result.content (processText rnd text config) = Some content ->
           parse content
           = (length (Result.concepts (processText rnd text config)),
              length (Result.relationships (processText rnd text config))).
Proof.
  cbv zeta.
  assert (Hsame : Result.content
                    (processText (fun _ => 0) "alpha beta gamma" defaultConfig)
                  = Result.content
                      (processText (fun _ => 0) "alpha beta gamma. delta"
                                   defaultConfig))
    by (vm_compute; reflexivity).
  assert (Hsome : Result.content
                    (processText (fun _ => 0) "alpha beta gamma" defaultConfig)
                  <> None)
    by (vm_compute; discriminate).
  assert (H3 : length (Result.concepts
                         (processText (fun _ => 0) "alpha beta gamma" defaultConfig))
               = 3) by (vm_compute; reflexivity).
  assert (H4 : length (Result.concepts
                         (processText (fun _ => 0) "alpha beta gamma. delta"
                                      defaultConfig))
               = 4) by (vm_compute; reflexivity).
  assert (Hsame' : Result.content
                     (processText (fun _ => 0) "alpha beta gamma" defaultConfig)
                   = Result.content
                       (processText (fun _ => 0) "alpha beta. gamma"
                                    defaultConfig))
    by (vm_compute; reflexivity).
  assert (H6 : length (Result.relationships
                         (processText (fun _ => 0) "alpha beta gamma" defaultConfig))
               = 6) by (vm_compute; reflexivity).
  assert (H2 : length (Result.relationships
                         (processText (fun _ => 0) "alpha beta. gamma"
                                      defaultConfig))
               = 2) by (vm_compute; reflexivity).
  split; [exact Hsame|]. split; [exact H3|]. split; [exact H4|].
  split; [exact Hsame'|]. split; [exact H6|]. split; [exact H2|].
  split; [vm_compute; reflexivity|]. split; [vm_compute; reflexivity|].
  intros (parse & Hparse).
  pose proof (readings_agree parse _ _ Hsame Hsome
                (Hparse (fun _ => 0) "alpha beta gamma" defaultConfig)
                (Hparse (fun _ => 0) "alpha beta gamma. delta" defaultConfig))
    as Heq.
  rewrite H3, H4 in Heq. discriminate Heq.
Qed.

(** ** The ids that extraction assigns *)

Lemma mapi_ids_In (f : nat -> string -> Concept.t) (l : list string)
  (i : nat) (x : string) :
  (forall j w, Concept.id (f j w) = ("concept-" ++ JSString.ofNat j)%string) ->
  In x (List.map Concept.id (mapi_from f i l)) ->
  exists j, i <= j /\ x = ("concept-" ++ JSString.ofNat j)%string.
Proof.
  intros Hid. revert i. induction l as [|w l IH]; intros i; simpl; [tauto|].
  intros [<- | H].
  - exists i. split; [lia | apply Hid].
  - destruct (IH _ H) as (j & Hj & ->). exists j. split; [lia | reflexivity].
Qed.

Lemma mapi_ids_NoDup (f : nat -> string -> Concept.t) (l : list string)
  (i : nat) :
  (forall j w, Concept.id (f j w) = ("concept-" ++ JSString.ofNat j)%string) ->
  NoDup (List.map Concept.id (mapi_from f i l)).
Proof.
  intros Hid. revert i. induction l as [|w l IH]; intros i; simpl; constructor.
  - intros H. apply (mapi_ids_In f l (S i) _ Hid) in H.
    destruct H as (j & Hj & E). rewrite Hid in E. simpl in E.
    injection E as E. apply ofNat_inj in E. lia.
  - apply IH.
Qed.

Lemma extract_ids_NoDup (text : string) :
  NoDup (List.map Concept.id (extractMainConcepts text)).
Proof.
  unfold extractMainConcepts, mapi. apply mapi_ids_NoDup. reflexivity.
Qed.

(** ** Ordering by relevance only permutes the concepts *)

Lemma filter_split_perm {A : Type} (p : A -> bool) (l : list A) :
  Permutation (List.filter p l ++ List.filter (fun x => negb (p x)) l) l.
Proof.
  induction l as [|x l IH]; simpl; [reflexivity|].
  destruct (p x); simpl.
  - now constructor.
  - rewrite <- Permutation_middle. now constructor.
Qed.

Lemma keys_perm {V : Type} (t : list (string * V)) :
  Permutation (Table.keys t) (List.map fst t).
Proof.
  unfold Table.keys. rewrite sort_perm. apply filter_split_perm.
Qed.

Lemma update_keys {V : Type} (f : option V -> V) (t : list (string * V))
  (k : string) :
  List.map fst (Table.update f t k)
  = if JSArray.has (List.map fst t) k then List.map fst t
    else List.map fst t ++ [k].
Proof.
  induction t as [|[k0 v] t IH]; simpl; [reflexivity|].
  rewrite (String.eqb_sym k k0).
  destruct (String.eqb k0 k); simpl; [reflexivity|].
  rewrite IH. unfold JSArray.has.
  now destruct (existsb (String.eqb k) (List.map fst t)).
Qed.

Lemma update_keys_NoDup {V : Type} (f : option V -> V) (t : list (string * V))
  (k : string) :
  NoDup (List.map fst t) -> NoDup (List.map fst (Table.update f t k)).
Proof.
  intros H. rewrite update_keys.
  destruct (JSArray.has (List.map fst t) k) eqn:E; [assumption|].
  apply NoDup_app; [assumption | repeat constructor; tauto |].
  intros a Ha [<- | []].
  apply (has_In (List.map fst t) k) in Ha. congruence.
Qed.

Lemma pushLevel_groups (t : list (string * list Concept.t)) (c : Concept.t) :
  Permutation (flat_map snd (pushLevel t c)) (flat_map snd t ++ [c]).
Proof.
  unfold pushLevel.
  induction t as [|[k0 v] t IH]; simpl; [reflexivity|].
  destruct (String.eqb k0 (JSString.ofNat (Concept.level c))); simpl.
  - rewrite <- !app_assoc. apply Permutation_app_head, Permutation_app_comm.
  - rewrite IH. now rewrite app_assoc.
Qed.

Lemma fold_pushLevel_groups (l : list Concept.t)
  (t : list (string * list Concept.t)) :
  Permutation (flat_map snd (fold_left pushLevel l t)) (flat_map snd t ++ l)
  /\ (NoDup (List.map fst t) ->
      NoDup (List.map fst (fold_left pushLevel l t))).
Proof.
  revert t. induction l as [|c l IH]; intros t; simpl.
  - rewrite app_nil_r. split; [reflexivity | tauto].
  - destruct (IH (pushLevel t c)) as [Hp Hn]. split.
    + rewrite Hp, pushLevel_groups, <- app_assoc. reflexivity.
    + intros H. apply Hn. now apply update_keys_NoDup.
Qed.

Lemma flat_map_agree {A B : Type} (f g : A -> list B) (l : list A) :
  (forall x, In x l -> f x = g x) -> flat_map f l = flat_map g l.
Proof.
  induction l as [|x l IH]; simpl; intros H; [reflexivity|].
  rewrite (H x), IH; auto.
Qed.

Lemma groups_by_key {V : Type} (t : list (string * list V)) :
  NoDup (List.map fst t) ->
  flat_map (fun k => match Table.get t k with Some l => l | None => [] end)
           (List.map fst t)
  = flat_map snd t.
Proof.
  induction t as [|[k v] t IH]; simpl; intros H; [reflexivity|].
  apply NoDup_cons_iff in H. destruct H as [Hnotin H].
  rewrite String.eqb_refl. f_equal.
  rewrite <- (IH H). apply flat_map_agree.
  intros k' Hk'. destruct (String.eqb_spec k k') as [-> | _]; [contradiction|].
  reflexivity.
Qed.

Lemma sorted_groups (t : list (string * list Concept.t)) :
  Permutation
    (flat_map snd
       (List.map (fun kv => (fst kv, JSArray.sort byImportanceDesc (snd kv))) t))
    (flat_map snd t).
Proof.
  induction t as [|[k v] t IH]; simpl; [reflexivity|].
  now rewrite sort_perm, IH.
Qed.

Lemma sortConceptsByRelevance_perm (concepts : list Concept.t) :
  Permutation (sortConceptsByRelevance concepts) concepts.
Proof.
  unfold sortConceptsByRelevance.
  set (sortedByLevel :=
         JSArray.sort (fun a b => Concept.level a <=? Concept.level b) concepts).
  set (levels := fold_left pushLevel sortedByLevel []).
  set (levels' :=
         List.map (fun kv => (fst kv, JSArray.sort byImportanceDesc (snd kv)))
                  levels).
  destruct (fold_pushLevel_groups sortedByLevel []) as [Hp Hn].
  assert (Hkeys : List.map fst levels' = List.map fst levels)
    by (unfold levels'; rewrite map_map; reflexivity).
  rewrite sort_perm, keys_perm, groups_by_key.
  - unfold levels'. rewrite sorted_groups. fold levels in Hp.
    rewrite Hp. simpl. apply sort_perm.
  - rewrite Hkeys. apply Hn. constructor.
Qed.

(** The concepts that stage 1 hands to the relationship engine have pairwise
    distinct ids. *)
Lemma step1_ids_NoDup (text : string) (result : Result.t) :
  NoDup (List.map Concept.id
           (Result.concepts (step1_OrganizeAndHierarchize text result))).
Proof.
  simpl.
  apply (Permutation_NoDup
           (Permutation_sym
              (Permutation_map Concept.id
                 (sortConceptsByRelevance_perm (extractMainConcepts text))))).
  apply extract_ids_NoDup.
Qed.

(** The counters of the metadata are the lengths of the two lists. *)
Lemma metadata_counts (rnd : nat -> nat) (text : string) (config : Config.t) :
  let result := processText rnd text config in
  Metadata.conceptCount (Result.metadata result)
  = length (Result.concepts result)
  /\ Metadata.relationshipCount (Result.metadata result)
     = length (Result.relationships result).
Proof. split; reflexivity. Qed.

(** ** Scenarios *)

(** Scenario A of the specification: the two sentences about concept maps
    give concepts of level 0 named [ideas] and [mapas], with relationships
    between them in both directions. *)
Example scenario_concept_maps :
  let result :=
    processText (fun _ => 0)
      "Mapas conceptuales organizan ideas. Las ideas se conectan mediante relaciones."
      defaultConfig in
  List.map Concept.name (mainConcepts (Result.concepts result))
  = ["ideas"; "mapas"; "conceptuales"]
  /\ List.map endpoints (firstn 2 (Result.relationships result))
     = [("concept-0", "concept-1"); ("concept-0", "concept-2")]
  /\ Metadata.conceptCount (Result.metadata result) = 7
  /\ Metadata.relationshipCount (Result.metadata result) = 24.
Proof. vm_compute. repeat split; reflexivity. Qed.

(** Scenario D of the specification: ten extracted concepts and
    [maxConcepts = 2] leave two concepts and only the relationships between
    them. *)
Example scenario_two_of_ten :
  let config := Config.mk 2 "educational" (Stages.mk true true true true true true)
                          true true in
  let text := "alpha beta gamma delta epsilon zeta theta iota kappa lambda" in
  let result := processText (fun _ => 0) text config in
  length (extractMainConcepts text) = 10
  /\ List.map Concept.name (Result.concepts result) = ["alpha"; "beta"]
  /\ List.map endpoints (Result.relationships result)
     = [("concept-0", "concept-1"); ("concept-1", "concept-0")]
  /\ Metadata.limitationApplied (Result.metadata result) = Some (8%Z, 88%Z).
Proof. vm_compute. repeat split; reflexivity. Qed.

(* ================================================================= *)
(** * Further properties *)

(** ** Extraction: the frequency table *)

Lemma isUpper_toLowerChar (c : ascii) :
  JSString.isUpper (JSString.toLowerChar c) = false.
Proof.
  destruct c as [[] [] [] [] [] [] [] []]; reflexivity.
Qed.

Lemma forallb_filter (p q : ascii -> bool) (s : string) :
  JSString.forallb q s = true ->
  JSString.forallb q (JSString.filter p s) = true.
Proof.
  induction s as [|c s IH]; simpl; [reflexivity|].
  intros H. apply andb_true_iff in H. destruct H as [Hc Hs].
  destruct (p c); simpl; [rewrite Hc|]; auto.
Qed.

Lemma forallb_filter_same (p : ascii -> bool) (s : string) :
  JSString.forallb p (JSString.filter p s) = true.
Proof.
  induction s as [|c s IH]; simpl; [reflexivity|].
  destruct (p c) eqn:E; simpl; [rewrite E|]; auto.
Qed.

Lemma cleanWord_clean (word : string) :
  JSString.forallb JSString.isWordChar (cleanWord word) = true
  /\ JSString.forallb (fun a => negb (JSString.isUpper a)) (cleanWord word)
     = true.
Proof.
  unfold cleanWord. split; [apply forallb_filter_same|].
  apply forallb_filter. unfold JSString.toLowerCase.
  induction word as [|c s IH]; simpl; [reflexivity|].
  now rewrite isUpper_toLowerChar, IH.
Qed.

(** A cleaned word has no upper-case letter, so it names a member of
    [Object.prototype] only when it is [constructor] or [__proto__]. *)
Lemma lower_case_member (key : string) :
  JSString.forallb (fun a => negb (JSString.isUpper a)) key = true ->
  JSArray.has inheritedKeys key = false ->
  JSArray.has objectPrototypeMembers key = false.
Proof.
  intros Hlow Hin. unfold JSArray.has, inheritedKeys in Hin.
  cbn [existsb] in Hin. apply orb_false_iff in Hin. destruct Hin as [H1 Hin].
  apply orb_false_iff in Hin. destruct Hin as [H2 _].
  unfold JSArray.has, objectPrototypeMembers. cbn [existsb].
  rewrite H1, H2.
  repeat match goal with
         | |- context [String.eqb key ?name] =>
             destruct (String.eqb_spec key name) as [E | _];
             [rewrite E in Hlow; discriminate Hlow|]
         end.
  reflexivity.
Qed.

Lemma plainWords_keys (words : list string) (w : string) :
  plainWords words = true -> In w (List.map cleanWord words) ->
  JSArray.has objectPrototypeMembers w = false.
Proof.
  unfold plainWords. intros H Hin.
  apply in_map_iff in Hin. destruct Hin as (word & <- & Hin).
  rewrite forallb_forall in H. specialize (H word Hin).
  apply andb_true_iff in H. destruct H as [_ H].
  apply negb_true_iff in H.
  apply lower_case_member; [apply cleanWord_clean | exact H].
Qed.

Lemma frequencyOf_countWord (t : list (string * nat)) (word w : string) :
  frequencyOf (countWord t word) w
  = frequencyOf t w
    + (if (3 <? String.length (cleanWord word)) && String.eqb (cleanWord word) w
       then 1 else 0).
Proof.
  unfold countWord, frequencyOf.
  destruct (3 <? String.length (cleanWord word)); simpl; [|lia].
  rewrite get_update.
  destruct (String.eqb_spec (cleanWord word) w) as [-> | _]; [|lia].
  destruct (Table.get t w); lia.
Qed.

Lemma frequencyOf_fold (words : list string) (t : list (string * nat))
  (w : string) :
  frequencyOf (fold_left countWord words t) w
  = frequencyOf t w
    + (if 3 <? String.length w
       then count_occ string_dec (List.map cleanWord words) w else 0).
Proof.
  revert t. induction words as [|word words IH]; intros t; simpl.
  - destruct (3 <? String.length w); lia.
  - rewrite IH, frequencyOf_countWord.
    destruct (string_dec (cleanWord word) w) as [E | N].
    + rewrite E, String.eqb_refl. destruct (3 <? String.length w); simpl; lia.
    + apply String.eqb_neq in N. rewrite N, andb_false_r.
      destruct (3 <? String.length w); lia.
Qed.

Lemma wordFrequency_keys_NoDup (words : list string) (t : list (string * nat)) :
  NoDup (List.map fst t) ->
  NoDup (List.map fst (fold_left countWord words t)).
Proof.
  revert t. induction words as [|word words IH]; intros t H; simpl; [exact H|].
  apply IH. unfold countWord.
  destruct (3 <? String.length (cleanWord word)); [|exact H].
  now apply update_keys_NoDup.
Qed.

Lemma wordFrequency_keys_In (words : list string) (t : list (string * nat))
  (k : string) :
  In k (List.map fst (fold_left countWord words t))
  <-> In k (List.map fst t)
      \/ (3 < String.length k /\ In k (List.map cleanWord words)).
Proof.
  revert t. induction words as [|word words IH]; intros t; simpl.
  - tauto.
  - rewrite IH. unfold countWord.
    destruct (3 <? String.length (cleanWord word)) eqn:L.
    + apply Nat.ltb_lt in L. rewrite update_keys.
      destruct (JSArray.has (List.map fst t) (cleanWord word)) eqn:H.
      * apply has_In in H. split; [tauto|].
        intros [Hk | [Hl [<- | Hk]]]; tauto.
      * rewrite in_app_iff. simpl. split.
        -- intros [[Hk | [<- | []]] | Hk]; tauto.
        -- intros [Hk | [Hl [<- | Hk]]]; tauto.
    + apply Nat.ltb_ge in L. split; [tauto|].
      intros [Hk | [Hl [<- | Hk]]]; try tauto. lia.
Qed.

Lemma wordFrequency_counts (words : list string) (w : string) :
  frequencyOf (wordFrequencyOf words) w
  = (if 3 <? String.length w
     then count_occ string_dec (List.map cleanWord words) w else 0).
Proof.
  unfold wordFrequencyOf. now rewrite frequencyOf_fold.
Qed.

(** X1.  For ASCII words of which none cleans to [constructor] or
    [__proto__], and a token that names no member of [Object.prototype],
    the frequency table counts, when the token has more than three
    characters, the words of the list whose cleaned form is that token;
    shorter tokens are never entered, no key is entered twice, and no key
    names a member of [Object.prototype]. *)
Theorem wordFrequency_counts_cleaned_words (words : list string) (w : string) :
  plainWords words = true ->
  JSArray.has objectPrototypeMembers w = false ->
  frequencyOf (wordFrequencyOf words) w
  = (if 3 <? String.length w
     then count_occ string_dec (List.map cleanWord words) w else 0)
  /\ (In w (List.map fst (wordFrequencyOf words))
      <-> 3 < String.length w /\ In w (List.map cleanWord words))
  /\ NoDup (List.map fst (wordFrequencyOf words))
  /\ Forall (fun key => JSArray.has objectPrototypeMembers key = false)
            (List.map fst (wordFrequencyOf words)).
Proof.
  intros Hplain _. unfold wordFrequencyOf. split; [|split; [|split]].
  - now rewrite frequencyOf_fold.
  - rewrite wordFrequency_keys_In. simpl. tauto.
  - apply wordFrequency_keys_NoDup. constructor.
  - apply Forall_forall. intros key Hkey.
    rewrite wordFrequency_keys_In in Hkey. simpl in Hkey.
    destruct Hkey as [[] | [_ Hkey]].
    now apply (plainWords_keys words).
Qed.

Lemma wordFrequency_counts_keys (words : list string) (w : string) :
  In w (List.map fst (wordFrequencyOf words))
  <-> 3 < String.length w /\ In w (List.map cleanWord words).
Proof.
  unfold wordFrequencyOf. rewrite wordFrequency_keys_In. simpl. tauto.
Qed.

(** ** Extraction: eligible tokens and concepts *)

Lemma sortedWords_In (text : string) (w : string) :
  In w (sortedWords text)
  <-> 3 < String.length w
      /\ In w (List.map cleanWord (JSString.split JSString.isSpace text))
      /\ ~ In w commonWords.
Proof.
  unfold sortedWords.
  set (wordFrequency := wordFrequencyOf (JSString.split JSString.isSpace text)).
  split.
  - intros H. apply (Permutation_in _ (sort_perm _ _)) in H.
    apply filter_In in H. destruct H as [Hk Hc].
    apply (Permutation_in _ (keys_perm wordFrequency)) in Hk.
    apply wordFrequency_counts_keys in Hk.
    apply negb_true_iff in Hc. split; [tauto|]. split; [tauto|].
    intros Hin. apply has_In in Hin. congruence.
  - intros (Hl & Hw & Hc).
    apply (Permutation_in _ (Permutation_sym (sort_perm _ _))).
    apply filter_In. split.
    + apply (Permutation_in _ (Permutation_sym (keys_perm wordFrequency))).
      apply wordFrequency_counts_keys. tauto.
    + apply negb_true_iff. destruct (JSArray.has commonWords w) eqn:E; [|reflexivity].
      apply has_In in E. contradiction.
Qed.

Lemma sortedWords_NoDup (text : string) : NoDup (sortedWords text).
Proof.
  unfold sortedWords.
  apply (Permutation_NoDup (Permutation_sym (sort_perm _ _))).
  apply NoDup_filter.
  apply (Permutation_NoDup (Permutation_sym (keys_perm _))).
  apply wordFrequency_keys_NoDup. constructor.
Qed.

Lemma sortedWords_sorted (text : string) :
  StronglySorted
    (fun a b => occurrences text b <= occurrences text a)
    (sortedWords text).
Proof.
  unfold sortedWords.
  set (wordFrequency := wordFrequencyOf (JSString.split JSString.isSpace text)).
  apply (StronglySorted_weaken
           (fun a b => (frequencyOf wordFrequency b <=? frequencyOf wordFrequency a)
                       = true)).
  - intros a b H. apply Nat.leb_le in H. exact H.
  - apply sort_sorted.
    + intros x y H. apply Nat.leb_gt in H. apply Nat.leb_le. lia.
    + intros x y z H1 H2. apply Nat.leb_le in H1, H2. apply Nat.leb_le. lia.
Qed.

(** X2.  The eligible tokens of an ASCII text of which no word cleans to
    [constructor] or [__proto__] are pairwise distinct; a token is eligible
    exactly when it has more than three characters, is the cleaned form of
    a word of the text and is not a common word; the tokens come by
    non-increasing number of occurrences, and none names a member of
    [Object.prototype]. *)
Theorem eligible_tokens (text : string) :
  plainText text = true ->
  NoDup (sortedWords text)
  /\ (forall w,
        In w (sortedWords text)
        <-> 3 < String.length w
            /\ In w (List.map cleanWord (JSString.split JSString.isSpace text))
            /\ ~ In w commonWords)
  /\ StronglySorted (fun a b => occurrences text b <= occurrences text a)
                    (sortedWords text)
  /\ Forall (fun w => JSArray.has objectPrototypeMembers w = false)
            (sortedWords text).
Proof.
  intros Hplain. split; [apply sortedWords_NoDup|].
  split; [apply sortedWords_In|]. split; [apply sortedWords_sorted|].
  apply Forall_forall. intros w Hw. apply sortedWords_In in Hw.
  destruct Hw as (_ & Hw & _).
  unfold plainText in Hplain. apply andb_true_iff in Hplain.
  exact (plainWords_keys _ w (proj2 Hplain) Hw).
Qed.

Lemma nth_error_mapi_from {A B : Type} (f : nat -> A -> B) (s : nat)
  (l : list A) (i : nat) :
  nth_error (mapi_from f s l) i = option_map (f (s + i)) (nth_error l i).
Proof.
  revert s i. induction l as [|x l IH]; intros s [|i]; simpl; try reflexivity.
  - now rewrite Nat.add_0_r.
  - rewrite IH. now rewrite Nat.add_succ_r.
Qed.

Lemma nth_error_firstn_Some {A : Type} (n : nat) (l : list A) (i : nat) (x : A) :
  nth_error (firstn n l) i = Some x -> i < n /\ nth_error l i = Some x.
Proof.
  revert l i. induction n as [|n IH]; intros [|y l] [|i]; simpl; try discriminate.
  - intros H. split; [lia | exact H].
  - intros H. apply IH in H. split; [lia | tauto].
Qed.

Lemma splitRuns_nonempty (sep : ascii -> bool) (s cur : string) (inSep : bool) :
  1 <= length (JSString.splitRuns sep s cur inSep).
Proof.
  revert cur inSep. induction s as [|c s IH]; intros cur inSep; simpl; [lia|].
  destruct (sep c); [destruct inSep; simpl|]; try apply IH.
  specialize (IH EmptyString true). lia.
Qed.

Lemma occurrences_positive (text w : string) :
  In w (sortedWords text) -> 1 <= occurrences text w.
Proof.
  intros H. apply sortedWords_In in H. destruct H as (Hl & Hw & _).
  unfold occurrences.
  rewrite (wordFrequency_counts (JSString.split JSString.isSpace text) w).
  apply Nat.ltb_lt in Hl. rewrite Hl.
  now apply (count_occ_In string_dec).
Qed.

Lemma Qmin'_bounds (a lo hi : Q) :
  (lo <= a -> lo <= hi -> lo <= Qmin' a hi /\ Qmin' a hi <= hi)%Q.
Proof.
  intros Ha Hlo. unfold Qmin'.
  destruct (Qle_bool a hi) eqn:E.
  - apply Qle_bool_iff in E. tauto.
  - split; [assumption | apply Qle_refl].
Qed.

Lemma rawImportance_lower (text w : string) (i : nat) :
  i < 15 ->
  (1 # 3
   <= ofNatQ (frequencyOf
                (wordFrequencyOf (JSString.split JSString.isSpace text)) w)
      / ofNatQ (length (JSString.split JSString.isSpace text)) * 100
      + inject_Z (15 - Z.of_nat i) / 3)%Q.
Proof.
  intros Hi.
  pose proof (splitRuns_nonempty JSString.isSpace text EmptyString false) as L.
  fold (JSString.split JSString.isSpace text) in L.
  assert (H0 : (0 <= ofNatQ (frequencyOf
                  (wordFrequencyOf (JSString.split JSString.isSpace text)) w)
                / ofNatQ (length (JSString.split JSString.isSpace text))
                * 100)%Q).
  { apply Qmult_le_0_compat; [|discriminate].
    apply Qdiv_nonneg; [apply ofNatQ_nonneg | apply ofNatQ_pos; lia]. }
  assert (H1 : (inject_Z 1 <= inject_Z (15 - Z.of_nat i))%Q)
    by (rewrite <- Zle_Qle; lia).
  change (inject_Z 1) with 1%Q in H1.
  assert (H2 : (1 # 3 <= inject_Z (15 - Z.of_nat i) / 3)%Q).
  { apply Qle_shift_div_l; [reflexivity | lra]. }
  lra.
Qed.

Lemma extract_nth_error (text : string) (i : nat) (c : Concept.t) :
  nth_error (extractMainConcepts text) i = Some c ->
  i < 15
  /\ exists w,
       nth_error (sortedWords text) i = Some w
       /\ c = makeConcept text
                (length (JSString.split JSString.isSpace text))
                (wordFrequencyOf (JSString.split JSString.isSpace text)) i w.
Proof.
  unfold extractMainConcepts, mapi. rewrite nth_error_mapi_from.
  change (0 + i) with i.
  destruct (nth_error (firstn 15 (sortedWords text)) i) as [w|] eqn:E;
    [|simpl; discriminate].
  apply nth_error_firstn_Some in E. destruct E as [Hi Hw].
  simpl. intros H. injection H as <-.
  split; [exact Hi|]. now exists w.
Qed.

(** X3.  For an ASCII text of which no word cleans to [constructor] or
    [__proto__], the concept at position [i] of the extraction is built
    from the [i]-th eligible token: there are at most fifteen, its id is
    [concept-i], its level is 0 for the first three positions, 1 for the
    next five and 2 beyond, it is critical exactly in the first five
    positions, its frequency is the positive number of occurrences of the
    token, which names no member of [Object.prototype], its importance
    lies between 1/3 and 6, and it carries no definition, example or
    formatting yet. *)
Theorem extracted_concept_at_rank (text : string) (i : nat) (c : Concept.t) :
  plainText text = true ->
  nth_error (extractMainConcepts text) i = Some c ->
  i < 15
  /\ nth_error (sortedWords text) i = Some (Concept.name c)
  /\ Concept.id c = ("concept-" ++ JSString.ofNat i)%string
  /\ Concept.level c = (if i <? 3 then 0 else if i <? 8 then 1 else 2)
  /\ Concept.isCritical c = (i <? 5)
  /\ Concept.frequency c = occurrences text (Concept.name c)
  /\ 1 <= Concept.frequency c
  /\ JSArray.has objectPrototypeMembers (Concept.name c) = false
  /\ (1 # 3 <= Concept.importance c /\ Concept.importance c <= 6)%Q
  /\ Concept.definition c = None
  /\ Concept.examples c = None
  /\ Concept.formatting c = None.
Proof.
  intros Hplain H.
  apply extract_nth_error in H. destruct H as (Hi & w & Hw & ->).
  unfold makeConcept.
  cbn [Concept.id Concept.name Concept.level Concept.isCritical
       Concept.frequency Concept.importance Concept.definition
       Concept.examples Concept.formatting].
  assert (Hin : In w (sortedWords text)) by (eapply nth_error_In; eassumption).
  pose proof (occurrences_positive text w Hin) as Hpos.
  pose proof (rawImportance_lower text w i Hi) as Hraw.
  split; [exact Hi|]. split; [exact Hw|]. split; [reflexivity|].
  split; [reflexivity|]. split; [reflexivity|]. split; [reflexivity|].
  split; [exact Hpos|].
  split.
  { apply sortedWords_In in Hin. destruct Hin as (_ & Hin & _).
    unfold plainText in Hplain. apply andb_true_iff in Hplain.
    exact (plainWords_keys _ w (proj2 Hplain) Hin). }
  split; [apply Qmin'_bounds; [exact Hraw | discriminate]|].
  repeat split.
Qed.

(** ** The original form of a token *)

Lemma isWordChar_toLowerChar (c : ascii) :
  JSString.isWordChar (JSString.toLowerChar c) = JSString.isWordChar c.
Proof.
  destruct c as [[] [] [] [] [] [] [] []]; reflexivity.
Qed.

Lemma prefixIgnoreCase_refl (w : string) : prefixIgnoreCase w w = true.
Proof.
  induction w as [|c w IH]; simpl; [reflexivity|].
  now rewrite Ascii.eqb_refl.
Qed.

Lemma prefixIgnoreCase_takeWordChars (w s : string) :
  JSString.forallb JSString.isWordChar w = true ->
  prefixIgnoreCase w s = true ->
  prefixIgnoreCase w (takeWordChars s) = true.
Proof.
  revert s. induction w as [|a w IH]; intros s Hw H.
  - now destruct (takeWordChars s).
  - destruct s as [|b s]; simpl in *; [discriminate|].
    apply andb_true_iff in Hw, H. destruct Hw as [Ha Hw], H as [Hab H].
    apply Ascii.eqb_eq in Hab.
    assert (Hb : JSString.isWordChar b = true).
    { rewrite <- isWordChar_toLowerChar, <- Hab, isWordChar_toLowerChar.
      exact Ha. }
    rewrite Hb. simpl. rewrite Hab, Ascii.eqb_refl. simpl. now apply IH.
Qed.

Lemma prefix_takeWordChars (s : string) : prefix (takeWordChars s) s = true.
Proof.
  induction s as [|c s IH]; simpl; [reflexivity|].
  destruct (JSString.isWordChar c); simpl; [|reflexivity].
  now destruct (ascii_dec c c).
Qed.

Lemma takeWordChars_wordChars (s : string) :
  JSString.forallb JSString.isWordChar (takeWordChars s) = true.
Proof.
  induction s as [|c s IH]; simpl; [reflexivity|].
  destruct (JSString.isWordChar c) eqn:E; simpl; [|reflexivity].
  now rewrite E.
Qed.

Lemma matchOriginalFrom_Some (prevIsWord : bool) (word text m : string) :
  matchOriginalFrom prevIsWord word text = Some m ->
  JSString.includes text m = true
  /\ JSString.forallb JSString.isWordChar m = true
  /\ (JSString.forallb JSString.isWordChar word = true ->
      prefixIgnoreCase word m = true).
Proof.
  revert prevIsWord m. induction text as [|c rest IH]; intros prevIsWord m H;
    [discriminate|].
  cbn [matchOriginalFrom] in H.
  destruct (negb prevIsWord && prefixIgnoreCase word (String c rest)) eqn:E.
  - assert (Hm : m = takeWordChars (String c rest)) by congruence.
    clear H. rewrite Hm.
    apply andb_true_iff in E. destruct E as [_ E].
    split; [|split].
    + cbn [JSString.includes]. now rewrite prefix_takeWordChars.
    + apply takeWordChars_wordChars.
    + intros Hw. now apply prefixIgnoreCase_takeWordChars.
  - apply IH in H. destruct H as (Hi & Hrest).
    split; [|exact Hrest].
    cbn [JSString.includes]. rewrite Hi. apply orb_true_r.
Qed.

(** X4.  The original form of a token made of word characters always begins
    with the token, ignoring case; it is either the token itself (when the
    text has no word that begins with it) or a run of word characters that
    occurs in the text. *)
Theorem original_form_begins_with_token (word text : string) :
  JSString.forallb JSString.isWordChar word = true ->
  prefixIgnoreCase word (findOriginalForm word text) = true
  /\ (findOriginalForm word text = word
      \/ (JSString.includes text (findOriginalForm word text) = true
          /\ JSString.forallb JSString.isWordChar (findOriginalForm word text)
             = true)).
Proof.
  intros Hw. unfold findOriginalForm.
  destruct (matchOriginalFrom false word text) as [m|] eqn:E.
  - apply matchOriginalFrom_Some in E. destruct E as (Hi & Hm & Hp).
    split; [now apply Hp | right; tauto].
  - split; [apply prefixIgnoreCase_refl | now left].
Qed.

(** ** Ordering by relevance *)

Lemma ascii_compare_refl (a : ascii) : Ascii.compare a a = Eq.
Proof. unfold Ascii.compare. apply N.compare_refl. Qed.

Lemma ascii_compare_Lt_trans (a b c : ascii) :
  Ascii.compare a b = Lt -> Ascii.compare b c = Lt -> Ascii.compare a c = Lt.
Proof.
  unfold Ascii.compare. rewrite !N.compare_lt_iff. apply N.lt_trans.
Qed.

Lemma string_compare_Lt_trans (s1 s2 s3 : string) :
  String.compare s1 s2 = Lt -> String.compare s2 s3 = Lt ->
  String.compare s1 s3 = Lt.
Proof.
  revert s2 s3. induction s1 as [|c1 s1 IH]; intros [|c2 s2] [|c3 s3]; simpl;
    try discriminate; try reflexivity.
  destruct (Ascii.compare c1 c2) eqn:E12; try discriminate;
    destruct (Ascii.compare c2 c3) eqn:E23; try discriminate.
  - apply Ascii.compare_eq_iff in E12, E23. subst.
    rewrite ascii_compare_refl. apply IH.
  - apply Ascii.compare_eq_iff in E12. subst. now rewrite E23.
  - apply Ascii.compare_eq_iff in E23. subst. now rewrite E12.
  - now rewrite (ascii_compare_Lt_trans _ _ _ E12 E23).
Qed.

Lemma string_compare_refl (s : string) : String.compare s s = Eq.
Proof.
  induction s as [|c s IH]; simpl; [reflexivity|].
  now rewrite ascii_compare_refl.
Qed.

Lemma string_leb_cases (a b : string) :
  String.leb a b = true <-> a = b \/ String.compare a b = Lt.
Proof.
  unfold String.leb. split.
  - destruct (String.compare a b) eqn:E; try discriminate.
    + left. now apply String.compare_eq_iff.
    + now right.
  - intros [-> | ->]; [|reflexivity].
    now rewrite string_compare_refl.
Qed.

Lemma string_leb_trans (a b c : string) :
  String.leb a b = true -> String.leb b c = true -> String.leb a c = true.
Proof.
  rewrite !string_leb_cases. intros [-> | H1] [-> | H2]; auto.
  right. eapply string_compare_Lt_trans; eassumption.
Qed.

Lemma string_leb_total (a b : string) :
  String.leb a b = false -> String.leb b a = true.
Proof.
  intros H. destruct (String.leb_total a b); congruence.
Qed.

Lemma sorted_unique {A : Type} (le : A -> A -> bool) (l1 l2 : list A) :
  (forall x y, le x y = true -> le y x = true -> x = y) ->
  StronglySorted (fun a b => le a b = true) l1 ->
  StronglySorted (fun a b => le a b = true) l2 ->
  Permutation l1 l2 -> l1 = l2.
Proof.
  intros anti. revert l2. induction l1 as [|a l1 IH]; intros l2 S1 S2 P.
  - apply Permutation_nil in P. now subst.
  - destruct l2 as [|b l2].
    + apply Permutation_sym, Permutation_nil in P. discriminate.
    + apply StronglySorted_inv in S1, S2.
      destruct S1 as [S1 F1], S2 as [S2 F2].
      rewrite Forall_forall in F1, F2.
      assert (E : a = b).
      { assert (Ha : In a (b :: l2)) by (apply (Permutation_in _ P); now left).
        assert (Hb : In b (a :: l1))
          by (apply (Permutation_in _ (Permutation_sym P)); now left).
        destruct Ha as [<- | Ha]; [reflexivity|].
        destruct Hb as [-> | Hb]; [reflexivity|].
        apply anti; auto. }
      subst b. f_equal. apply IH; try assumption.
      now apply Permutation_cons_inv in P.
Qed.

Lemma StronglySorted_filter {A : Type} (R : A -> A -> Prop) (p : A -> bool)
  (l : list A) :
  StronglySorted R l -> StronglySorted R (List.filter p l).
Proof.
  induction 1 as [|a l Hs IH Ha]; simpl; [constructor|].
  destruct (p a); [|exact IH].
  constructor; [exact IH|].
  rewrite Forall_forall in *. intros x Hx. apply filter_In in Hx. now apply Ha.
Qed.

Lemma sort_of_sorted {A : Type} (le : A -> A -> bool) (l : list A) :
  StronglySorted (fun a b => le a b = true) l -> JSArray.sort le l = l.
Proof.
  induction 1 as [|a l Hs IH Ha]; simpl; [reflexivity|].
  rewrite IH. destruct l as [|b l]; simpl; [reflexivity|].
  apply Forall_inv in Ha. now rewrite Ha.
Qed.

(** A stable sort by level leaves the concepts of each level in their
    order. *)
Lemma insert_level_filter (k : nat) (x : Concept.t) (l : list Concept.t) :
  conceptsAtLevel k
    (JSArray.insert (fun a b => Concept.level a <=? Concept.level b) x l)
  = if Concept.level x =? k then x :: conceptsAtLevel k l
    else conceptsAtLevel k l.
Proof.
  unfold conceptsAtLevel.
  induction l as [|y l IH]; simpl.
  - now destruct (Concept.level x =? k).
  - destruct (Concept.level x <=? Concept.level y) eqn:L; simpl.
    + now destruct (Concept.level x =? k).
    + rewrite IH. apply Nat.leb_gt in L.
      destruct (Nat.eqb_spec (Concept.level x) k) as [Hx | Hx];
        destruct (Nat.eqb_spec (Concept.level y) k) as [Hy | Hy];
        try reflexivity. lia.
Qed.

Lemma sort_level_filter (k : nat) (l : list Concept.t) :
  conceptsAtLevel k
    (JSArray.sort (fun a b => Concept.level a <=? Concept.level b) l)
  = conceptsAtLevel k l.
Proof.
  induction l as [|x l IH]; simpl; [reflexivity|].
  rewrite insert_level_filter, IH. unfold conceptsAtLevel. simpl.
  now destruct (Concept.level x =? k).
Qed.

Lemma get_sorted_groups (t : list (string * list Concept.t)) (k : string) :
  Table.get
    (List.map (fun kv => (fst kv, JSArray.sort byImportanceDesc (snd kv))) t) k
  = option_map (JSArray.sort byImportanceDesc) (Table.get t k).
Proof.
  induction t as [|[k0 v] t IH]; simpl; [reflexivity|].
  now destruct (String.eqb k0 k).
Qed.

Lemma get_None_not_key {V : Type} (t : list (string * V)) (k : string) :
  Table.get t k = None <-> ~ In k (List.map fst t).
Proof.
  induction t as [|[k0 v] t IH]; simpl; [tauto|].
  destruct (String.eqb_spec k0 k) as [-> | N].
  - split; [discriminate | tauto].
  - rewrite IH. tauto.
Qed.

Lemma pushLevel_keys_In (l : list Concept.t)
  (t : list (string * list Concept.t)) (k : string) :
  In k (List.map fst (fold_left pushLevel l t))
  <-> In k (List.map fst t)
      \/ In k (List.map (fun c => JSString.ofNat (Concept.level c)) l).
Proof.
  revert t. induction l as [|c l IH]; intros t; simpl; [tauto|].
  rewrite IH. unfold pushLevel. rewrite update_keys.
  destruct (JSArray.has (List.map fst t) (JSString.ofNat (Concept.level c)))
    eqn:H.
  - apply has_In in H. split; [tauto|].
    intros [Hk | [<- | Hk]]; tauto.
  - rewrite in_app_iff. simpl. tauto.
Qed.

Lemma flat_map_filter_nil {A B : Type} (f : A -> list B) (p : A -> bool)
  (l : list A) :
  (forall x, In x l -> p x = false -> f x = []) ->
  flat_map f (List.filter p l) = flat_map f l.
Proof.
  induction l as [|x l IH]; simpl; intros H; [reflexivity|].
  destruct (p x) eqn:E; simpl.
  - rewrite IH; [reflexivity|]. intros y Hy. apply H. now right.
  - rewrite (H x (or_introl eq_refl) E). simpl.
    apply IH. intros y Hy. apply H. now right.
Qed.

Lemma sortConceptsByRelevance_by_level (concepts : list Concept.t) :
  (forall c, In c concepts -> Concept.level c < 10) ->
  sortConceptsByRelevance concepts
  = flat_map
      (fun level =>
         JSArray.sort byImportanceDesc (conceptsAtLevel level concepts))
      (seq 0 10).
Proof.
  intros Hlevels. unfold sortConceptsByRelevance.
  set (sortedByLevel :=
         JSArray.sort (fun a b => Concept.level a <=? Concept.level b) concepts).
  set (levels := fold_left pushLevel sortedByLevel []).
  set (levels' :=
         List.map (fun kv => (fst kv, JSArray.sort byImportanceDesc (snd kv)))
                  levels).
  set (G := fun k => match Table.get levels' k with
                     | Some l => l
                     | None => []
                     end).
  set (digits := List.map JSString.ofNat (seq 0 10)).
  assert (Hkeys' : List.map fst levels' = List.map fst levels)
    by (unfold levels'; rewrite map_map; reflexivity).
  assert (Hnd : NoDup (List.map fst levels))
    by (apply fold_pushLevel_groups; constructor).
  assert (Hin : forall k, In k (List.map fst levels) -> In k digits).
  { intros k Hk. apply pushLevel_keys_In in Hk. destruct Hk as [[] | Hk].
    apply in_map_iff in Hk. destruct Hk as (c & <- & Hc).
    apply in_map, in_seq.
    apply (Permutation_in _ (sort_perm _ _)) in Hc.
    specialize (Hlevels c Hc). lia. }
  assert (Hsorted :
            JSArray.sort String.leb (Table.keys levels')
            = List.filter (JSArray.has (List.map fst levels)) digits).
  { apply (sorted_unique String.leb).
    - apply String.leb_antisym.
    - apply sort_sorted; [apply string_leb_total | apply string_leb_trans].
    - apply StronglySorted_filter. vm_compute.
      repeat (constructor; [|repeat constructor]). constructor.
    - rewrite sort_perm, keys_perm, Hkeys'.
      apply NoDup_Permutation; [exact Hnd | |].
      + apply NoDup_filter.
        apply (Finite.Injective_map_NoDup (f := JSString.ofNat)).
        * intros a b. apply ofNat_inj.
        * apply seq_NoDup.
      + intros k. rewrite filter_In, has_In. split; [|tauto].
        intros Hk. split; [now apply Hin | exact Hk]. }
  rewrite Hsorted.
  rewrite flat_map_filter_nil.
  - unfold digits. rewrite flat_map_concat_map, map_map, <- flat_map_concat_map.
    apply flat_map_agree. intros k _.
    unfold G, levels'. rewrite get_sorted_groups.
    pose proof (atLevel_fold sortedByLevel [] k) as Hat.
    unfold atLevel in Hat. fold levels in Hat. simpl in Hat.
    fold (conceptsAtLevel k sortedByLevel) in Hat.
    unfold sortedByLevel in Hat. rewrite sort_level_filter in Hat.
    destruct (Table.get levels (JSString.ofNat k)); simpl; now rewrite <- Hat.
  - intros k _ Hk. unfold G.
    assert (N : Table.get levels' k = None).
    { apply get_None_not_key. rewrite Hkeys'. intros Hin'.
      apply has_In in Hin'. congruence. }
    now rewrite N.
Qed.

(** X5.  Ordering by relevance returns a permutation of its input: for
    concepts of levels below ten, the concepts grouped by increasing level
    and, inside each level, by decreasing importance, concepts of the same
    level and importance keeping their order. *)
Theorem sortConceptsByRelevance_groups_by_level (concepts : list Concept.t) :
  (forall c, In c concepts -> Concept.level c < 10) ->
  Permutation (sortConceptsByRelevance concepts) concepts
  /\ sortConceptsByRelevance concepts
     = flat_map
         (fun level =>
            JSArray.sort byImportanceDesc (conceptsAtLevel level concepts))
         (seq 0 10).
Proof.
  intros Hlevels. split; [apply sortConceptsByRelevance_perm|].
  now apply sortConceptsByRelevance_by_level.
Qed.

(** ** Stage 1 keeps the extraction order *)

Lemma mapi_from_In {A B : Type} (f : nat -> A -> B) (s : nat) (l : list A)
  (b : B) :
  In b (mapi_from f s l) -> exists j x, s <= j /\ In x l /\ b = f j x.
Proof.
  revert s. induction l as [|x l IH]; intros s; simpl; [tauto|].
  intros [<- | H].
  - exists s, x. split; [lia | tauto].
  - destruct (IH _ H) as (j & y & Hj & Hy & ->).
    exists j, y. split; [lia | tauto].
Qed.

Lemma mapi_from_sorted {A B : Type} (P : A -> A -> Prop) (R : B -> B -> Prop)
  (f : nat -> A -> B) (s : nat) (l : list A) :
  (forall i j x y, i < j -> P x y -> R (f i x) (f j y)) ->
  StronglySorted P l -> StronglySorted R (mapi_from f s l).
Proof.
  intros Hf Hs. revert s. induction Hs as [|x l Hs IH Hx]; intros s; simpl;
    constructor.
  - apply IH.
  - rewrite Forall_forall in *. intros b Hb.
    apply mapi_from_In in Hb. destruct Hb as (j & y & Hj & Hy & ->).
    apply Hf; [lia | now apply Hx].
Qed.

Lemma StronglySorted_firstn {A : Type} (R : A -> A -> Prop) (n : nat)
  (l : list A) :
  StronglySorted R l -> StronglySorted R (firstn n l).
Proof.
  intros H. rewrite <- (firstn_skipn n l) in H.
  now apply StronglySorted_app_inv in H.
Qed.

Lemma Qmin'_monotone (a b c : Q) : (a <= b -> Qmin' a c <= Qmin' b c)%Q.
Proof.
  intros H. unfold Qmin'.
  destruct (Qle_bool a c) eqn:Ea, (Qle_bool b c) eqn:Eb.
  - exact H.
  - now apply Qle_bool_iff in Ea.
  - apply Qle_trans with a; [|exact H].
    apply Qlt_le_weak, Qnot_le_lt. intros L. apply Qle_bool_iff in L. congruence.
  - apply Qle_refl.
Qed.

Lemma levelOfRank_monotone (i j : nat) :
  i < j ->
  (if i <? 3 then 0 else if i <? 8 then 1 else 2)
  <= (if j <? 3 then 0 else if j <? 8 then 1 else 2).
Proof.
  intros H.
  destruct (Nat.ltb_spec i 3), (Nat.ltb_spec j 3), (Nat.ltb_spec i 8),
    (Nat.ltb_spec j 8); lia.
Qed.

Lemma extraction_sorted (text : string) :
  StronglySorted (fun a b => byImportanceDesc a b = true)
                 (extractMainConcepts text)
  /\ StronglySorted (fun a b => Concept.level a <= Concept.level b)
                    (extractMainConcepts text).
Proof.
  unfold extractMainConcepts, mapi.
  pose proof (StronglySorted_firstn _ 15 _ (sortedWords_sorted text)) as Hs.
  pose proof (splitRuns_nonempty JSString.isSpace text EmptyString false) as L.
  fold (JSString.split JSString.isSpace text) in L.
  split.
  - refine (mapi_from_sorted _ _ _ _ _ _ Hs).
    intros i j x y Hij Hxy. unfold byImportanceDesc, makeConcept.
    cbn [Concept.importance]. apply Qle_bool_iff, Qmin'_monotone.
    unfold occurrences in Hxy.
    set (wf := wordFrequencyOf (JSString.split JSString.isSpace text)) in *.
    assert (Hf : (ofNatQ (frequencyOf wf y) <= ofNatQ (frequencyOf wf x))%Q)
      by now apply ofNatQ_le.
    assert (Hl : (0 < ofNatQ (length (JSString.split JSString.isSpace text)))%Q)
      by (apply ofNatQ_pos; lia).
    assert (Hr : (inject_Z (15 - Z.of_nat j) <= inject_Z (15 - Z.of_nat i))%Q)
      by (rewrite <- Zle_Qle; lia).
    apply Qplus_le_compat.
    + apply Qmult_le_compat_r; [|discriminate].
      apply Qmult_le_compat_r; [exact Hf|].
      apply Qlt_le_weak, Qinv_lt_0_compat, Hl.
    + apply Qmult_le_compat_r; [exact Hr | discriminate].
  - refine (mapi_from_sorted _ _ _ _ _ _ Hs).
    intros i j x y Hij _. unfold makeConcept. cbn [Concept.level].
    now apply levelOfRank_monotone.
Qed.

Lemma filter_all {A : Type} (p : A -> bool) (l : list A) :
  (forall x, In x l -> p x = true) -> List.filter p l = l.
Proof.
  induction l as [|x l IH]; simpl; intros H; [reflexivity|].
  rewrite (H x (or_introl eq_refl)). f_equal. apply IH. auto.
Qed.

Lemma filter_none {A : Type} (p : A -> bool) (l : list A) :
  (forall x, In x l -> p x = false) -> List.filter p l = [].
Proof.
  induction l as [|x l IH]; simpl; intros H; [reflexivity|].
  rewrite (H x (or_introl eq_refl)). apply IH. auto.
Qed.

Lemma split_at_level (s : nat) (l : list Concept.t) :
  StronglySorted (fun a b => Concept.level a <= Concept.level b) l ->
  (forall c, In c l -> s <= Concept.level c) ->
  l = conceptsAtLevel s l ++ List.filter (fun c => s <? Concept.level c) l.
Proof.
  unfold conceptsAtLevel.
  induction 1 as [|a l Hs IH Ha]; intros Hlow; [reflexivity|].
  rewrite Forall_forall in Ha. simpl.
  destruct (Nat.eqb_spec (Concept.level a) s) as [E | N].
  - assert (L : (s <? Concept.level a) = false) by (apply Nat.ltb_ge; lia).
    rewrite L. simpl. f_equal. apply IH. intros c Hc. apply Hlow. now right.
  - assert (L : (s <? Concept.level a) = true).
    { apply Nat.ltb_lt. specialize (Hlow a (or_introl eq_refl)). lia. }
    rewrite L.
    rewrite filter_none, filter_all; [reflexivity | |].
    + intros c Hc. apply Nat.ltb_lt. apply Nat.ltb_lt in L.
      specialize (Ha c Hc). lia.
    + intros c Hc. apply Nat.eqb_neq. apply Nat.ltb_lt in L.
      specialize (Ha c Hc). lia.
Qed.

Lemma levels_partition (n s : nat) (l : list Concept.t) :
  StronglySorted (fun a b => Concept.level a <= Concept.level b) l ->
  (forall c, In c l -> s <= Concept.level c < s + n) ->
  flat_map (fun k => conceptsAtLevel k l) (seq s n) = l.
Proof.
  revert s l. induction n as [|n IH]; intros s l Hs Hr; simpl.
  - destruct l as [|c l]; [reflexivity|].
    specialize (Hr c (or_introl eq_refl)). lia.
  - transitivity (conceptsAtLevel s l
                   ++ List.filter (fun c => s <? Concept.level c) l);
      [|symmetry; apply (split_at_level s l Hs);
        intros c Hc; apply Hr, Hc].
    f_equal.
    rewrite <- (IH (S s) (List.filter (fun c => s <? Concept.level c) l)).
    + apply flat_map_agree. intros k Hk. apply in_seq in Hk.
      unfold conceptsAtLevel.
      induction l as [|c l IHl]; simpl; [reflexivity|].
      apply StronglySorted_inv in Hs. destruct Hs as [Hs _].
      assert (Hr' : forall c, In c l -> s <= Concept.level c < s + S n)
        by (intros c' Hc'; apply Hr; now right).
      specialize (IHl Hs Hr').
      destruct (Nat.eqb_spec (Concept.level c) k) as [E | N];
        destruct (Nat.ltb_spec s (Concept.level c)) as [L | L]; simpl;
        rewrite ?E, ?Nat.eqb_refl; try (now rewrite IHl); try lia.
      destruct (Nat.eqb_spec (Concept.level c) k); [contradiction|].
      exact IHl.
    + now apply StronglySorted_filter.
    + intros c Hc. apply filter_In in Hc. destruct Hc as [Hc L].
      apply Nat.ltb_lt in L. specialize (Hr c Hc). lia.
Qed.

Lemma step1_concepts (text : string) (result : Result.t) :
  Result.concepts (step1_OrganizeAndHierarchize text result)
  = extractMainConcepts text.
Proof.
  cbn [step1_OrganizeAndHierarchize Result.concepts].
  destruct (extraction_sorted text) as [Himp Hlev].
  assert (Hlt : forall c, In c (extractMainConcepts text) ->
                          0 <= Concept.level c < 0 + 10).
  { intros c Hc. apply In_nth_error in Hc. destruct Hc as (i & Hi).
    apply extract_nth_error in Hi. destruct Hi as (_ & w & _ & ->).
    unfold makeConcept. cbn [Concept.level].
    destruct (i <? 3), (i <? 8); lia. }
  rewrite sortConceptsByRelevance_by_level by (intros c Hc; apply Hlt, Hc).
  transitivity (flat_map (fun k => conceptsAtLevel k (extractMainConcepts text))
                         (seq 0 10));
    [|exact (levels_partition 10 0 _ Hlev Hlt)].
  apply flat_map_agree. intros k _.
  apply sort_of_sorted. now apply StronglySorted_filter.
Qed.

(** X6.  For an ASCII text of which no word cleans to [constructor] or
    [__proto__], the ordering step of stage 1 changes nothing on the
    extracted concepts: the concepts that stage 1 stores are the extracted
    ones in the order of extraction, which already come by non-increasing
    importance and by non-decreasing level. *)
Theorem step1_keeps_extraction_order (text : string) (result : Result.t) :
  plainText text = true ->
  Result.concepts (step1_OrganizeAndHierarchize text result)
  = extractMainConcepts text
  /\ StronglySorted (fun a b => (Concept.importance b <= Concept.importance a)%Q)
                    (extractMainConcepts text)
  /\ StronglySorted (fun a b => Concept.level a <= Concept.level b)
                    (extractMainConcepts text).
Proof.
  intros _. split; [apply step1_concepts|].
  destruct (extraction_sorted text) as [Himp Hlev]. split; [|exact Hlev].
  refine (StronglySorted_weaken _ _ _ _ Himp).
  intros a b H. now apply Qle_bool_iff.
Qed.

(** ** Classification and weighting of relationships *)

Lemma classifyOne_types (rnd : nat -> nat) (rel : Relationship.t) (k : nat) :
  let r := fst (classifyOne rnd rel k) in
  (exists ty, In ty (typesFor (Relationship.strength rel))
              /\ Relationship.type r = fst ty
              /\ Relationship.semanticCategory r = Some (snd ty))
  /\ Relationship.id r = Relationship.id rel
  /\ Relationship.source r = Relationship.source rel
  /\ Relationship.target r = Relationship.target rel
  /\ Relationship.strength r = Relationship.strength rel
  /\ Relationship.sharedSentences r = Relationship.sharedSentences rel
  /\ Relationship.visualWeight r = Relationship.visualWeight rel
  /\ Relationship.lineStyle r = Relationship.lineStyle rel.
Proof.
  unfold classifyOne, chooseTypeIndex, typesFor, Rand.bind, Rand.ret, random3.
  pose proof (Nat.mod_upper_bound (rnd k) 3 ltac:(discriminate)) as Hm.
  destruct (Qle_bool 4 (Relationship.strength rel));
    [|destruct (Qle_bool 2 (Relationship.strength rel))];
    cbn [fst snd Relationship.id Relationship.source Relationship.target
         Relationship.type Relationship.strength Relationship.sharedSentences
         Relationship.semanticCategory Relationship.visualWeight
         Relationship.lineStyle].
  - split; [|repeat split].
    destruct (rnd k mod 3) as [|[|[|n]]]; [| | |lia];
      [exists ("es parte de", "pertenencia")
      |exists ("causa", "causalidad")
      |exists ("es un tipo de", "clasificación")];
      simpl; tauto.
  - split; [|repeat split].
    destruct (rnd k mod 3) as [|[|[|n]]]; [| | |lia];
      [exists ("influye en", "influencia")
      |exists ("se relaciona con", "asociación")
      |exists ("precede a", "secuencia")];
      simpl; tauto.
  - split; [|repeat split].
    exists ("se relaciona con", "asociación"). simpl. tauto.
Qed.

Lemma mapM_cons {A B : Type} (f : A -> Rand.t B) (x : A) (l : list A)
  (k : nat) :
  fst (Rand.mapM f (x :: l) k)
  = fst (f x k) :: fst (Rand.mapM f l (snd (f x k))).
Proof.
  simpl. unfold Rand.bind, Rand.ret.
  destruct (f x k) as [y k1]. cbn [fst snd].
  destruct (Rand.mapM f l k1) as [ys k2]. reflexivity.
Qed.

Lemma classify_Forall2
  (rnd : nat -> nat) (relationships : list Relationship.t) (k : nat) :
  Forall2
    (fun rel r =>
       (exists ty, In ty (typesFor (Relationship.strength rel))
                   /\ Relationship.type r = fst ty
                   /\ Relationship.semanticCategory r = Some (snd ty))
       /\ Relationship.id r = Relationship.id rel
       /\ Relationship.source r = Relationship.source rel
       /\ Relationship.target r = Relationship.target rel
       /\ Relationship.strength r = Relationship.strength rel
       /\ Relationship.sharedSentences r = Relationship.sharedSentences rel
       /\ Relationship.visualWeight r = Relationship.visualWeight rel
       /\ Relationship.lineStyle r = Relationship.lineStyle rel)
    relationships (fst (classifyRelationshipTypes rnd relationships k)).
Proof.
  unfold classifyRelationshipTypes. revert k.
  induction relationships as [|rel l IH]; intros k; [constructor|].
  rewrite mapM_cons. constructor; [|apply IH].
  apply classifyOne_types.
Qed.

Lemma Forall2_impl {A B : Type} (P Q : A -> B -> Prop) (l : list A)
  (l' : list B) :
  (forall a b, P a b -> Q a b) -> Forall2 P l l' -> Forall2 Q l l'.
Proof.
  intros H HP. induction HP; constructor; auto.
Qed.

(** X7.  The classification keeps every relationship and its order, changes
    only the type and the semantic category, and chooses them by strength:
    [es parte de], [causa] or [es un tipo de] from strength 4, [influye en],
    [se relaciona con] or [precede a] from strength 2, [se relaciona con]
    below; it never assigns [contiene], [requiere] or [se opone a]. *)
Theorem classification_follows_strength
  (rnd : nat -> nat) (relationships : list Relationship.t) (k : nat) :
  Forall2
    (fun rel r =>
       (exists ty, In ty (typesFor (Relationship.strength rel))
                   /\ Relationship.type r = fst ty
                   /\ Relationship.semanticCategory r = Some (snd ty))
       /\ ~ In (Relationship.type r) ["contiene"; "requiere"; "se opone a"]
       /\ Relationship.id r = Relationship.id rel
       /\ Relationship.source r = Relationship.source rel
       /\ Relationship.target r = Relationship.target rel
       /\ Relationship.strength r = Relationship.strength rel
       /\ Relationship.sharedSentences r = Relationship.sharedSentences rel
       /\ Relationship.visualWeight r = Relationship.visualWeight rel
       /\ Relationship.lineStyle r = Relationship.lineStyle rel)
    relationships (fst (classifyRelationshipTypes rnd relationships k)).
Proof.
  refine (Forall2_impl _ _ _ _ _ (classify_Forall2 rnd relationships k)).
  intros rel r [(ty & Hty & Ht & Hc) Hrest].
  split; [exists ty; tauto|]. split; [|exact Hrest].
  rewrite Ht. unfold typesFor in Hty.
  destruct (Qle_bool 4 (Relationship.strength rel));
    [|destruct (Qle_bool 2 (Relationship.strength rel))];
    simpl in Hty; intuition (subst; simpl in *; intuition discriminate).
Qed.

Lemma Forall2_Forall_l {A B : Type} (P : A -> B -> Prop) (Q : A -> Prop)
  (R : B -> Prop) (l : list A) (l' : list B) :
  (forall a b, Q a -> P a b -> R b) ->
  Forall Q l -> Forall2 P l l' -> Forall R l'.
Proof.
  intros H HQ HP. induction HP as [|a b l l' Hab _ IH]; constructor.
  - apply (H a b); [now inversion HQ | exact Hab].
  - apply IH. now inversion HQ.
Qed.

Lemma identify_strengths (text : string) (concepts : list Concept.t) :
  Forall (fun rel =>
            1 <= Relationship.sharedSentences rel
            /\ Relationship.strength rel
               = ofNatQ (Nat.min (Relationship.sharedSentences rel + 1) 5)
            /\ Relationship.visualWeight rel = None)
         (identifyConceptRelationships text concepts).
Proof.
  apply Forall_forall. intros r Hr. apply identify_In in Hr.
  destruct Hr as (s & t & _ & _ & _ & Hn & ->). simpl. repeat split. lia.
Qed.

Lemma engine_edges
  (rnd : nat -> nat) (text : string) (concepts : list Concept.t) (k : nat) :
  Forall
    (fun r =>
       1 <= Relationship.sharedSentences r
       /\ Relationship.visualWeight r
          = Some (Qceiling (Relationship.strength r))
       /\ if 3 <=? Relationship.sharedSentences r then
            In (Relationship.type r) ["es parte de"; "causa"; "es un tipo de"]
            /\ (Relationship.strength r == 5)%Q
          else
            In (Relationship.type r)
               ["influye en"; "se relaciona con"; "precede a"]
            /\ (Relationship.strength r
                == ofNatQ (Relationship.sharedSentences r + 1)
                   * typeWeightOf (Relationship.type r))%Q
            /\ (1.6 <= Relationship.strength r <= 3.3)%Q)
    (fst (analyzeRelationships rnd text concepts k)).
Proof.
  unfold analyzeRelationships, Rand.bind, Rand.ret.
  pose proof (classify_Forall2 rnd
                (identifyConceptRelationships text concepts) k) as H2.
  destruct (classifyRelationshipTypes rnd
              (identifyConceptRelationships text concepts) k)
    as [typed k'] eqn:E.
  cbn [fst] in *. unfold assignRelationshipStrength.
  apply Forall_map.
  refine (Forall2_Forall_l _ _ _ _ _ _ (identify_strengths text concepts) H2).
  clear. intros rel r (Hn & Hs & _) ((ty & Hty & Ht & _) & _ & _ & _ & Hst & Hsh & _).
  unfold adjustStrength.
  cbn [Relationship.sharedSentences Relationship.visualWeight
       Relationship.type Relationship.strength].
  rewrite Hsh, Ht, Hst, Hs. rewrite Hs in Hty. clear Hs Hst Hsh Ht r.
  split; [exact Hn|]. split; [reflexivity|].
  destruct (Relationship.sharedSentences rel) as [|[|[|[|n]]]]; [lia| | | |].
  - vm_compute in Hty. destruct Hty as [<- | [<- | [<- | []]]];
      vm_compute; intuition discriminate.
  - vm_compute in Hty. destruct Hty as [<- | [<- | [<- | []]]];
      vm_compute; intuition discriminate.
  - vm_compute in Hty. destruct Hty as [<- | [<- | [<- | []]]];
      vm_compute; intuition discriminate.
  - replace (Nat.min (S (S (S (S n))) + 1) 5) with 5 in * by lia.
    vm_compute in Hty. destruct Hty as [<- | [<- | [<- | []]]];
      vm_compute; intuition discriminate.
Qed.

(** X8.  Whatever [Math.random] draws, every relationship that the engine
    returns for a text rests on at least one shared sentence and carries the
    ceiling of its strength as visual weight.  With three shared sentences
    or more its type is [es parte de], [causa] or [es un tipo de] and its
    strength is 5; with one or two its type is [influye en],
    [se relaciona con] or [precede a], its strength is within a billionth
    (the rounding of the product is not modelled) of the number of shared
    sentences plus one, times the weight of the type, at least 1.6 and
    below 3.4, and its ceiling is the number of shared sentences plus one,
    and one more for [precede a].  The branch for strengths below 2 is
    never taken. *)
Theorem engine_strength_by_shared_sentences
  (rnd : nat -> nat) (text : string) (concepts : list Concept.t) (k : nat) :
  Forall
    (fun r =>
       1 <= Relationship.sharedSentences r
       /\ Relationship.visualWeight r
          = Some (Qceiling (Relationship.strength r))
       /\ if 3 <=? Relationship.sharedSentences r then
            In (Relationship.type r) ["es parte de"; "causa"; "es un tipo de"]
            /\ (Relationship.strength r == 5)%Q
          else
            In (Relationship.type r)
               ["influye en"; "se relaciona con"; "precede a"]
            /\ (ofNatQ (Relationship.sharedSentences r + 1)
                * typeWeightOf (Relationship.type r) - (1 # 1000000000)
                <= Relationship.strength r
                <= ofNatQ (Relationship.sharedSentences r + 1)
                   * typeWeightOf (Relationship.type r) + (1 # 1000000000))%Q
            /\ (1.6 <= Relationship.strength r < 3.4)%Q
            /\ Qceiling (Relationship.strength r)
               = (Z.of_nat (Relationship.sharedSentences r + 1)
                  + if String.eqb (Relationship.type r) "precede a"
                    then 1 else 0)%Z)
    (fst (analyzeRelationships rnd text concepts k)).
Proof.
  pose proof (engine_edges rnd text concepts k) as H.
  revert H. apply Forall_impl. intros r (Hn & Hv & H).
  split; [exact Hn|]. split; [exact Hv|].
  destruct (Nat.leb_spec 3 (Relationship.sharedSentences r)) as [Hs | Hs];
    [exact H|].
  destruct H as (Ht & He & Hlo & Hhi). split; [exact Ht|].
  split; [rewrite He; split; lra|].
  split; [split; [exact Hlo | lra]|].
  assert (Hc : Qceiling (Relationship.strength r)
               = Qceiling (ofNatQ (Relationship.sharedSentences r + 1)
                           * typeWeightOf (Relationship.type r)))
    by (apply Qceiling_comp, He).
  rewrite Hc. clear Hc He Hlo Hhi Hv.
  destruct (Relationship.sharedSentences r) as [|[|[|n]]]; [lia| | |lia];
    simpl in Ht; destruct Ht as [<- | [<- | [<- | []]]];
    vm_compute; reflexivity.
Qed.

(** ** Semantic enrichment *)

Lemma generated_definition_truthy (c : Concept.t) :
  (0 <= Concept.importance c)%Q ->
  JSString.truthy (generateConciseDefinition c) = true.
Proof.
  intros Hi. unfold generateConciseDefinition.
  assert (Hf : (0 <= Qfloor (Concept.importance c))%Z).
  { change 0%Z with (Qfloor 0). now apply Qfloor_resp_le. }
  set (z := (Z.of_nat (Concept.level c) + Qfloor (Concept.importance c))%Z).
  assert (Hz : (0 <= z)%Z) by (unfold z; lia).
  pose proof (Z.rem_bound_pos z 4 Hz ltac:(lia)) as Hr.
  destruct (Z.ltb_spec (Z.rem z 4) 0) as [L | _]; [lia|].
  assert (Hn : Z.to_nat (Z.rem z 4) < 4) by lia.
  destruct (Z.to_nat (Z.rem z 4)) as [|[|[|[|n]]]]; [| | |  |lia];
    try reflexivity.
Qed.

Lemma generators_fields (i n o : string) (imp : Q) (f l : nat) (fo : Z)
  (cr : bool) d e r k fm d' e' r' k' fm' :
  generateConciseDefinition (Concept.mk i n o imp f l fo cr d e r k fm)
  = generateConciseDefinition (Concept.mk i n o imp f l fo cr d' e' r' k' fm')
  /\ findRelevantExamples (Concept.mk i n o imp f l fo cr d e r k fm)
     = findRelevantExamples (Concept.mk i n o imp f l fo cr d' e' r' k' fm')
  /\ identifyRelatedTerms (Concept.mk i n o imp f l fo cr d e r k fm)
     = identifyRelatedTerms (Concept.mk i n o imp f l fo cr d' e' r' k' fm')
  /\ classifyConcept (Concept.mk i n o imp f l fo cr d e r k fm)
     = classifyConcept (Concept.mk i n o imp f l fo cr d' e' r' k' fm').
Proof.
  repeat split.
Qed.

Lemma generators_bare (c : Concept.t) :
  generateConciseDefinition (bare c) = generateConciseDefinition c
  /\ findRelevantExamples (bare c) = findRelevantExamples c
  /\ identifyRelatedTerms (bare c) = identifyRelatedTerms c
  /\ classifyConcept (bare c) = classifyConcept c.
Proof.
  destruct c. apply generators_fields.
Qed.

Lemma enrich_fields (c : Concept.t) :
  bare (enrich c) = bare c
  /\ Concept.formatting (enrich c) = Concept.formatting c
  /\ Concept.definition (enrich c)
     = (if JSString.truthy (Concept.definition c) then Concept.definition c
        else generateConciseDefinition c)
  /\ Concept.examples (enrich c)
     = Some (match Concept.examples c with
             | Some examples => examples
             | None => findRelevantExamples c
             end)
  /\ Concept.relatedTerms (enrich c)
     = Some (match Concept.relatedTerms c with
             | Some relatedTerms => relatedTerms
             | None => identifyRelatedTerms c
             end)
  /\ Concept.classification (enrich c)
     = Some (match Concept.classification c with
             | Some classification => classification
             | None => classifyConcept c
             end).
Proof.
  destruct c as [i n o imp f l fo cr d e r k fm].
  unfold enrich.
  destruct d as [[|a d]|], e as [e|], r as [r|], k as [k|];
    cbn [Concept.definition Concept.examples Concept.relatedTerms
         Concept.classification Concept.formatting JSString.truthy negb
         Concept.setDefinition Concept.setExamples Concept.setRelatedTerms
         Concept.setClassification Concept.id Concept.name
         Concept.originalForm Concept.importance Concept.frequency
         Concept.level Concept.firstOccurrence Concept.isCritical bare].
  all: (split; [reflexivity|]; split; [reflexivity|]; split; [reflexivity|]).
  all: (split; [try reflexivity; apply f_equal, generators_fields|]).
  all: (split; [try reflexivity; apply f_equal, generators_fields|]).
  all: (try reflexivity; apply f_equal, generators_fields).
Qed.

Lemma concept_eq (a b : Concept.t) :
  bare a = bare b ->
  Concept.definition a = Concept.definition b ->
  Concept.examples a = Concept.examples b ->
  Concept.relatedTerms a = Concept.relatedTerms b ->
  Concept.classification a = Concept.classification b ->
  Concept.formatting a = Concept.formatting b ->
  a = b.
Proof.
  destruct a, b. unfold bare. cbn. intros H -> -> -> -> ->.
  injection H as -> -> -> -> -> -> -> ->. reflexivity.
Qed.

Lemma enrich_twice (c : Concept.t) : enrich (enrich c) = enrich c.
Proof.
  destruct (enrich_fields c) as (Hb & Hf & Hd & He & Hr & Hk).
  destruct (enrich_fields (enrich c)) as (Hb' & Hf' & Hd' & He' & Hr' & Hk').
  destruct (generators_bare c) as (G & _).
  destruct (generators_bare (enrich c)) as (G' & _).
  apply concept_eq.
  - exact Hb'.
  - rewrite Hd'. rewrite <- G', Hb, G. rewrite Hd.
    destruct (JSString.truthy (Concept.definition c)) eqn:T; [now rewrite T|].
    now destruct (JSString.truthy (generateConciseDefinition c)).
  - rewrite He', He. reflexivity.
  - rewrite Hr', Hr. reflexivity.
  - rewrite Hk', Hk. reflexivity.
  - exact Hf'.
Qed.

(** X9.  Enriching a concept a second time changes nothing.  Enrichment
    keeps the identity of the concept (id, name, original form, importance,
    frequency, level, first occurrence, critical flag, formatting) and every
    example list, related-term list and classification that is already
    present; it replaces a definition only when that is missing or empty. *)
Theorem enrichment_is_idempotent (c : Concept.t) :
  enrich (enrich c) = enrich c
  /\ bare (enrich c) = bare c
  /\ Concept.formatting (enrich c) = Concept.formatting c
  /\ Concept.definition (enrich c)
     = (if JSString.truthy (Concept.definition c) then Concept.definition c
        else generateConciseDefinition c)
  /\ Concept.examples (enrich c)
     = Some (match Concept.examples c with
             | Some examples => examples
             | None => findRelevantExamples c
             end)
  /\ Concept.relatedTerms (enrich c)
     = Some (match Concept.relatedTerms c with
             | Some relatedTerms => relatedTerms
             | None => identifyRelatedTerms c
             end)
  /\ Concept.classification (enrich c)
     = Some (match Concept.classification c with
             | Some classification => classification
             | None => classifyConcept c
             end).
Proof.
  split; [apply enrich_twice | apply enrich_fields].
Qed.

Lemma extracted_In (text : string) (c : Concept.t) :
  In c (extractMainConcepts text) ->
  exists i w,
    i < 15
    /\ c = makeConcept text
             (length (JSString.split JSString.isSpace text))
             (wordFrequencyOf (JSString.split JSString.isSpace text)) i w.
Proof.
  intros H. apply In_nth_error in H. destruct H as (i & H).
  apply extract_nth_error in H. destruct H as (Hi & w & _ & ->).
  now exists i, w.
Qed.

(** X10.  After stage 3, every concept that stage 1 extracted from an
    ASCII text of which no word cleans to [constructor] or [__proto__]
    carries a non-empty definition, three examples at level 0, two at level
    1 and one at level 2, the two related terms and the category of its
    level; its id, name, importance and level are the extracted ones. *)
Theorem stage3_fills_extracted_concepts (text : string) :
  plainText text = true ->
  Forall2
    (fun c e =>
       Concept.id e = Concept.id c
       /\ Concept.name e = Concept.name c
       /\ Concept.importance e = Concept.importance c
       /\ Concept.level e = Concept.level c
       /\ JSString.truthy (Concept.definition e) = true
       /\ option_map (@length string) (Concept.examples e)
          = Some (3 - Concept.level c)
       /\ 1 <= 3 - Concept.level c
       /\ Concept.relatedTerms e
          = Some [ ("Término relacionado con " ++ Concept.name c)%string;
                   "Sinónimo contextual" ]
       /\ Concept.classification e
          = Some (nth (Concept.level c)
                      [ "Concepto principal"; "Concepto secundario";
                        "Concepto terciario" ] "",
                  "General"))
    (extractMainConcepts text)
    (Result.concepts
       (step3_EnrichSemantically text
          (step1_OrganizeAndHierarchize text (emptyResult text)))).
Proof.
  intros _.
  cbn [step3_EnrichSemantically Result.concepts]. rewrite step1_concepts.
  assert (H : Forall (fun c => In c (extractMainConcepts text))
                     (extractMainConcepts text))
    by (apply Forall_forall; auto).
  induction H as [|c l Hc _ IH]; simpl; constructor; [|exact IH].
  destruct (enrich_fields c) as (Hb & _ & Hd & He & Hr & Hk).
  apply extracted_In in Hc. destruct Hc as (i & w & Hi & E).
  pose proof (rawImportance_lower text w i Hi) as Hraw.
  assert (Himp : (0 <= Concept.importance c)%Q).
  { rewrite E. unfold makeConcept. cbn [Concept.importance].
    apply Qle_trans with (1 # 3); [discriminate|].
    apply Qmin'_bounds; [exact Hraw | discriminate]. }
  pose proof (generated_definition_truthy _ Himp) as Hg.
  assert (E1 : Concept.definition c = None) by now rewrite E.
  assert (E2 : Concept.examples c = None) by now rewrite E.
  assert (E3 : Concept.relatedTerms c = None) by now rewrite E.
  assert (E4 : Concept.classification c = None) by now rewrite E.
  assert (Hl : Concept.level c = 0 \/ Concept.level c = 1
               \/ Concept.level c = 2).
  { rewrite E. unfold makeConcept. cbn [Concept.level].
    destruct (i <? 3); [tauto|]. destruct (i <? 8); tauto. }
  rewrite E1 in Hd. rewrite E2 in He. rewrite E3 in Hr. rewrite E4 in Hk.
  cbn [JSString.truthy] in Hd.
  split; [change (Concept.id (bare (enrich c)) = Concept.id (bare c));
          now rewrite Hb|].
  split; [change (Concept.name (bare (enrich c)) = Concept.name (bare c));
          now rewrite Hb|].
  split; [change (Concept.importance (bare (enrich c))
                  = Concept.importance (bare c)); now rewrite Hb|].
  split; [change (Concept.level (bare (enrich c)) = Concept.level (bare c));
          now rewrite Hb|].
  split; [now rewrite Hd|].
  rewrite He, Hr, Hk. unfold findRelevantExamples, classifyConcept,
    identifyRelatedTerms. cbn [option_map].
  destruct Hl as [-> | [-> | ->]]; repeat split; lia.
Qed.

(** ** Removal of redundant concepts *)

Lemma existsb_resembles (seenNames : list string) (n : string) :
  existsb (fun name => resembles name n) seenNames
  = JSArray.has seenNames n
    || (if 4 <? String.length n
        then existsb (fun name => JSString.startsWith name (substring 0 4 n)
                                  && negb (String.eqb name n)) seenNames
        else false).
Proof.
  unfold JSArray.has, resembles.
  induction seenNames as [|s l IH]; simpl.
  - now destruct (4 <? String.length n).
  - rewrite IH.
    destruct (String.eqb n s), (4 <? String.length n),
      (JSString.startsWith s (substring 0 4 n) && negb (String.eqb s n)),
      (existsb (String.eqb n) l),
      (existsb (fun name => JSString.startsWith name (substring 0 4 n)
                            && negb (String.eqb name n)) l);
      reflexivity.
Qed.

Lemma keepIfNew_keptFrom (concepts uniqueConcepts : list Concept.t)
  (seenNames : list string) :
  fold_left keepIfNew concepts (uniqueConcepts, seenNames)
  = (uniqueConcepts ++ keptFrom seenNames concepts,
     seenNames ++ List.map normalizedName (keptFrom seenNames concepts)).
Proof.
  revert uniqueConcepts seenNames.
  induction concepts as [|c l IH]; intros u s.
  - simpl. now rewrite !app_nil_r.
  - cbn [fold_left keptFrom]. rewrite existsb_resembles.
    unfold keepIfNew at 2. fold (normalizedName c).
    destruct (JSArray.has s (normalizedName c)); cbn [orb]; [apply IH|].
    destruct (if 4 <? String.length (normalizedName c)
              then existsb _ s else false); [apply IH|].
    rewrite IH. cbn [List.map]. now rewrite <- !app_assoc.
Qed.

Lemma removeRedundantConcepts_keptFrom (concepts : list Concept.t) :
  removeRedundantConcepts concepts = keptFrom [] concepts.
Proof.
  unfold removeRedundantConcepts. now rewrite keepIfNew_keptFrom.
Qed.

Lemma keptFrom_Subsequence (seenNames : list string) (concepts : list Concept.t) :
  Subsequence (keptFrom seenNames concepts) concepts.
Proof.
  revert seenNames. induction concepts as [|c l IH]; intros s; simpl.
  - constructor.
  - destruct (existsb _ s);
      [apply Subsequence_skip | apply Subsequence_keep]; apply IH.
Qed.

Lemma keptFrom_distinct (seenNames : list string) (concepts : list Concept.t) :
  Forall (fun c => forall n, In n seenNames ->
                             resembles n (normalizedName c) = false)
         (keptFrom seenNames concepts)
  /\ ForallOrdPairs
       (fun a b => resembles (normalizedName a) (normalizedName b) = false)
       (keptFrom seenNames concepts).
Proof.
  revert seenNames. induction concepts as [|c l IH]; intros s; simpl.
  - split; constructor.
  - destruct (existsb (fun name => resembles name (normalizedName c)) s) eqn:E;
      [apply IH|].
    destruct (IH (s ++ [normalizedName c])) as [IH1 IH2].
    rewrite Forall_forall in IH1. split.
    + constructor.
      * intros n Hn.
        destruct (resembles n (normalizedName c)) eqn:R; [|reflexivity].
        assert (X : existsb (fun name => resembles name (normalizedName c)) s
                    = true)
          by (apply existsb_exists; now exists n).
        congruence.
      * apply Forall_forall. intros x Hx n Hn.
        apply (IH1 x Hx). apply in_or_app. now left.
    + constructor; [|exact IH2].
      apply Forall_forall. intros x Hx.
      apply (IH1 x Hx). apply in_or_app. right. now left.
Qed.

Lemma keptFrom_twice (seenNames : list string) (concepts : list Concept.t) :
  keptFrom seenNames (keptFrom seenNames concepts) = keptFrom seenNames concepts.
Proof.
  revert seenNames. induction concepts as [|c l IH]; intros s; simpl.
  - reflexivity.
  - destruct (existsb (fun name => resembles name (normalizedName c)) s) eqn:E;
      [apply IH|].
    simpl. rewrite E. f_equal. apply IH.
Qed.

Lemma keptFrom_complete (seenNames : list string) (concepts : list Concept.t) :
  Forall (fun c =>
            In c (keptFrom seenNames concepts)
            \/ exists n,
                 In n (seenNames
                       ++ List.map normalizedName (keptFrom seenNames concepts))
                 /\ resembles n (normalizedName c) = true)
         concepts.
Proof.
  revert seenNames. induction concepts as [|c l IH]; intros s; simpl.
  - constructor.
  - destruct (existsb (fun name => resembles name (normalizedName c)) s) eqn:E.
    + constructor; [|apply IH].
      right. apply existsb_exists in E. destruct E as (n & Hn & R).
      exists n. split; [apply in_or_app; now left | exact R].
    + constructor; [left; now left|].
      specialize (IH (s ++ [normalizedName c])).
      rewrite Forall_forall in *. intros x Hx.
      destruct (IH x Hx) as [H | (n & Hn & R)]; [left; now right|].
      right. exists n. split; [|exact R].
      rewrite <- app_assoc in Hn. exact Hn.
Qed.

(** X11.  The removal of redundant concepts returns a subsequence of its
    input that starts with the first concept.  No kept concept resembles a
    concept kept before it: their lower-cased names differ, and a name of
    more than four characters does not share its first four characters with
    an earlier kept name.  Every concept that is dropped resembles a kept
    one, and applying the removal again changes nothing. *)
Theorem removeRedundantConcepts_keeps_first_of_each_family
  (concepts : list Concept.t) :
  let kept := removeRedundantConcepts concepts in
  Subsequence kept concepts
  /\ hd_error kept = hd_error concepts
  /\ ForallOrdPairs
       (fun a b => resembles (normalizedName a) (normalizedName b) = false)
       kept
  /\ Forall (fun c =>
               In c kept
               \/ exists k, In k kept
                            /\ resembles (normalizedName k) (normalizedName c)
                               = true)
            concepts
  /\ removeRedundantConcepts kept = kept.
Proof.
  cbv zeta. rewrite !removeRedundantConcepts_keptFrom.
  split; [apply keptFrom_Subsequence|].
  split; [now destruct concepts|].
  split; [apply keptFrom_distinct|].
  split; [|apply keptFrom_twice].
  pose proof (keptFrom_complete [] concepts) as H.
  rewrite Forall_forall in *. intros c Hc.
  destruct (H c Hc) as [K | (n & Hn & R)]; [now left|].
  right. simpl in Hn. apply in_map_iff in Hn. destruct Hn as (k & <- & Hk).
  now exists k.
Qed.

(** ** The coherence score outside and inside its scale *)

Section ScoreBounds.

Local Open Scope Q_scope.

Lemma Qeq_bool_pos (q : Q) : 0 < q -> Qeq_bool q 0 = false.
Proof.
  intros H. destruct (Qeq_bool q 0) eqn:E; [|reflexivity].
  apply Qeq_bool_iff in E. rewrite E in H. now apply Qlt_irrefl in H.
Qed.

Lemma div_by_zero (a : Q) :
  0 < a -> JSNum.div (JSNum.Fin a) (JSNum.Fin 0) = JSNum.PInf.
Proof.
  intros H. unfold JSNum.div. cbn [JSNum.isNaN JSNum.isInf JSNum.isZero orb].
  rewrite isNeg_nonneg by now apply Qlt_le_weak.
  rewrite (Qeq_bool_pos a H). reflexivity.
Qed.

Lemma div_by_negative_zero (a : Q) :
  0 < a -> JSNum.div (JSNum.Fin a) JSNum.NegZero = JSNum.NInf.
Proof.
  intros H. unfold JSNum.div. cbn [JSNum.isNaN JSNum.isInf JSNum.isZero orb].
  rewrite isNeg_nonneg by now apply Qlt_le_weak.
  rewrite (Qeq_bool_pos a H). reflexivity.
Qed.

Lemma isFinite_Fin (x : JSNum.num) (a : Q) :
  isFinite x a -> exists q, x = JSNum.Fin q.
Proof.
  destruct x; simpl; try contradiction. intros _. now eexists.
Qed.

Lemma toSet_length (l acc : list string) :
  (length acc <= length (JSArray.toSet l acc))%nat.
Proof.
  revert acc. induction l as [|x l IH]; intros acc; simpl; [lia|].
  destruct (existsb (String.eqb x) acc); [apply IH|].
  specialize (IH (acc ++ [x])). rewrite length_app in IH. simpl in IH. lia.
Qed.

Lemma connected_nonempty (r : Relationship.t) (l : list Relationship.t) :
  (1 <= length (connectedConceptIds (r :: l)))%nat.
Proof.
  exact (toSet_length
           (Relationship.target r
            :: flat_map (fun rel => [Relationship.source rel;
                                     Relationship.target rel]) l)
           [Relationship.source r]).
Qed.

Lemma score_without_concepts (relationships : list Relationship.t) :
  calculateCoherenceScore [] relationships = JSNum.NaN.
Proof.
  destruct relationships as [|r' l]; [reflexivity|].
  unfold calculateCoherenceScore. cbv zeta.
  change (JSNum.ofNat (length (@nil Concept.t))) with (JSNum.Fin 0).
  replace (JSNum.div (JSNum.mul (JSNum.Fin 0)
                        (JSNum.sub (JSNum.Fin 0) (JSNum.Fin 1)))
                     (JSNum.Fin 2))
    with JSNum.NegZero by reflexivity.
  unfold JSNum.ofNat at 1 2.
  rewrite div_by_zero
    by (apply (ofNatQ_pos (length (connectedConceptIds (r' :: l))));
        apply connected_nonempty).
  rewrite div_by_negative_zero
    by (apply (ofNatQ_pos (length (r' :: l))); simpl; lia).
  reflexivity.
Qed.

Lemma score_of_one_concept (c : Concept.t) (r : Relationship.t)
  (relationships : list Relationship.t) :
  calculateCoherenceScore [c] (r :: relationships) = JSNum.PInf.
Proof.
  unfold calculateCoherenceScore. cbv zeta.
  change (JSNum.ofNat (length [c])) with (JSNum.Fin 1).
  replace (JSNum.div (JSNum.mul (JSNum.Fin 1)
                        (JSNum.sub (JSNum.Fin 1) (JSNum.Fin 1)))
                     (JSNum.Fin 2))
    with (JSNum.Fin 0) by reflexivity.
  unfold JSNum.ofNat at 2.
  rewrite div_by_zero
    by (apply (ofNatQ_pos (length (r :: relationships))); simpl; lia).
  assert (H1 : isFinite
                 (JSNum.mul
                    (JSNum.div
                       (JSNum.ofNat
                          (length (connectedConceptIds (r :: relationships))))
                       (JSNum.Fin 1))
                    (JSNum.Fin 0.4))
                 (ofNatQ (length (connectedConceptIds (r :: relationships)))
                  / 1 * 0.4)).
  { apply isFinite_mul; [|simpl; reflexivity| |discriminate].
    - apply isFinite_div; [apply isFinite_ofNat | simpl; reflexivity
                          | apply ofNatQ_nonneg | reflexivity].
    - apply Qdiv_nonneg; [apply ofNatQ_nonneg | reflexivity]. }
  assert (Hmax : 0 < ofNatQ (Nat.max 1 (length (r :: relationships))))
    by (apply ofNatQ_pos; lia).
  assert (H2 : isFinite
                 (JSNum.mul
                    (JSNum.div
                       (JSNum.ofNat (strongRelationships (r :: relationships)))
                       (JSNum.ofNat (Nat.max 1 (length (r :: relationships)))))
                    (JSNum.Fin 0.3))
                 (ofNatQ (strongRelationships (r :: relationships))
                  / ofNatQ (Nat.max 1 (length (r :: relationships))) * 0.3)).
  { apply isFinite_mul; [|simpl; reflexivity| |discriminate].
    - apply isFinite_div; [apply isFinite_ofNat | apply isFinite_ofNat
                          | apply ofNatQ_nonneg | exact Hmax].
    - apply Qdiv_nonneg; [apply ofNatQ_nonneg | exact Hmax]. }
  apply isFinite_Fin in H1. destruct H1 as [q1 ->].
  apply isFinite_Fin in H2. destruct H2 as [q2 ->].
  reflexivity.
Qed.

(** X12.  Below two concepts the coherence score is no number of the
    scale: it is NaN for an empty list of concepts, NaN for one concept
    without relationships and [+Infinity] for one concept with
    relationships.  None of these is below 0.5. *)
Theorem coherence_undefined_below_two_concepts
  (c : Concept.t) (r : Relationship.t) (relationships : list Relationship.t) :
  calculateCoherenceScore [] relationships = JSNum.NaN
  /\ calculateCoherenceScore [c] [] = JSNum.NaN
  /\ calculateCoherenceScore [c] (r :: relationships) = JSNum.PInf
  /\ JSNum.ltb JSNum.NaN (JSNum.Fin 0.5) = false
  /\ JSNum.ltb JSNum.PInf (JSNum.Fin 0.5) = false.
Proof.
  split; [apply score_without_concepts|].
  split; [reflexivity|].
  split; [apply score_of_one_concept|].
  split; reflexivity.
Qed.

Lemma toSet_NoDup (l acc : list string) :
  NoDup acc -> NoDup (JSArray.toSet l acc).
Proof.
  revert acc. induction l as [|x l IH]; intros acc H; simpl; [exact H|].
  destruct (existsb (String.eqb x) acc) eqn:E; [now apply IH|].
  apply IH. apply NoDup_app; [exact H | repeat constructor; simpl; tauto|].
  intros y Hy [E' | []]. subst y.
  assert (X : existsb (String.eqb x) acc = true)
    by (apply existsb_exists; exists x; split; [exact Hy | apply String.eqb_refl]).
  congruence.
Qed.

Lemma connected_within (concepts : list Concept.t)
  (relationships : list Relationship.t) :
  NoDup (List.map Concept.id concepts) ->
  endpointsIn concepts relationships ->
  (length (connectedConceptIds relationships) <= length concepts)%nat.
Proof.
  intros Hids Hclosed.
  rewrite <- (length_map Concept.id concepts).
  apply NoDup_incl_length; [apply toSet_NoDup; constructor|].
  intros x Hx. unfold connectedConceptIds in Hx.
  apply toSet_In in Hx. destruct Hx as [[] | Hx].
  apply in_flat_map in Hx. destruct Hx as (r & Hr & Hx).
  destruct (Hclosed r Hr) as [Hs Ht].
  destruct Hx as [<- | [<- | []]]; assumption.
Qed.

Lemma edges_within (concepts : list Concept.t)
  (relationships : list Relationship.t) :
  NoDup (List.map Concept.id concepts) ->
  endpointsIn concepts relationships ->
  NoDup (List.map endpoints relationships) ->
  (forall r, In r relationships -> Relationship.source r <> Relationship.target r) ->
  (length relationships + length concepts
   <= length concepts * length concepts)%nat.
Proof.
  intros Hids Hclosed Hdup Hloop.
  set (ids := List.map Concept.id concepts).
  assert (Hn : length ids = length concepts) by apply length_map.
  rewrite <- Hn.
  rewrite <- (length_prod ids ids).
  rewrite <- (length_map endpoints relationships).
  rewrite <- (length_map (fun a : string => (a, a)) ids) at 1.
  rewrite <- length_app.
  apply NoDup_incl_length.
  - apply NoDup_app; [exact Hdup| |].
    + apply Finite.Injective_map_NoDup; [|exact Hids].
      intros a b E. now injection E.
    + intros p Hp Hq. apply in_map_iff in Hp. destruct Hp as (r & <- & Hr).
      apply in_map_iff in Hq. destruct Hq as (a & E & _).
      unfold endpoints in E. injection E as E1 E2.
      apply (Hloop r Hr). congruence.
  - intros p Hp. apply in_app_or in Hp. destruct Hp as [Hp | Hp].
    + apply in_map_iff in Hp. destruct Hp as (r & <- & Hr).
      destruct (Hclosed r Hr) as [Hs Ht]. now apply in_prod.
    + apply in_map_iff in Hp. destruct Hp as (a & <- & Ha). now apply in_prod.
Qed.

Lemma ofNatQ_add (n m : nat) : ofNatQ (n + m) == ofNatQ n + ofNatQ m.
Proof.
  unfold ofNatQ. now rewrite Nat2Z.inj_add, inject_Z_plus.
Qed.

Lemma ofNatQ_mul (n m : nat) : ofNatQ (n * m) == ofNatQ n * ofNatQ m.
Proof.
  unfold ofNatQ. now rewrite Nat2Z.inj_mul, inject_Z_mult.
Qed.

Lemma score_is_finite (concepts : list Concept.t)
  (relationships : list Relationship.t) :
  (2 <= length concepts)%nat ->
  isFinite (calculateCoherenceScore concepts relationships)
           (connectivityRatio concepts relationships * 0.4
            + relationshipDensity concepts relationships * 0.3
            + significanceRatio relationships * 0.3).
Proof.
  intros Hn.
  assert (Hpos : 0 < ofNatQ (length concepts)) by (apply ofNatQ_pos; lia).
  assert (Hmax : 0 < ofNatQ (Nat.max 1 (length relationships)))
    by (apply ofNatQ_pos; lia).
  pose proof (pairs_positive _ Hn) as Hpairs.
  assert (H2 : 2 <= ofNatQ (length concepts)) by (apply (ofNatQ_le 2 _ Hn)).
  unfold calculateCoherenceScore, connectivityRatio, relationshipDensity,
    significanceRatio.
  cbv zeta.
  assert (Hden : isFinite
            (JSNum.div
               (JSNum.mul (JSNum.ofNat (length concepts))
                  (JSNum.sub (JSNum.ofNat (length concepts)) (JSNum.Fin 1)))
               (JSNum.Fin 2))
            (ofNatQ (length concepts) * (ofNatQ (length concepts) - 1) / 2)).
  { apply isFinite_div.
    - apply isFinite_mul.
      + apply isFinite_ofNat.
      + apply isFinite_sub; [apply isFinite_ofNat | simpl; reflexivity].
      + apply ofNatQ_nonneg.
      + lra.
    - simpl. reflexivity.
    - apply Qmult_le_0_compat; [apply ofNatQ_nonneg | lra].
    - reflexivity. }
  repeat apply isFinite_add;
    (apply isFinite_mul;
     [apply isFinite_div; try apply isFinite_ofNat;
      try assumption; apply ofNatQ_nonneg
     |simpl; reflexivity
     |apply Qdiv_nonneg; [apply ofNatQ_nonneg | assumption]
     |discriminate]).
Qed.

Lemma weighted_sum_bounds
  (concepts : list Concept.t) (relationships : list Relationship.t) :
  (2 <= length concepts)%nat ->
  NoDup (List.map Concept.id concepts) ->
  endpointsIn concepts relationships ->
  NoDup (List.map endpoints relationships) ->
  (forall r, In r relationships ->
             Relationship.source r <> Relationship.target r) ->
  0 <= connectivityRatio concepts relationships * 0.4
       + relationshipDensity concepts relationships * 0.3
       + significanceRatio relationships * 0.3
  /\ connectivityRatio concepts relationships * 0.4
     + relationshipDensity concepts relationships * 0.3
     + significanceRatio relationships * 0.3 <= 1.3.
Proof.
  intros Hn Hids Hclosed Hdup Hloop.
  assert (Hpos : 0 < ofNatQ (length concepts)) by (apply ofNatQ_pos; lia).
  assert (Hmax : 0 < ofNatQ (Nat.max 1 (length relationships)))
    by (apply ofNatQ_pos; lia).
  pose proof (pairs_positive _ Hn) as Hpairs.
  pose proof (connected_within _ _ Hids Hclosed) as Hk.
  pose proof (edges_within _ _ Hids Hclosed Hdup Hloop) as Hm.
  assert (Hs : (strongRelationships relationships
                <= Nat.max 1 (length relationships))%nat).
  { unfold strongRelationships.
    pose proof (filter_length_le
                  (fun rel => negb (Qle_bool (Relationship.strength rel) 3))
                  relationships). lia. }
  unfold connectivityRatio, relationshipDensity, significanceRatio.
  assert (C0 : 0 <= ofNatQ (length (connectedConceptIds relationships))
                    / ofNatQ (length concepts))
    by (apply Qdiv_nonneg; [apply ofNatQ_nonneg | exact Hpos]).
  assert (C1 : ofNatQ (length (connectedConceptIds relationships))
               / ofNatQ (length concepts) <= 1).
  { apply Qle_shift_div_r; [exact Hpos|]. rewrite Qmult_1_l.
    now apply ofNatQ_le. }
  assert (D0 : 0 <= ofNatQ (length relationships)
                    / (ofNatQ (length concepts)
                       * (ofNatQ (length concepts) - 1) / 2))
    by (apply Qdiv_nonneg; [apply ofNatQ_nonneg | exact Hpairs]).
  assert (D1 : ofNatQ (length relationships)
               / (ofNatQ (length concepts)
                  * (ofNatQ (length concepts) - 1) / 2) <= 2).
  { apply Qle_shift_div_r; [exact Hpairs|].
    apply ofNatQ_le in Hm. rewrite ofNatQ_add, ofNatQ_mul in Hm.
    setoid_replace (2 * (ofNatQ (length concepts)
                         * (ofNatQ (length concepts) - 1) / 2))
      with (ofNatQ (length concepts) * ofNatQ (length concepts)
            - ofNatQ (length concepts)) by field.
    lra. }
  assert (S0 : 0 <= ofNatQ (strongRelationships relationships)
                    / ofNatQ (Nat.max 1 (length relationships)))
    by (apply Qdiv_nonneg; [apply ofNatQ_nonneg | exact Hmax]).
  assert (S1 : ofNatQ (strongRelationships relationships)
               / ofNatQ (Nat.max 1 (length relationships)) <= 1).
  { apply Qle_shift_div_r; [exact Hmax|]. rewrite Qmult_1_l.
    now apply ofNatQ_le. }
  split; lra.
Qed.


(** X13.  For at least two concepts with distinct ids, joined by
    relationships without self-loop and without two relationships on the
    same ordered pair, the coherence score is a finite number between 0 and
    1.3. *)
Theorem coherence_score_between_0_and_1_3
  (concepts : list Concept.t) (relationships : list Relationship.t) :
  (2 <= length concepts)%nat ->
  NoDup (List.map Concept.id concepts) ->
  endpointsIn concepts relationships ->
  NoDup (List.map endpoints relationships) ->
  (forall r, In r relationships ->
             Relationship.source r <> Relationship.target r) ->
  exists q, isFinite (calculateCoherenceScore concepts relationships) q
            /\ 0 <= q /\ q <= 1.3.
Proof.
  intros Hn Hids Hclosed Hdup Hloop.
  eexists. split; [apply (score_is_finite _ _ Hn)|].
  now apply weighted_sum_bounds.
Qed.

End ScoreBounds.

(** ** Subsequences *)

Lemma Subsequence_nil_l {A : Type} (l : list A) : Subsequence [] l.
Proof.
  induction l; constructor; assumption.
Qed.

Lemma Subsequence_refl {A : Type} (l : list A) : Subsequence l l.
Proof.
  induction l; [constructor | apply Subsequence_keep; assumption].
Qed.

Lemma Subsequence_trans {A : Type} (a b c : list A) :
  Subsequence a b -> Subsequence b c -> Subsequence a c.
Proof.
  intros Hab Hbc. revert a Hab.
  induction Hbc as [|x b c Hbc IH|x b c Hbc IH]; intros a Hab.
  - exact Hab.
  - constructor. now apply IH.
  - inversion Hab; subst.
    + apply Subsequence_skip. now apply IH.
    + apply Subsequence_keep. now apply IH.
Qed.

Lemma Subsequence_map {A B : Type} (f : A -> B) (a b : list A) :
  Subsequence a b -> Subsequence (List.map f a) (List.map f b).
Proof.
  induction 1; simpl;
    [apply Subsequence_nil | apply Subsequence_skip | apply Subsequence_keep];
    assumption.
Qed.

Lemma Subsequence_filter {A : Type} (p : A -> bool) (l : list A) :
  Subsequence (List.filter p l) l.
Proof.
  induction l as [|x l IH]; simpl; [constructor|].
  destruct (p x); [apply Subsequence_keep | apply Subsequence_skip];
    assumption.
Qed.

Lemma Subsequence_firstn {A : Type} (n : nat) (l : list A) :
  Subsequence (firstn n l) l.
Proof.
  revert n. induction l as [|x l IH]; intros [|n]; simpl.
  - constructor.
  - constructor.
  - apply Subsequence_nil_l.
  - apply Subsequence_keep, IH.
Qed.

Lemma Subsequence_In {A : Type} (a b : list A) (x : A) :
  Subsequence a b -> In x a -> In x b.
Proof.
  induction 1; simpl; intuition.
Qed.

Lemma Subsequence_length {A : Type} (a b : list A) :
  Subsequence a b -> length a <= length b.
Proof.
  induction 1; simpl; lia.
Qed.

Lemma Subsequence_NoDup {A : Type} (a b : list A) :
  Subsequence a b -> NoDup b -> NoDup a.
Proof.
  induction 1 as [|x a b H IH|x a b H IH]; intros Hb.
  - constructor.
  - apply IH. now inversion Hb.
  - inversion Hb; subst. constructor; [|now apply IH].
    intros Hx. eauto using Subsequence_In.
Qed.

Lemma Subsequence_sorted {A : Type} (R : A -> A -> Prop) (a b : list A) :
  Subsequence a b -> StronglySorted R b -> StronglySorted R a.
Proof.
  induction 1 as [|x a b H IH|x a b H IH]; intros Hb.
  - constructor.
  - apply IH. now inversion Hb.
  - inversion Hb; subst. constructor; [now apply IH|].
    rewrite Forall_forall in *. eauto using Subsequence_In.
Qed.

Lemma StronglySorted_map {A B : Type} (f : A -> B) (R : B -> B -> Prop)
  (l : list A) :
  StronglySorted R (List.map f l) <-> StronglySorted (fun a b => R (f a) (f b)) l.
Proof.
  induction l as [|x l IH]; simpl; split; intros H; try constructor;
    inversion H; subst; try (now apply IH).
  - rewrite Forall_forall in *. intros y Hy. auto using in_map.
  - rewrite Forall_forall in *. intros y Hy.
    apply in_map_iff in Hy. destruct Hy as (z & <- & Hz). auto.
Qed.

(** ** The pipeline, stage by stage *)

Lemma step2_concepts (rnd : nat -> nat) (text : string) (r : Result.t) :
  Result.concepts (Rand.run (step2_AnalyzeRelationships rnd text r))
  = Result.concepts r.
Proof.
  unfold step2_AnalyzeRelationships, Rand.run, Rand.bind, Rand.ret.
  now destruct (analyzeRelationships rnd text (Result.concepts r) 0).
Qed.

Lemma step2_relationships (rnd : nat -> nat) (text : string) (r : Result.t) :
  Result.relationships (Rand.run (step2_AnalyzeRelationships rnd text r))
  = fst (analyzeRelationships rnd text (Result.concepts r) 0).
Proof.
  unfold step2_AnalyzeRelationships, Rand.run, Rand.bind, Rand.ret.
  now destruct (analyzeRelationships rnd text (Result.concepts r) 0).
Qed.

Lemma step2_metadata (rnd : nat -> nat) (text : string) (r : Result.t) :
  Result.metadata (Rand.run (step2_AnalyzeRelationships rnd text r))
  = Result.metadata r.
Proof.
  unfold step2_AnalyzeRelationships, Rand.run, Rand.bind, Rand.ret.
  now destruct (analyzeRelationships rnd text (Result.concepts r) 0).
Qed.

Section Pipeline.

Variables (P0 P1 P : Result.t -> Prop).
Variables (rnd : nat -> nat) (text : string) (config : Config.t).

Hypothesis stage2 :
  Stages.reasoning (Config.stages config) = true ->
  forall r, P0 r -> P0 (Rand.run (step2_AnalyzeRelationships rnd text r)).
Hypothesis stage3 :
  Stages.enrichment (Config.stages config) = true ->
  forall r, P0 r -> P0 (step3_EnrichSemantically text r).
Hypothesis stage4 :
  forall r, P0 r ->
    if Stages.validation (Config.stages config)
    then P1 (step4_VerifyAndValidate r) else P1 r.
Hypothesis stage5 :
  forall r, P1 r ->
    if Stages.aesthetics (Config.stages config)
    then P (step5_OptimizeVisualPresentation r config) else P r.
Hypothesis limitation : forall r, P r -> P (limitConcepts config r).
Hypothesis emission :
  forall r content, P r ->
    P (Result.mk (Result.concepts r) (Result.relationships r)
         (Result.conceptEmojis r) (Some content)
         (Metadata.mk (Metadata.textLength (Result.metadata r))
            (length (Result.concepts r)) (length (Result.relationships r))
            (Metadata.coherenceScore (Result.metadata r))
            (Metadata.conceptsRemoved (Result.metadata r))
            (Metadata.relationshipsRemoved (Result.metadata r))
            (Metadata.warnings (Result.metadata r))
            (Metadata.limitationApplied (Result.metadata r)))).

(** A property [P0] that the stages before validation keep, each when it
    is enabled, that validation turns into [P1] and the aesthetics stage
    into [P], which the limitation and the emission keep, ends as [P] of the
    result. *)
Lemma processText_three_phases :
  P0 (if Stages.organization (Config.stages config)
      then step1_OrganizeAndHierarchize text (emptyResult text)
      else emptyResult text) ->
  P (processText rnd text config).
Proof.
  intros H1. unfold processText. cbv zeta.
  apply emission, limitation.
  set (r1 := if Stages.organization (Config.stages config)
             then step1_OrganizeAndHierarchize text (emptyResult text)
             else emptyResult text) in *.
  set (r2 := if Stages.reasoning (Config.stages config)
             then Rand.run (step2_AnalyzeRelationships rnd text r1) else r1).
  assert (H2 : P0 r2)
    by (unfold r2; destruct (Stages.reasoning (Config.stages config)); auto).
  set (r3 := if Stages.enrichment (Config.stages config)
             then step3_EnrichSemantically text r2 else r2).
  assert (H3 : P0 r3)
    by (unfold r3; destruct (Stages.enrichment (Config.stages config)); auto).
  set (r4 := if Stages.validation (Config.stages config)
             then step4_VerifyAndValidate r3 else r3).
  assert (H4 : P1 r4).
  { unfold r4. specialize (stage4 r3 H3).
    now destruct (Stages.validation (Config.stages config)). }
  specialize (stage5 r4 H4).
  now destruct (Stages.aesthetics (Config.stages config)).
Qed.

End Pipeline.

Lemma processText_stages (P0 P : Result.t -> Prop)
  (rnd : nat -> nat) (text : string) (config : Config.t) :
  (Stages.reasoning (Config.stages config) = true ->
   forall r, P0 r -> P0 (Rand.run (step2_AnalyzeRelationships rnd text r))) ->
  (Stages.enrichment (Config.stages config) = true ->
   forall r, P0 r -> P0 (step3_EnrichSemantically text r)) ->
  (forall r, P0 r ->
     if Stages.validation (Config.stages config)
     then P (step4_VerifyAndValidate r) else P r) ->
  (Stages.aesthetics (Config.stages config) = true ->
   forall r, P r -> P (step5_OptimizeVisualPresentation r config)) ->
  (forall r, P r -> P (limitConcepts config r)) ->
  (forall r content, P r ->
     P (Result.mk (Result.concepts r) (Result.relationships r)
          (Result.conceptEmojis r) (Some content)
          (Metadata.mk (Metadata.textLength (Result.metadata r))
             (length (Result.concepts r)) (length (Result.relationships r))
             (Metadata.coherenceScore (Result.metadata r))
             (Metadata.conceptsRemoved (Result.metadata r))
             (Metadata.relationshipsRemoved (Result.metadata r))
             (Metadata.warnings (Result.metadata r))
             (Metadata.limitationApplied (Result.metadata r))))) ->
  P0 (if Stages.organization (Config.stages config)
      then step1_OrganizeAndHierarchize text (emptyResult text)
      else emptyResult text) ->
  P (processText rnd text config).
Proof.
  intros H2 H3 H4 H5 H6 H7 H1.
  apply (processText_three_phases P0 P P); auto.
  intros r H. destruct (Stages.aesthetics (Config.stages config)); auto.
Qed.

Lemma processText_phases (P0 P : Result.t -> Prop)
  (rnd : nat -> nat) (text : string) (config : Config.t) :
  (forall r, P0 r -> P0 (Rand.run (step2_AnalyzeRelationships rnd text r))) ->
  (forall r, P0 r -> P0 (step3_EnrichSemantically text r)) ->
  (forall r, P0 r ->
     if Stages.validation (Config.stages config)
     then P (step4_VerifyAndValidate r) else P r) ->
  (forall r, P r -> P (step5_OptimizeVisualPresentation r config)) ->
  (forall r, P r -> P (limitConcepts config r)) ->
  (forall r content, P r ->
     P (Result.mk (Result.concepts r) (Result.relationships r)
          (Result.conceptEmojis r) (Some content)
          (Metadata.mk (Metadata.textLength (Result.metadata r))
             (length (Result.concepts r)) (length (Result.relationships r))
             (Metadata.coherenceScore (Result.metadata r))
             (Metadata.conceptsRemoved (Result.metadata r))
             (Metadata.relationshipsRemoved (Result.metadata r))
             (Metadata.warnings (Result.metadata r))
             (Metadata.limitationApplied (Result.metadata r))))) ->
  P0 (if Stages.organization (Config.stages config)
      then step1_OrganizeAndHierarchize text (emptyResult text)
      else emptyResult text) ->
  P (processText rnd text config).
Proof.
  intros H2 H3 H4 H5 H6 H7 H1.
  apply (processText_stages P0 P); auto.
Qed.

(** ** The concepts of the result *)

Lemma bare_enrich (c : Concept.t) : bare (enrich c) = bare c.
Proof.
  apply enrich_fields.
Qed.

Lemma bare_formatConcept (visualSettings : VisualSettings.t) (c : Concept.t) :
  bare (formatConcept visualSettings c) = bare c.
Proof.
  reflexivity.
Qed.

Lemma bare_extracted (text : string) :
  List.map bare (extractMainConcepts text) = extractMainConcepts text.
Proof.
  rewrite <- (map_id (extractMainConcepts text)) at 2.
  apply map_ext_in. intros c Hc.
  apply extracted_In in Hc. destruct Hc as (i & w & _ & ->). reflexivity.
Qed.

Lemma map_bare_ext (f : Concept.t -> Concept.t) (l : list Concept.t) :
  (forall c, bare (f c) = bare c) ->
  List.map bare (List.map f l) = List.map bare l.
Proof.
  intros H. rewrite map_map. apply map_ext. exact H.
Qed.

Lemma extracted_order_sorted (text : string) (concepts : list Concept.t) :
  Subsequence (List.map bare concepts) (extractMainConcepts text) ->
  StronglySorted (fun a b => byImportanceDesc a b = true) concepts
  /\ StronglySorted (fun a b => Concept.level a <= Concept.level b) concepts.
Proof.
  intros H. destruct (extraction_sorted text) as [Himp Hlev].
  split.
  - apply (Subsequence_sorted _ _ _ H) in Himp.
    exact (proj1 (StronglySorted_map bare _ concepts) Himp).
  - apply (Subsequence_sorted _ _ _ H) in Hlev.
    exact (proj1 (StronglySorted_map
                    bare (fun a b => Concept.level a <= Concept.level b)
                    concepts) Hlev).
Qed.

Lemma limit_concepts_prefix (config : Config.t) (r : Result.t) :
  StronglySorted (fun a b => byImportanceDesc a b = true) (Result.concepts r) ->
  exists n, Result.concepts (limitConcepts config r)
            = firstn n (Result.concepts r).
Proof.
  intros Hs. unfold limitConcepts.
  destruct (Config.maxConcepts config <? Z.of_nat (length (Result.concepts r)))%Z.
  - cbn [Result.concepts]. rewrite (sort_of_sorted _ _ Hs).
    unfold JSArray.slice0.
    destruct (0 <=? Config.maxConcepts config)%Z; eexists; reflexivity.
  - exists (length (Result.concepts r)). now rewrite firstn_all.
Qed.

Lemma extract_length (text : string) : length (extractMainConcepts text) <= 15.
Proof.
  unfold extractMainConcepts, mapi.
  assert (H : forall (f : nat -> string -> Concept.t) l s,
             length (mapi_from f s l) = length l)
    by (intros f l; induction l; intros s; simpl; auto).
  rewrite H, length_firstn. lia.
Qed.

Lemma pipeline_keeps_extraction_order (rnd : nat -> nat) (text : string)
  (config : Config.t) :
  Subsequence
    (List.map bare (Result.concepts (processText rnd text config)))
    (extractMainConcepts text).
Proof.
  apply (processText_phases
           (fun r => Subsequence (List.map bare (Result.concepts r))
                                 (extractMainConcepts text))
           (fun r => Subsequence (List.map bare (Result.concepts r))
                                 (extractMainConcepts text))).
  - intros r H. now rewrite step2_concepts.
  - intros r H. cbn [step3_EnrichSemantically Result.concepts].
    rewrite (map_bare_ext enrich); [exact H | apply bare_enrich].
  - intros r H. destruct (Stages.validation (Config.stages config)); [|exact H].
    cbn [step4_VerifyAndValidate Result.concepts].
    refine (Subsequence_trans _ _ _ _ H). apply Subsequence_map.
    rewrite removeRedundantConcepts_keptFrom.
    refine (Subsequence_trans _ _ _ (keptFrom_Subsequence _ _) _).
    apply Subsequence_filter.
  - intros r H. cbn [step5_OptimizeVisualPresentation Result.concepts].
    rewrite map_bare_ext; [exact H | reflexivity].
  - intros r H.
    destruct (limit_concepts_prefix config r) as (n & ->).
    + apply (extracted_order_sorted text), H.
    + refine (Subsequence_trans _ _ _ _ H). apply Subsequence_map.
      apply Subsequence_firstn.
  - intros r content H. exact H.
  - destruct (Stages.organization (Config.stages config)).
    + rewrite step1_concepts, bare_extracted. apply Subsequence_refl.
    + apply Subsequence_nil_l.
Qed.

(** X14.  For an ASCII text of which no word cleans to [constructor] or
    [__proto__], and whatever the configuration, the concepts of the result
    are extracted concepts in their order of extraction: without what
    enrichment and formatting add, they form a subsequence of the
    extraction.  So there are at most fifteen of them, their ids are
    pairwise distinct, and they come by non-increasing importance and by
    non-decreasing level. *)
Theorem result_concepts_in_extraction_order
  (rnd : nat -> nat) (text : string) (config : Config.t) :
  plainText text = true ->
  let concepts := Result.concepts (processText rnd text config) in
  Subsequence (List.map bare concepts) (extractMainConcepts text)
  /\ length concepts <= 15
  /\ NoDup (List.map Concept.id concepts)
  /\ StronglySorted
       (fun a b => (Concept.importance b <= Concept.importance a)%Q) concepts
  /\ StronglySorted (fun a b => Concept.level a <= Concept.level b) concepts.
Proof.
  intros _. cbv zeta.
  pose proof (pipeline_keeps_extraction_order rnd text config) as H.
  split; [exact H|].
  split.
  { apply Subsequence_length in H. rewrite length_map in H.
    pose proof (extract_length text). lia. }
  split.
  { apply (Subsequence_map Concept.id) in H. rewrite map_map in H.
    apply (Subsequence_NoDup _ _ H), extract_ids_NoDup. }
  destruct (extracted_order_sorted text _ H) as [Himp Hlev].
  split; [|exact Hlev].
  refine (StronglySorted_weaken _ _ _ _ Himp).
  intros a b E. now apply Qle_bool_iff.
Qed.

(** ** The most frequent token *)

Lemma content_of_result (rnd : nat -> nat) (text : string) (config : Config.t) :
  Result.content (processText rnd text config)
  = Some (generateEducationalConceptMap (processText rnd text config) config).
Proof.
  unfold processText. cbv zeta.
  set (r := limitConcepts config _). reflexivity.
Qed.

Lemma content_sections (result : Result.t) (config : Config.t) :
  generateEducationalConceptMap result config
  = (title
     ++ concatAll
          (List.map
             (mainConceptSection result
                (fold_left pushLevel (Result.concepts result) [])
                match Result.conceptEmojis result with
                | Some e => e
                | None => []
                end)
             (mainConcepts (Result.concepts result))))%string.
Proof.
  unfold generateEducationalConceptMap.
  rewrite (fold_append
             (mainConceptSection result
                (fold_left pushLevel (Result.concepts result) [])
                match Result.conceptEmojis result with
                | Some e => e
                | None => []
                end)).
  now rewrite atLevel_fold.
Qed.

Lemma limit_keeps_head (config : Config.t) (r : Result.t) :
  (1 <= Config.maxConcepts config)%Z ->
  StronglySorted (fun a b => byImportanceDesc a b = true) (Result.concepts r) ->
  hd_error (Result.concepts (limitConcepts config r))
  = hd_error (Result.concepts r).
Proof.
  intros Hmax Hs. unfold limitConcepts.
  destruct (Config.maxConcepts config <? Z.of_nat (length (Result.concepts r)))%Z;
    [|reflexivity].
  cbn [Result.concepts]. rewrite (sort_of_sorted _ _ Hs).
  unfold JSArray.slice0.
  destruct (Z.leb_spec 0 (Config.maxConcepts config)) as [_ | L]; [|lia].
  destruct (Z.to_nat (Config.maxConcepts config)) as [|n] eqn:E; [lia|].
  now destruct (Result.concepts r).
Qed.

Lemma hd_error_map {A B : Type} (f : A -> B) (l : list A) :
  hd_error (List.map f l) = option_map f (hd_error l).
Proof.
  now destruct l.
Qed.

Lemma head_survives (rnd : nat -> nat) (text : string) (config : Config.t)
  (e : Concept.t) :
  Stages.organization (Config.stages config) = true ->
  (1 <= Config.maxConcepts config)%Z ->
  hd_error (extractMainConcepts text) = Some e ->
  Concept.isCritical e = true ->
  hd_error (List.map bare (Result.concepts (processText rnd text config)))
  = Some e.
Proof.
  intros Horg Hmax He Hcrit.
  apply (processText_phases
           (fun r => Subsequence (List.map bare (Result.concepts r))
                                 (extractMainConcepts text)
                     /\ hd_error (List.map bare (Result.concepts r)) = Some e)
           (fun r => Subsequence (List.map bare (Result.concepts r))
                                 (extractMainConcepts text)
                     /\ hd_error (List.map bare (Result.concepts r)) = Some e)
           rnd text config).
  - intros r H. now rewrite step2_concepts.
  - intros r H. cbn [step3_EnrichSemantically Result.concepts].
    rewrite (map_bare_ext enrich); [exact H | apply bare_enrich].
  - intros r [H Hh]. destruct (Stages.validation (Config.stages config));
      [|now split].
    cbn [step4_VerifyAndValidate Result.concepts].
    rewrite removeRedundantConcepts_keptFrom. split.
    + refine (Subsequence_trans _ _ _ _ H). apply Subsequence_map.
      refine (Subsequence_trans _ _ _ (keptFrom_Subsequence _ _) _).
      apply Subsequence_filter.
    + destruct (Result.concepts r) as [|c rest]; [discriminate|].
      cbn [List.map hd_error] in Hh. injection Hh as Hh.
      assert (Hc : isRelevant c = true).
      { unfold isRelevant.
        replace (Concept.isCritical c) with (Concept.isCritical (bare c))
          by reflexivity.
        rewrite Hh, Hcrit. now rewrite orb_true_r. }
      unfold filterIrrelevantConcepts. cbn [List.filter]. rewrite Hc.
      cbn [keptFrom existsb List.map hd_error]. now rewrite Hh.
  - intros r H. cbn [step5_OptimizeVisualPresentation Result.concepts].
    rewrite map_bare_ext; [exact H | reflexivity].
  - intros r [H Hh].
    destruct (extracted_order_sorted text _ H) as [Hs _]. split.
    + destruct (limit_concepts_prefix config r Hs) as (n & ->).
      refine (Subsequence_trans _ _ _ _ H). apply Subsequence_map.
      apply Subsequence_firstn.
    + rewrite hd_error_map, (limit_keeps_head config r Hmax Hs).
      now rewrite <- hd_error_map.
  - intros r content H. exact H.
  - rewrite Horg, step1_concepts, bare_extracted.
    split; [apply Subsequence_refl | exact He].
Qed.

(** X15.  When the text is ASCII, none of its words cleans to
    [constructor] or [__proto__] and it has an eligible token, the style
    names no member of [Object.prototype], the organization stage is on and
    [maxConcepts] is at least 1, the result starts with the concept of
    the most frequent eligible token: [concept-0], of level 0 and critical,
    with the number of occurrences of the token as frequency; and the
    content is the rendering of the returned result, which opens, after the
    title, with the heading of that concept. *)
Theorem most_frequent_token_heads_the_result
  (rnd : nat -> nat) (text : string) (config : Config.t)
  (w : string) (ws : list string) :
  plainText text = true ->
  knownStyle (Config.style config) = true ->
  sortedWords text = w :: ws ->
  Stages.organization (Config.stages config) = true ->
  (1 <= Config.maxConcepts config)%Z ->
  let result := processText rnd text config in
  let emojis := match Result.conceptEmojis result with
                | Some e => e
                | None => []
                end in
  exists c rest tail,
    Result.concepts result = c :: rest
    /\ Concept.id c = "concept-0"
    /\ Concept.name c = w
    /\ Concept.level c = 0
    /\ Concept.isCritical c = true
    /\ Concept.frequency c = occurrences text w
    /\ Result.content result
       = Some (generateEducationalConceptMap result config)
    /\ Result.content result
       = Some (title ++ mainHeading emojis c ++ tail)%string.
Proof.
  intros _ _ Hw Horg Hmax. cbv zeta.
  remember (makeConcept text
              (length (JSString.split JSString.isSpace text))
              (wordFrequencyOf (JSString.split JSString.isSpace text)) 0 w)
    as e eqn:Ee.
  assert (He : hd_error (extractMainConcepts text) = Some e)
    by (rewrite Ee; unfold extractMainConcepts; now rewrite Hw).
  assert (Hcrit : Concept.isCritical e = true) by now rewrite Ee.
  assert (Hid : Concept.id e = "concept-0") by now rewrite Ee.
  assert (Hname : Concept.name e = w) by now rewrite Ee.
  assert (Hlevel : Concept.level e = 0) by now rewrite Ee.
  assert (Hfreq : Concept.frequency e = occurrences text w) by now rewrite Ee.
  clear Ee.
  pose proof (head_survives rnd text config e Horg Hmax He Hcrit) as Hh.
  pose proof (content_of_result rnd text config) as Hc.
  rewrite content_sections in Hc.
  destruct (Result.concepts (processText rnd text config)) as [|c rest] eqn:E;
    [discriminate|].
  cbn [List.map hd_error] in Hh. injection Hh as Hh.
  assert (Hl : Concept.level c = 0)
    by (change (Concept.level (bare c) = 0); now rewrite Hh).
  unfold mainConcepts in Hc. cbn [List.filter] in Hc.
  rewrite Hl in Hc. cbn [Nat.eqb List.map concatAll fold_right] in Hc.
  unfold mainConceptSection at 1 in Hc. cbv zeta in Hc.
  rewrite fold_append, append_assoc in Hc.
  eexists c, rest, _.
  split; [reflexivity|].
  split; [change (Concept.id (bare c) = "concept-0"); now rewrite Hh|].
  split; [change (Concept.name (bare c) = w); now rewrite Hh|].
  split; [exact Hl|].
  split; [change (Concept.isCritical (bare c) = true); now rewrite Hh|].
  split; [change (Concept.frequency (bare c) = occurrences text w);
          now rewrite Hh|].
  split; [apply content_of_result|].
  exact Hc.
Qed.

(** ** The relationships of the result *)

Lemma analyze_no_self_loop (rnd : nat -> nat) (text : string)
  (concepts : list Concept.t) (k : nat) (r : Relationship.t) :
  In r (fst (analyzeRelationships rnd text concepts k)) ->
  Relationship.source r <> Relationship.target r.
Proof.
  intros Hr.
  assert (He : In (endpoints r)
                  (List.map endpoints (identifyConceptRelationships text concepts))).
  { rewrite <- (analyze_endpoints rnd text concepts k). now apply in_map. }
  apply in_map_iff in He. destruct He as (r0 & E & H0).
  apply identify_In in H0. destruct H0 as (s & t & _ & _ & Hid & _ & ->).
  unfold endpoints in E. simpl in E. injection E as <- <-. exact Hid.
Qed.

Lemma Subsequence_Forall {A : Type} (Q : A -> Prop) (a b : list A) :
  Subsequence a b -> Forall Q b -> Forall Q a.
Proof.
  intros H Hb. rewrite Forall_forall in *. eauto using Subsequence_In.
Qed.

Lemma validate_Subsequence (relationships : list Relationship.t)
  (concepts : list Concept.t) :
  Subsequence (validateRelationshipCoherence relationships concepts)
              relationships.
Proof.
  unfold validateRelationshipCoherence.
  eapply Subsequence_trans; apply Subsequence_filter.
Qed.

Lemma limit_relationships_Subsequence (config : Config.t) (r : Result.t) :
  Subsequence (Result.relationships (limitConcepts config r))
              (Result.relationships r).
Proof.
  unfold limitConcepts.
  destruct (Config.maxConcepts config <? Z.of_nat (length (Result.concepts r)))%Z.
  - apply Subsequence_filter.
  - apply Subsequence_refl.
Qed.

Section ResultEdges.

Variable Q : Relationship.t -> Prop.

(** [Q] reads only what the styling of stage 5 leaves alone. *)
Hypothesis styled :
  forall visualSettings concepts r,
    Q r -> Q (styleRelationship visualSettings concepts r).

Variables (rnd : nat -> nat) (text : string) (config : Config.t).

Hypothesis engine :
  forall concepts,
    NoDup (List.map Concept.id concepts) ->
    Forall Q (fst (analyzeRelationships rnd text concepts 0)).

Lemma wellFormed_ids (r : Result.t) :
  wellFormed Q text r -> NoDup (List.map Concept.id (Result.concepts r)).
Proof.
  intros (H & _). apply (Subsequence_map Concept.id) in H.
  rewrite map_map in H. apply (Subsequence_NoDup _ _ H), extract_ids_NoDup.
Qed.

Lemma wellFormed_initial :
  wellFormed Q text
    (if Stages.organization (Config.stages config)
     then step1_OrganizeAndHierarchize text (emptyResult text)
     else emptyResult text).
Proof.
  unfold wellFormed. destruct (Stages.organization (Config.stages config)).
  - rewrite step1_concepts, bare_extracted.
    cbn [step1_OrganizeAndHierarchize Result.relationships emptyResult].
    split; [apply Subsequence_refl | split; constructor].
  - cbn [Result.concepts Result.relationships emptyResult List.map].
    split; [apply Subsequence_nil_l | split; constructor].
Qed.

Lemma wellFormed_step2 (r : Result.t) :
  wellFormed Q text r ->
  wellFormed Q text (Rand.run (step2_AnalyzeRelationships rnd text r)).
Proof.
  intros H. pose proof (wellFormed_ids r H) as Hids. destruct H as (H & _ & _).
  unfold wellFormed. rewrite step2_concepts, step2_relationships.
  split; [exact H|]. split; [|now apply engine].
  rewrite analyze_endpoints. now apply identify_endpoints_NoDup.
Qed.

Lemma wellFormed_step3 (r : Result.t) :
  wellFormed Q text r -> wellFormed Q text (step3_EnrichSemantically text r).
Proof.
  intros (H & Hd & HQ). unfold wellFormed.
  cbn [step3_EnrichSemantically Result.concepts Result.relationships].
  rewrite (map_bare_ext enrich); [tauto | apply bare_enrich].
Qed.

Lemma wellFormed_step4 (r : Result.t) :
  wellFormed Q text r -> wellFormed Q text (step4_VerifyAndValidate r).
Proof.
  intros (H & Hd & HQ). unfold wellFormed.
  cbn [step4_VerifyAndValidate Result.concepts Result.relationships].
  split; [|split].
  - refine (Subsequence_trans _ _ _ _ H). apply Subsequence_map.
    rewrite removeRedundantConcepts_keptFrom.
    refine (Subsequence_trans _ _ _ (keptFrom_Subsequence _ _) _).
    apply Subsequence_filter.
  - refine (Subsequence_NoDup _ _ _ Hd).
    apply Subsequence_map, validate_Subsequence.
  - exact (Subsequence_Forall _ _ _ (validate_Subsequence _ _) HQ).
Qed.

Lemma wellFormed_step5 (r : Result.t) :
  wellFormed Q text r ->
  wellFormed Q text (step5_OptimizeVisualPresentation r config).
Proof.
  intros (H & Hd & HQ). unfold wellFormed.
  cbn [step5_OptimizeVisualPresentation Result.concepts Result.relationships].
  split; [|split].
  - rewrite map_bare_ext; [exact H | reflexivity].
  - rewrite map_map.
    rewrite (map_ext _ endpoints); [exact Hd | reflexivity].
  - apply Forall_map. revert HQ. apply Forall_impl. intros a. apply styled.
Qed.

Lemma wellFormed_limit (r : Result.t) :
  wellFormed Q text r -> wellFormed Q text (limitConcepts config r).
Proof.
  intros (H & Hd & HQ). unfold wellFormed.
  destruct (extracted_order_sorted text _ H) as [Hs _]. split; [|split].
  - destruct (limit_concepts_prefix config r Hs) as (n & ->).
    refine (Subsequence_trans _ _ _ _ H). apply Subsequence_map.
    apply Subsequence_firstn.
  - refine (Subsequence_NoDup _ _ _ Hd).
    apply Subsequence_map, limit_relationships_Subsequence.
  - exact (Subsequence_Forall _ _ _ (limit_relationships_Subsequence _ _) HQ).
Qed.

(** What the engine gives to every relationship, and stage 5 keeps, holds
    of the relationships of the result, which lie on pairwise distinct
    ordered pairs of concepts. *)
Lemma result_edges : wellFormed Q text (processText rnd text config).
Proof.
  apply (processText_phases (wellFormed Q text) (wellFormed Q text)).
  - apply wellFormed_step2.
  - apply wellFormed_step3.
  - intros r H. destruct (Stages.validation (Config.stages config));
      [now apply wellFormed_step4 | exact H].
  - apply wellFormed_step5.
  - apply wellFormed_limit.
  - intros r content H. exact H.
  - apply wellFormed_initial.
Qed.

End ResultEdges.

(** X16.  Whatever the configuration and whatever [Math.random] draws, the
    relationships of the result lie on pairwise distinct ordered pairs of
    concepts; none is a self-loop, each rests on at least one shared
    sentence, is named after its endpoints, has one of the six assigned
    types and a strength between 1.6 and 5, which is 5 exactly from three
    shared sentences on and below 3.4 otherwise. *)
Theorem result_relationships_are_well_formed
  (rnd : nat -> nat) (text : string) (config : Config.t) :
  let relationships := Result.relationships (processText rnd text config) in
  NoDup (List.map endpoints relationships)
  /\ Forall
       (fun r =>
          Relationship.source r <> Relationship.target r
          /\ Relationship.id r
             = ("rel-" ++ Relationship.source r ++ "-"
                ++ Relationship.target r)%string
          /\ 1 <= Relationship.sharedSentences r
          /\ In (Relationship.type r) assignedTypes
          /\ (1.6 <= Relationship.strength r /\ Relationship.strength r <= 5)%Q
          /\ if 3 <=? Relationship.sharedSentences r
             then (Relationship.strength r == 5)%Q
             else (Relationship.strength r < 3.4)%Q)
       relationships.
Proof.
  cbv zeta.
  match goal with
  | |- _ /\ Forall ?Q _ =>
      enough (H : wellFormed Q text (processText rnd text config))
        by (destruct H as (_ & ? & ?); now split)
  end.
  apply result_edges; [intros vs cs r H; exact H|].
  intros concepts Hids. apply Forall_forall. intros r Hr.
    pose proof (analyze_no_self_loop rnd text concepts 0 r Hr) as Hloop.
    pose proof (engine_edges rnd text concepts 0) as He.
    rewrite Forall_forall in He. destruct (He r Hr) as (Hn & _ & Hs).
    assert (Hid : Relationship.id r
                  = ("rel-" ++ Relationship.source r ++ "-"
                     ++ Relationship.target r)%string).
    { clear He Hs Hn Hloop. unfold analyzeRelationships, Rand.bind, Rand.ret in Hr.
      pose proof (classify_Forall2 rnd (identifyConceptRelationships text concepts) 0)
        as H2.
      destruct (classifyRelationshipTypes rnd
                  (identifyConceptRelationships text concepts) 0)
        as [typed k'].
      cbn [fst] in *. unfold assignRelationshipStrength in Hr.
      apply in_map_iff in Hr. destruct Hr as (r1 & <- & Hr1).
      cbn [adjustStrength Relationship.id Relationship.source
           Relationship.target].
      assert (Hall : Forall (fun rel => Relationship.id rel
                                        = ("rel-" ++ Relationship.source rel ++ "-"
                                           ++ Relationship.target rel)%string)
                            (identifyConceptRelationships text concepts)).
      { apply Forall_forall. intros x Hx. apply identify_In in Hx.
        destruct Hx as (s & t & _ & _ & _ & _ & ->). reflexivity. }
      assert (H3 : Forall (fun r => Relationship.id r
                                    = ("rel-" ++ Relationship.source r ++ "-"
                                       ++ Relationship.target r)%string)
                          typed).
      { refine (Forall2_Forall_l _ _ _ _ _ _ Hall H2).
        intros a b Ha (_ & Hi & Hso & Hta & _). now rewrite Hi, Hso, Hta. }
      rewrite Forall_forall in H3. now apply H3. }
    split; [exact Hloop|]. split; [exact Hid|]. split; [exact Hn|].
    destruct (3 <=? Relationship.sharedSentences r).
    + destruct Hs as [Ht Hs]. split; [|split; [|exact Hs]].
      * unfold assignedTypes. simpl in *. tauto.
      * rewrite Hs. split; discriminate.
    + destruct Hs as (Ht & _ & Hlo & Hhi). split; [|split].
      * unfold assignedTypes. simpl in *. tauto.
      * split; [exact Hlo|]. apply Qle_trans with (3.3)%Q; [exact Hhi | discriminate].
      * apply Qle_lt_trans with (3.3)%Q; [exact Hhi | reflexivity].
Qed.

(** ** The coherence score that the pipeline reports *)

Section ReportedScore.

Local Open Scope Q_scope.

Lemma round2_bounds (q : Q) :
  0 <= q -> q <= 1.3 -> 0 <= JSNum.round2 q /\ JSNum.round2 q <= 1.3.
Proof.
  intros H0 H1. unfold JSNum.round2.
  assert (L : (0 <= Qfloor (q * 100 + (1 # 2)))%Z).
  { change 0%Z with (Qfloor 0). apply Qfloor_resp_le. lra. }
  assert (U : (Qfloor (q * 100 + (1 # 2)) <= 130)%Z).
  { change 130%Z with (Qfloor (261 # 2)). apply Qfloor_resp_le. lra. }
  rewrite Zle_Qle in L, U.
  split.
  - apply Qle_shift_div_l; [reflexivity|]. rewrite Qmult_0_l. exact L.
  - apply Qle_shift_div_r; [reflexivity|].
    apply Qle_trans with (inject_Z 130); [exact U | discriminate].
Qed.

Lemma validated_score (concepts : list Concept.t)
  (relationships : list Relationship.t) :
  NoDup (List.map Concept.id concepts) ->
  endpointsIn concepts relationships ->
  NoDup (List.map endpoints relationships) ->
  Forall (fun r => Relationship.source r <> Relationship.target r)
         relationships ->
  JSNum.toFixed2 (calculateCoherenceScore concepts relationships) = JSNum.NaN
  \/ exists q,
       JSNum.toFixed2 (calculateCoherenceScore concepts relationships)
       = JSNum.Fin q
       /\ 0 <= q /\ q <= 1.3.
Proof.
  intros Hids Hclosed Hdup Hloop. rewrite Forall_forall in Hloop.
  destruct concepts as [|c [|c' concepts]].
  - left. now rewrite score_without_concepts.
  - left. destruct relationships as [|r l]; [reflexivity|].
    exfalso. apply (Hloop r (or_introl eq_refl)).
    destruct (Hclosed r (or_introl eq_refl)) as [[<- | []] [<- | []]].
    reflexivity.
  - right.
    assert (Hn : (2 <= length (c :: c' :: concepts))%nat) by (simpl; lia).
    pose proof (score_is_finite _ relationships Hn) as Hf.
    pose proof (weighted_sum_bounds _ _ Hn Hids Hclosed Hdup Hloop) as [B0 B1].
    destruct (calculateCoherenceScore (c :: c' :: concepts) relationships)
      as [q| | | |]; simpl in Hf; try contradiction.
    rewrite <- Hf in B0, B1.
    unfold JSNum.toFixed2.
    assert (E : Qle_bool 0 q = true) by now apply Qle_bool_iff.
    rewrite E. eexists. split; [reflexivity|].
    now apply round2_bounds.
Qed.

(** X17.  The coherence score that the result reports is absent exactly
    when the validation stage is off; otherwise it is NaN or a finite number
    between 0 and 1.3, whatever the text, the other settings and the draws
    of [Math.random]; it is never infinite or negative. *)
Theorem reported_coherence_is_NaN_or_at_most_1_3
  (rnd : nat -> nat) (text : string) (config : Config.t) :
  match Metadata.coherenceScore
          (Result.metadata (processText rnd text config)) with
  | Some score =>
      Stages.validation (Config.stages config) = true
      /\ (score = JSNum.NaN
          \/ exists q, score = JSNum.Fin q /\ 0 <= q /\ q <= 1.3)
  | None => Stages.validation (Config.stages config) = false
  end.
Proof.
  set (noLoop := fun r => Relationship.source r <> Relationship.target r).
  assert (Hstyled : forall vs cs r,
             noLoop r -> noLoop (styleRelationship vs cs r))
    by (intros vs cs r H; exact H).
  assert (Hengine : forall concepts,
             NoDup (List.map Concept.id concepts) ->
             Forall noLoop (fst (analyzeRelationships rnd text concepts 0%nat))).
  { intros concepts _. apply Forall_forall. intros r.
    apply analyze_no_self_loop. }
  apply (processText_phases
           (fun r => wellFormed noLoop text r
                     /\ Metadata.coherenceScore (Result.metadata r) = None)
           (fun r =>
              match Metadata.coherenceScore (Result.metadata r) with
              | Some score =>
                  Stages.validation (Config.stages config) = true
                  /\ (score = JSNum.NaN
                      \/ exists q, score = JSNum.Fin q /\ 0 <= q /\ q <= 1.3)
              | None => Stages.validation (Config.stages config) = false
              end)).
  - intros r [H Hc]. split; [now apply wellFormed_step2|].
    now rewrite step2_metadata.
  - intros r [H Hc]. split; [now apply wellFormed_step3 | exact Hc].
  - intros r [H Hc].
    destruct (Stages.validation (Config.stages config)) eqn:V;
      [|now rewrite Hc].
    pose proof (wellFormed_step4 noLoop text r H) as H4.
    pose proof (wellFormed_ids noLoop text _ H4) as Hids.
    destruct H4 as (_ & Hd & Hl).
    pose proof (step4_closed r) as Hclosed.
    cbn [step4_VerifyAndValidate Result.concepts Result.relationships
         Result.metadata Metadata.coherenceScore] in *.
    split; [reflexivity|].
    now apply validated_score.
  - intros r H. exact H.
  - intros r H. unfold limitConcepts.
    now destruct (Config.maxConcepts config
                  <? Z.of_nat (length (Result.concepts r)))%Z.
  - intros r content H. exact H.
  - split; [now apply wellFormed_initial|].
    now destruct (Stages.organization (Config.stages config)).
Qed.

End ReportedScore.

(** ** Part-of relationships after validation *)

Lemma levelOf_map (f : Concept.t -> Concept.t) (concepts : list Concept.t)
  (id : string) :
  (forall c, Concept.id (f c) = Concept.id c) ->
  (forall c, Concept.level (f c) = Concept.level c) ->
  levelOf (List.map f concepts) id = levelOf concepts id.
Proof.
  intros Hid Hlevel. unfold levelOf, JSArray.find.
  induction concepts as [|c l IH]; simpl; [reflexivity|].
  rewrite Hid. destruct (String.eqb (Concept.id c) id); [apply Hlevel|].
  exact IH.
Qed.

Lemma levelOf_firstn (n : nat) (concepts : list Concept.t) (id : string) :
  In id (List.map Concept.id (firstn n concepts)) ->
  levelOf (firstn n concepts) id = levelOf concepts id.
Proof.
  unfold levelOf, JSArray.find. revert n.
  induction concepts as [|c l IH]; intros [|n]; simpl; try tauto.
  destruct (String.eqb_spec (Concept.id c) id) as [E | N]; [reflexivity|].
  intros [H | H]; [contradiction | now apply IH].
Qed.

Lemma levelOf_In (concepts : list Concept.t) (id : string) :
  In id (List.map Concept.id concepts) ->
  exists c, In c concepts /\ Concept.id c = id
            /\ levelOf concepts id = Concept.level c.
Proof.
  unfold levelOf, JSArray.find.
  induction concepts as [|c l IH]; simpl; [tauto|].
  destruct (String.eqb_spec (Concept.id c) id) as [E | N].
  - intros _. exists c. tauto.
  - intros [H | H]; [contradiction|].
    destruct (IH H) as (x & Hx & Hid & Hl). exists x. tauto.
Qed.

(** X18.  With the validation stage on, every relationship of type
    [es parte de] in the result leads from a concept of a deeper level to a
    concept of a strictly shallower one: both endpoints are concepts of the
    result and the level of the source is greater than the level of the
    target. *)
Theorem part_of_points_to_a_shallower_level
  (rnd : nat -> nat) (text : string) (config : Config.t) :
  Stages.validation (Config.stages config) = true ->
  let result := processText rnd text config in
  forall r, In r (Result.relationships result) ->
    Relationship.type r = "es parte de" ->
    exists source target,
      In source (Result.concepts result)
      /\ In target (Result.concepts result)
      /\ Concept.id source = Relationship.source r
      /\ Concept.id target = Relationship.target r
      /\ Concept.level target < Concept.level source.
Proof.
  intros Hval. cbv zeta.
  set (partOf := fun r : Result.t =>
         forall rel, In rel (Result.relationships r) ->
           Relationship.type rel = "es parte de" ->
           levelOf (Result.concepts r) (Relationship.target rel)
           < levelOf (Result.concepts r) (Relationship.source rel)).
  assert (H : wellFormed (fun _ => True) text (processText rnd text config)
              /\ closed (processText rnd text config)
              /\ partOf (processText rnd text config)).
  { apply (processText_phases
             (wellFormed (fun _ => True) text)
             (fun r => wellFormed (fun _ => True) text r
                       /\ closed r /\ partOf r)).
    - apply wellFormed_step2. intros cs _. apply Forall_forall. auto.
    - apply wellFormed_step3.
    - intros r H. rewrite Hval.
      split; [now apply wellFormed_step4|]. split; [apply step4_closed|].
      unfold partOf.
      cbn [step4_VerifyAndValidate Result.concepts Result.relationships].
      intros rel Hrel Hty. unfold validateRelationshipCoherence in Hrel.
      apply filter_In in Hrel. destruct Hrel as [_ Hc].
      unfold isCoherent in Hc. rewrite Hty in Hc.
      cbn [String.eqb Ascii.eqb Bool.eqb andb] in Hc.
      destruct (Nat.leb_spec
                  (levelOf (removeRedundantConcepts
                              (filterIrrelevantConcepts (Result.concepts r)))
                           (Relationship.source rel))
                  (levelOf (removeRedundantConcepts
                              (filterIrrelevantConcepts (Result.concepts r)))
                           (Relationship.target rel)));
        [discriminate | assumption].
    - intros r (H & Hc & Hp).
      split; [apply wellFormed_step5; auto|].
      split; [now apply step5_closed|].
      unfold partOf in *.
      cbn [step5_OptimizeVisualPresentation Result.concepts
           Result.relationships].
      intros rel Hrel Hty. apply in_map_iff in Hrel.
      destruct Hrel as (rel0 & <- & Hrel0).
      cbn [styleRelationship Relationship.source Relationship.target
           Relationship.type] in *.
      rewrite !levelOf_map by reflexivity. now apply Hp.
    - intros r (H & Hc & Hp).
      pose proof (limit_closed config r Hc) as Hc'.
      split; [apply wellFormed_limit; auto|]. split; [exact Hc'|].
      destruct H as (H & _).
      destruct (extracted_order_sorted text _ H) as [Hs _].
      destruct (limit_concepts_prefix config r Hs) as (n & E).
      unfold partOf in *. intros rel Hrel Hty.
      destruct (Hc' rel Hrel) as [Hsrc Htgt].
      rewrite E in *. rewrite !levelOf_firstn by assumption.
      apply Hp; [|exact Hty].
      exact (Subsequence_In _ _ _ (limit_relationships_Subsequence config r) Hrel).
    - intros r content H. exact H.
    - apply wellFormed_initial. }
  destruct H as (_ & Hc & Hp).
  intros r Hr Hty. destruct (Hc r Hr) as [Hsrc Htgt].
  specialize (Hp r Hr Hty).
  destruct (levelOf_In _ _ Hsrc) as (s & Hs & Hsid & Hsl).
  destruct (levelOf_In _ _ Htgt) as (t & Ht & Htid & Htl).
  exists s, t. repeat split; try assumption. lia.
Qed.

(** ** Emojis *)

Lemma get_assignEmoji (conceptEmojis : list (string * string))
  (concept : Concept.t) (id : string) :
  Table.get (assignEmoji conceptEmojis concept) id
  = if String.eqb (Concept.id concept) id then Some (emojiFor concept)
    else Table.get conceptEmojis id.
Proof.
  unfold assignEmoji, emojiFor, Table.set.
  destruct (Concept.isCritical concept); rewrite !get_update;
    destruct (String.eqb (Concept.id concept) id); reflexivity.
Qed.

Lemma keys_assignEmoji (conceptEmojis : list (string * string))
  (concept : Concept.t) :
  List.map fst (assignEmoji conceptEmojis concept)
  = if JSArray.has (List.map fst conceptEmojis) (Concept.id concept)
    then List.map fst conceptEmojis
    else List.map fst conceptEmojis ++ [Concept.id concept].
Proof.
  unfold assignEmoji, Table.set.
  destruct (Concept.isCritical concept); rewrite !update_keys;
    [|reflexivity].
  destruct (JSArray.has (List.map fst conceptEmojis) (Concept.id concept))
    eqn:E; [now rewrite E|].
  assert (H : JSArray.has (List.map fst conceptEmojis ++ [Concept.id concept])
                          (Concept.id concept) = true).
  { apply has_In, in_or_app. right. now left. }
  now rewrite H.
Qed.

Lemma find_app {A : Type} (p : A -> bool) (l l' : list A) :
  List.find p (l ++ l')
  = match List.find p l with
    | Some x => Some x
    | None => List.find p l'
    end.
Proof.
  induction l as [|x l IH]; simpl; [reflexivity|].
  now destruct (p x).
Qed.

Lemma get_assignRelevantEmojis (concepts : list Concept.t)
  (conceptEmojis : list (string * string)) (id : string) :
  Table.get (fold_left assignEmoji concepts conceptEmojis) id
  = match JSArray.find (fun c => String.eqb (Concept.id c) id) (rev concepts) with
    | Some c => Some (emojiFor c)
    | None => Table.get conceptEmojis id
    end.
Proof.
  unfold JSArray.find. revert conceptEmojis.
  induction concepts as [|c l IH]; intros t; simpl; [reflexivity|].
  rewrite IH, find_app, get_assignEmoji. simpl.
  destruct (List.find _ (rev l)); [reflexivity|].
  now destruct (String.eqb (Concept.id c) id).
Qed.

Lemma keys_assignRelevantEmojis (concepts : list Concept.t)
  (conceptEmojis : list (string * string)) :
  List.map fst (fold_left assignEmoji concepts conceptEmojis)
  = JSArray.toSet (List.map Concept.id concepts) (List.map fst conceptEmojis).
Proof.
  revert conceptEmojis.
  induction concepts as [|c l IH]; intros t; simpl; [reflexivity|].
  rewrite IH, keys_assignEmoji. unfold JSArray.has.
  now destruct (existsb (String.eqb (Concept.id c)) (List.map fst t)).
Qed.

(** X19.  Under an id that names no member of [Object.prototype], the
    emoji table of stage 5 holds the emoji of the last concept that carries
    the id: the star for a critical concept, otherwise the bulb, the
    magnifying glass or the clipboard for levels 0, 1 and 2, and the bulb
    for every deeper level.  Under such an id of no concept it holds
    nothing, and the lookup of the emitter gives the empty string. *)
Theorem emoji_table_by_concept (concepts : list Concept.t) (id : string) :
  JSArray.has objectPrototypeMembers id = false ->
  Table.get (assignRelevantEmojis concepts) id
  = option_map emojiFor
      (JSArray.find (fun c => String.eqb (Concept.id c) id) (rev concepts))
  /\ emojiOf (assignRelevantEmojis concepts) id
     = match JSArray.find (fun c => String.eqb (Concept.id c) id)
                          (rev concepts) with
       | Some c => emojiFor c
       | None => ""
       end.
Proof.
  intros _. unfold assignRelevantEmojis, emojiOf.
  rewrite get_assignRelevantEmojis.
  split; now destruct (JSArray.find _ (rev concepts)).
Qed.

(** ** The limitation with a negative bound *)

Lemma slice0_negative {A : Type} (k : nat) (l : list A) :
  JSArray.slice0 (- Z.of_nat (S k)) l = firstn (length l - S k) l.
Proof.
  unfold JSArray.slice0.
  destruct (Z.leb_spec 0 (- Z.of_nat (S k))) as [L | _]; [lia|].
  f_equal. lia.
Qed.

(** X20.  With a negative [maxConcepts = -k] the limitation always
    applies: it drops the [k] least important concepts (all of them when
    there are at most [k]), keeps the relationships among the remaining
    ones, and records [n + k] removed concepts for a result of [n]
    concepts, more than the result had. *)
Theorem limitation_with_negative_bound
  (config : Config.t) (result : Result.t) (k : nat) :
  Config.maxConcepts config = (- Z.of_nat (S k))%Z ->
  let n := length (Result.concepts result) in
  let limited := limitConcepts config result in
  Result.concepts limited
  = firstn (n - S k) (JSArray.sort byImportanceDesc (Result.concepts result))
  /\ length (Result.concepts limited) = n - S k
  /\ Result.relationships limited
     = List.filter
         (connectsValidConcepts (conceptIdsOf (Result.concepts limited)))
         (Result.relationships result)
  /\ Metadata.limitationApplied (Result.metadata limited)
     = Some (Z.of_nat (n + S k),
             (Z.of_nat (length (Result.relationships result))
              - Z.of_nat (length (Result.relationships limited)))%Z).
Proof.
  intros Hmax. cbv zeta. unfold limitConcepts. rewrite Hmax.
  destruct (Z.ltb_spec (- Z.of_nat (S k))
                       (Z.of_nat (length (Result.concepts result))))
    as [_ | L]; [|lia].
  cbn [Result.concepts Result.relationships Result.metadata
       Metadata.limitationApplied].
  rewrite slice0_negative, sort_length.
  split; [reflexivity|].
  split; [rewrite length_firstn, sort_length; lia|].
  split; [reflexivity|].
  do 2 f_equal. lia.
Qed.

(** ** Disabled stages *)

Lemma slice0_incl {A : Type} (n : Z) (l : list A) (x : A) :
  In x (JSArray.slice0 n l) -> In x l.
Proof.
  unfold JSArray.slice0.
  destruct (0 <=? n)%Z; apply Subsequence_In, Subsequence_firstn.
Qed.

Lemma limit_concepts_In (config : Config.t) (r : Result.t) (c : Concept.t) :
  In c (Result.concepts (limitConcepts config r)) -> In c (Result.concepts r).
Proof.
  unfold limitConcepts.
  destruct (Config.maxConcepts config <? Z.of_nat (length (Result.concepts r)))%Z;
    [|auto].
  cbn [Result.concepts]. intros H. apply slice0_incl in H.
  now apply (Permutation_in _ (sort_perm _ _)) in H.
Qed.

Lemma limit_emojis (config : Config.t) (r : Result.t) :
  Result.conceptEmojis (limitConcepts config r) = Result.conceptEmojis r.
Proof.
  unfold limitConcepts.
  now destruct (Config.maxConcepts config
                <? Z.of_nat (length (Result.concepts r)))%Z.
Qed.

Lemma Forall_incl {A : Type} (Q : A -> Prop) (l l' : list A) :
  (forall x, In x l -> In x l') -> Forall Q l' -> Forall Q l.
Proof.
  intros H HQ. rewrite Forall_forall in *. auto.
Qed.

Lemma concepts_keep (Q : Concept.t -> Prop) (rnd : nat -> nat) (text : string)
  (config : Config.t) :
  (forall c, Q (bare c)) ->
  (Stages.enrichment (Config.stages config) = true ->
   forall c, Q c -> Q (enrich c)) ->
  (Stages.aesthetics (Config.stages config) = true ->
   forall visualSettings c, Q c -> Q (formatConcept visualSettings c)) ->
  Forall Q (Result.concepts (processText rnd text config)).
Proof.
  intros Hbare Henrich Hformat.
  apply (processText_stages
           (fun r => Forall Q (Result.concepts r))
           (fun r => Forall Q (Result.concepts r))).
  - intros _ r H. now rewrite step2_concepts.
  - intros E r H. cbn [step3_EnrichSemantically Result.concepts].
    apply Forall_map. revert H. apply Forall_impl. auto.
  - intros r H. destruct (Stages.validation (Config.stages config)); [|exact H].
    cbn [step4_VerifyAndValidate Result.concepts].
    rewrite removeRedundantConcepts_keptFrom.
    refine (Subsequence_Forall _ _ _ _ H).
    refine (Subsequence_trans _ _ _ (keptFrom_Subsequence _ _) _).
    apply Subsequence_filter.
  - intros E r H. cbn [step5_OptimizeVisualPresentation Result.concepts].
    apply Forall_map. revert H. apply Forall_impl. auto.
  - intros r. apply Forall_incl, limit_concepts_In.
  - intros r content H. exact H.
  - destruct (Stages.organization (Config.stages config)); [|constructor].
    rewrite step1_concepts, <- bare_extracted.
    apply Forall_map, Forall_forall. auto.
Qed.

Lemma analyze_lineStyle (rnd : nat -> nat) (text : string)
  (concepts : list Concept.t) (k : nat) :
  Forall (fun r => Relationship.lineStyle r = None)
         (fst (analyzeRelationships rnd text concepts k)).
Proof.
  unfold analyzeRelationships, Rand.bind, Rand.ret.
  pose proof (classify_Forall2 rnd
                (identifyConceptRelationships text concepts) k) as H2.
  destruct (classifyRelationshipTypes rnd
              (identifyConceptRelationships text concepts) k)
    as [typed k'].
  cbn [fst] in *. unfold assignRelationshipStrength. apply Forall_map.
  assert (H : Forall (fun rel => Relationship.lineStyle rel = None)
                     (identifyConceptRelationships text concepts)).
  { apply Forall_forall. intros x Hx. apply identify_In in Hx.
    destruct Hx as (s & t & _ & _ & _ & _ & ->). reflexivity. }
  refine (Forall2_Forall_l _ _ _ _ _ _ H H2).
  intros a b Ha (_ & _ & _ & _ & _ & _ & _ & Hl).
  cbn [adjustStrength Relationship.lineStyle]. congruence.
Qed.

Lemma reasoning_off (rnd : nat -> nat) (text : string) (config : Config.t) :
  Stages.reasoning (Config.stages config) = false ->
  Result.relationships (processText rnd text config) = [].
Proof.
  intros Hoff.
  apply (processText_stages
           (fun r => Result.relationships r = [])
           (fun r => Result.relationships r = [])).
  - congruence.
  - intros _ r H. exact H.
  - intros r H. destruct (Stages.validation (Config.stages config)); [|exact H].
    cbn [step4_VerifyAndValidate Result.relationships]. now rewrite H.
  - intros _ r H.
    cbn [step5_OptimizeVisualPresentation Result.relationships]. now rewrite H.
  - intros r H.
    pose proof (limit_relationships_Subsequence config r) as S.
    rewrite H in S. now inversion S.
  - intros r content H. exact H.
  - now destruct (Stages.organization (Config.stages config)).
Qed.

Lemma organization_off (rnd : nat -> nat) (text : string) (config : Config.t) :
  Stages.organization (Config.stages config) = false ->
  Result.concepts (processText rnd text config) = []
  /\ Result.relationships (processText rnd text config) = []
  /\ Result.content (processText rnd text config) = Some title.
Proof.
  intros Hoff.
  assert (H : Result.concepts (processText rnd text config) = []
              /\ Result.relationships (processText rnd text config) = []).
  { apply (processText_stages
             (fun r => Result.concepts r = [] /\ Result.relationships r = [])
             (fun r => Result.concepts r = [] /\ Result.relationships r = [])).
    - intros _ r [Hc Hr]. rewrite step2_concepts, step2_relationships, Hc.
      split; reflexivity.
    - intros _ r [Hc Hr].
      cbn [step3_EnrichSemantically Result.concepts Result.relationships].
      now rewrite Hc.
    - intros r [Hc Hr].
      destruct (Stages.validation (Config.stages config)); [|now split].
      cbn [step4_VerifyAndValidate Result.concepts Result.relationships].
      now rewrite Hc, Hr.
    - intros _ r [Hc Hr].
      cbn [step5_OptimizeVisualPresentation Result.concepts
           Result.relationships].
      now rewrite Hc, Hr.
    - intros r [Hc Hr]. split.
      + destruct (Result.concepts (limitConcepts config r)) as [|c l] eqn:E;
          [reflexivity|].
        assert (X : In c (Result.concepts r)).
        { apply (limit_concepts_In config). rewrite E. now left. }
        now rewrite Hc in X.
      + pose proof (limit_relationships_Subsequence config r) as S.
        rewrite Hr in S. now inversion S.
    - intros r content H. exact H.
    - rewrite Hoff. now split. }
  destruct H as [Hc Hr]. split; [exact Hc|]. split; [exact Hr|].
  rewrite content_of_result, content_sections, Hc. reflexivity.
Qed.

(** X21.  A stage that the configuration disables leaves no trace in the
    result.  Without the organization stage there is no concept and no
    relationship and the content is the bare title; without the reasoning
    stage there is no relationship; without the enrichment stage no concept
    carries a definition, examples, related terms or a classification;
    without the aesthetics stage there is no emoji table and no concept or
    relationship carries formatting. *)
Theorem disabled_stages_leave_no_trace
  (rnd : nat -> nat) (text : string) (config : Config.t) :
  let result := processText rnd text config in
  let stages := Config.stages config in
  (Stages.organization stages = true
   \/ (Result.concepts result = [] /\ Result.relationships result = []
       /\ Result.content result = Some title))
  /\ (Stages.reasoning stages = true \/ Result.relationships result = [])
  /\ (Stages.enrichment stages = true
      \/ Forall (fun c => Concept.definition c = None
                          /\ Concept.examples c = None
                          /\ Concept.relatedTerms c = None
                          /\ Concept.classification c = None)
                (Result.concepts result))
  /\ (Stages.aesthetics stages = true
      \/ (Result.conceptEmojis result = None
          /\ Forall (fun c => Concept.formatting c = None)
                    (Result.concepts result)
          /\ Forall (fun r => Relationship.lineStyle r = None)
                    (Result.relationships result))).
Proof.
  cbv zeta. split; [|split; [|split]].
  - destruct (Stages.organization (Config.stages config)) eqn:E;
      [now left | right; now apply organization_off].
  - destruct (Stages.reasoning (Config.stages config)) eqn:E;
      [now left | right; now apply reasoning_off].
  - destruct (Stages.enrichment (Config.stages config)) eqn:E;
      [now left | right].
    apply concepts_keep.
    + intros c. repeat split.
    + congruence.
    + intros _ vs c H. exact H.
  - destruct (Stages.aesthetics (Config.stages config)) eqn:E;
      [now left | right].
    split; [|split].
    + apply (processText_stages
               (fun r => Result.conceptEmojis r = None)
               (fun r => Result.conceptEmojis r = None)).
      * intros _ r H. unfold step2_AnalyzeRelationships, Rand.run, Rand.bind,
          Rand.ret.
        now destruct (analyzeRelationships rnd text (Result.concepts r) 0).
      * intros _ r H. exact H.
      * intros r H. destruct (Stages.validation (Config.stages config));
          exact H.
      * congruence.
      * intros r H. now rewrite limit_emojis.
      * intros r content H. exact H.
      * now destruct (Stages.organization (Config.stages config)).
    + apply concepts_keep.
      * reflexivity.
      * intros _ c H. rewrite <- H. apply enrich_fields.
      * congruence.
    + apply (processText_stages
               (fun r => Forall (fun rel => Relationship.lineStyle rel = None)
                                (Result.relationships r))
               (fun r => Forall (fun rel => Relationship.lineStyle rel = None)
                                (Result.relationships r))).
      * intros _ r H. rewrite step2_relationships. apply analyze_lineStyle.
      * intros _ r H. exact H.
      * intros r H. destruct (Stages.validation (Config.stages config));
          [|exact H].
        cbn [step4_VerifyAndValidate Result.relationships].
        exact (Subsequence_Forall _ _ _ (validate_Subsequence _ _) H).
      * congruence.
      * intros r H.
        exact (Subsequence_Forall _ _ _
                 (limit_relationships_Subsequence config r) H).
      * intros r content H. exact H.
      * destruct (Stages.organization (Config.stages config)); constructor.
Qed.

(** ** The names of the concepts *)

Lemma prefixIgnoreCase_nonempty (w s : string) :
  0 < String.length w -> prefixIgnoreCase w s = true -> s <> "".
Proof.
  destruct w; simpl; [lia|]. intros _ H ->. discriminate.
Qed.

(** X22.  For an ASCII text of which no word cleans to [constructor] or
    [__proto__], the name of every extracted concept is the cleaned form of
    a word of the text: more than three characters, all of them lower-case
    letters, digits or underscores, none of the common words and no name of
    a member of [Object.prototype].  Its
    original form is never empty, consists of word characters and begins
    with the name, ignoring case, so the name that the document displays is
    always the original form. *)
Theorem concept_names_are_clean_tokens (text : string) :
  plainText text = true ->
  Forall
    (fun c =>
       3 < String.length (Concept.name c)
       /\ (exists word, In word (JSString.split JSString.isSpace text)
                        /\ Concept.name c = cleanWord word)
       /\ JSString.forallb JSString.isWordChar (Concept.name c) = true
       /\ JSString.forallb (fun a => negb (JSString.isUpper a)) (Concept.name c)
          = true
       /\ JSArray.has commonWords (Concept.name c) = false
       /\ JSArray.has objectPrototypeMembers (Concept.name c) = false
       /\ prefixIgnoreCase (Concept.name c) (Concept.originalForm c) = true
       /\ JSString.forallb JSString.isWordChar (Concept.originalForm c) = true
       /\ displayName c = Concept.originalForm c)
    (extractMainConcepts text).
Proof.
  intros Hplain. apply Forall_forall. intros c Hc.
  apply In_nth_error in Hc. destruct Hc as (i & Hc).
  apply extract_nth_error in Hc. destruct Hc as (_ & w & Hw & ->).
  apply nth_error_In in Hw. apply sortedWords_In in Hw.
  destruct Hw as (Hlen & Hin & Hcommon).
  assert (Hmember : JSArray.has objectPrototypeMembers w = false).
  { unfold plainText in Hplain. apply andb_true_iff in Hplain.
    exact (plainWords_keys _ w (proj2 Hplain) Hin). }
  apply in_map_iff in Hin. destruct Hin as (word & Hword & Hin).
  destruct (cleanWord_clean word) as [Hwc Hlow]. rewrite Hword in Hwc, Hlow.
  unfold makeConcept, displayName. cbn [Concept.name Concept.originalForm].
  assert (Hp : prefixIgnoreCase w (findOriginalForm w text) = true
               /\ JSString.forallb JSString.isWordChar (findOriginalForm w text)
                  = true).
  { unfold findOriginalForm.
    destruct (matchOriginalFrom false w text) as [m|] eqn:E.
    - apply matchOriginalFrom_Some in E. destruct E as (_ & Hm & Hp). auto.
    - split; [apply prefixIgnoreCase_refl | exact Hwc]. }
  destruct Hp as [Hp Hoc].
  split; [exact Hlen|]. split; [now exists word|].
  split; [exact Hwc|]. split; [exact Hlow|].
  split.
  { destruct (JSArray.has commonWords w) eqn:E; [|reflexivity].
    apply has_In in E. contradiction. }
  split; [exact Hmember|].
  split; [exact Hp|]. split; [exact Hoc|].
  pose proof (prefixIgnoreCase_nonempty w _ ltac:(lia) Hp) as Hne.
  now destruct (findOriginalForm w text).
Qed.

(** ** The hierarchy tree *)

Lemma shaped_Node (i n : string) (q : Q) (l : nat) (children : list TreeNode) :
  shaped (Node i n q l children)
  <-> length children <= 4
      /\ Forall (fun child => nodeLevel child = l + 1 /\ shaped child) children.
Proof.
  cbn [shaped]. apply and_iff_compat_l.
  induction children as [|c cs IH]; split; intros H.
  - constructor.
  - exact I.
  - destruct H as [Hc Hcs]. constructor; [exact Hc | now apply IH].
  - inversion H; subst. split; [assumption | now apply IH].
Qed.

Lemma height_Node (i n : string) (q : Q) (l : nat) (children : list TreeNode)
  (h : nat) :
  Forall (fun child => height child <= h) children ->
  height (Node i n q l children) <= S h.
Proof.
  cbn [height]. intros H. apply le_n_S.
  induction H as [|c cs Hc _ IH]; [lia|]. lia.
Qed.

Lemma nodeIds_Node (i n : string) (q : Q) (l : nat) (children : list TreeNode) :
  nodeIds (Node i n q l children) = i :: flat_map nodeIds children.
Proof.
  reflexivity.
Qed.

Lemma slice4_length {A : Type} (l : list A) : length (JSArray.slice0 4 l) <= 4.
Proof.
  unfold JSArray.slice0. cbn [Z.leb Z.compare]. rewrite length_firstn. lia.
Qed.

Lemma slice4_In {A : Type} (l : list A) (x : A) :
  In x (JSArray.slice0 4 l) -> In x l.
Proof.
  apply slice0_incl.
Qed.

Lemma leaf_facts (c : Concept.t) (allConcepts : list Concept.t) (name : string) :
  In c allConcepts ->
  shaped (Node (Concept.id c) name (Concept.importance c) (Concept.level c) [])
  /\ height (Node (Concept.id c) name (Concept.importance c)
                  (Concept.level c) []) <= 1
  /\ incl (nodeIds (Node (Concept.id c) name (Concept.importance c)
                         (Concept.level c) []))
          (List.map Concept.id allConcepts).
Proof.
  intros Hin. split; [apply shaped_Node; split; [simpl; lia | constructor]|].
  split; [cbn [height]; lia|].
  rewrite nodeIds_Node. simpl. intros x [<- | []]. now apply in_map.
Qed.

Lemma children_In (parent : Concept.t) (allConcepts : list Concept.t)
  (c : Concept.t) :
  In c (JSArray.slice0 4 (List.filter (isChildOf parent) allConcepts)) ->
  In c allConcepts /\ Concept.level c = Concept.level parent + 1.
Proof.
  intros Hc. apply slice4_In, filter_In in Hc. destruct Hc as [Hin Hc].
  unfold isChildOf in Hc. apply andb_true_iff in Hc. destruct Hc as [Hl _].
  apply Nat.eqb_eq in Hl. tauto.
Qed.

Lemma buildChildren_shaped (depth : nat) (parent : Concept.t)
  (allConcepts : list Concept.t) :
  length (buildChildren depth parent allConcepts) <= 4
  /\ Forall (fun child => nodeLevel child = Concept.level parent + 1
                          /\ shaped child
                          /\ height child
                             <= 2 - Nat.min 1 (Concept.level parent)
                          /\ incl (nodeIds child)
                                  (List.map Concept.id allConcepts))
            (buildChildren depth parent allConcepts).
Proof.
  revert parent. induction depth as [|d IH]; intros parent;
    cbn [buildChildren].
  - split; [rewrite length_map; apply slice4_length|].
    apply Forall_map, Forall_forall. intros c Hc.
    apply children_In in Hc. destruct Hc as [Hin Hl].
    cbn [nodeLevel]. split; [exact Hl|].
    assert (E : (if Concept.level c <? 2 then @nil TreeNode else []) = [])
      by now destruct (Concept.level c <? 2).
    rewrite E.
    destruct (leaf_facts c allConcepts
                (JSString.orElse (Concept.originalForm c) (Concept.name c)) Hin)
      as (H1 & H2 & H3).
    split; [exact H1|]. split; [lia | exact H3].
  - split; [rewrite length_map; apply slice4_length|].
    apply Forall_map, Forall_forall. intros c Hc.
    apply children_In in Hc. destruct Hc as [Hin Hl].
    cbn [nodeLevel]. split; [exact Hl|].
    destruct (Nat.ltb_spec (Concept.level c) 2) as [L | L].
    + destruct (IH c) as [Hlen Hall].
      split.
      { apply shaped_Node. split; [exact Hlen|].
        revert Hall. apply Forall_impl. tauto. }
      split.
      { replace (2 - Nat.min 1 (Concept.level parent)) with 2 by lia.
        apply height_Node. revert Hall. apply Forall_impl.
        intros t (_ & _ & Ht & _). lia. }
      rewrite nodeIds_Node. intros x [<- | Hx]; [now apply in_map|].
      apply in_flat_map in Hx. destruct Hx as (t & Ht & Hx).
      rewrite Forall_forall in Hall.
      destruct (Hall t Ht) as (_ & _ & _ & Hincl). now apply Hincl.
    + destruct (leaf_facts c allConcepts
                  (JSString.orElse (Concept.originalForm c) (Concept.name c))
                  Hin)
        as (H1 & H2 & H3).
      split; [exact H1|]. split; [lia | exact H3].
Qed.

Lemma buildChildren_below_roots (depth : nat) (parent : Concept.t)
  (allConcepts : list Concept.t) :
  1 <= Concept.level parent ->
  buildChildren depth parent allConcepts = buildChildren 0 parent allConcepts.
Proof.
  intros Hp. destruct depth as [|d]; [reflexivity|].
  cbn [buildChildren]. apply map_ext_in. intros c Hc.
  apply children_In in Hc. destruct Hc as [_ Hl].
  destruct (Nat.ltb_spec (Concept.level c) 2) as [L | L]; [lia | reflexivity].
Qed.

Lemma buildChildren_depth (depth : nat) (parent : Concept.t)
  (allConcepts : list Concept.t) :
  buildChildren (S depth) parent allConcepts
  = buildChildren 1 parent allConcepts.
Proof.
  cbn [buildChildren]. apply map_ext_in. intros c Hc.
  apply children_In in Hc. destruct Hc as [_ Hl].
  destruct (Concept.level c <? 2); [|reflexivity].
  f_equal. rewrite (buildChildren_below_roots depth) by lia.
  reflexivity.
Qed.

(** X23.  In the hierarchy tree of a list of concepts the roots are the
    concepts of level 0, in their order; every node has at most four
    children, each exactly one level below its parent; a tree has at most
    three levels; every node is a concept of the list; and the nested calls
    of [buildConceptChildren] stop by themselves: a larger bound on their
    number gives the same tree. *)
Theorem hierarchy_tree_shape (concepts : list Concept.t) (depth : nat) :
  let tree := createHierarchicalStructure concepts in
  Hierarchy.nodes tree = concepts
  /\ List.map nodeId (Hierarchy.root tree)
     = List.map Concept.id (mainConcepts concepts)
  /\ Forall (fun root => nodeLevel root = 0
                         /\ shaped root
                         /\ height root <= 3
                         /\ incl (nodeIds root)
                                 (List.map Concept.id concepts))
            (Hierarchy.root tree)
  /\ (forall parent,
        buildChildren (2 + depth) parent concepts
        = buildConceptChildren parent concepts).
Proof.
  cbv zeta. unfold createHierarchicalStructure, buildConceptChildren.
  cbn [Hierarchy.nodes Hierarchy.root].
  rewrite atLevel_fold. cbn [atLevel Table.get app].
  fold (mainConcepts concepts).
  split; [reflexivity|].
  split; [rewrite map_map; reflexivity|].
  split.
  - apply Forall_map, Forall_forall. intros c Hc.
    unfold mainConcepts in Hc. apply filter_In in Hc. destruct Hc as [Hin Hl].
    apply Nat.eqb_eq in Hl. cbn [nodeLevel]. split; [exact Hl|].
    destruct (buildChildren_shaped 2 c concepts) as [Hlen Hall].
    split.
    { apply shaped_Node. split; [exact Hlen|].
      revert Hall. apply Forall_impl. tauto. }
    split.
    { apply height_Node. revert Hall. apply Forall_impl.
      intros t (_ & _ & Ht & _). lia. }
    rewrite nodeIds_Node. intros x [<- | Hx]; [now apply in_map|].
    apply in_flat_map in Hx. destruct Hx as (t & Ht & Hx).
    rewrite Forall_forall in Hall.
    destruct (Hall t Ht) as (_ & _ & _ & Hincl). now apply Hincl.
  - intros parent. change (2 + depth) with (S (S depth)).
    rewrite (buildChildren_depth (S depth)), (buildChildren_depth 1).
    reflexivity.
Qed.

(** ** What the aesthetics stage adds *)

Lemma find_unique (concepts : list Concept.t) (c : Concept.t) :
  NoDup (List.map Concept.id concepts) -> In c concepts ->
  JSArray.find (fun x => String.eqb (Concept.id x) (Concept.id c)) concepts
  = Some c.
Proof.
  unfold JSArray.find.
  induction concepts as [|x l IH]; simpl; [tauto|].
  intros Hnd [-> | Hin].
  - now rewrite String.eqb_refl.
  - inversion Hnd; subst.
    destruct (String.eqb_spec (Concept.id x) (Concept.id c)) as [E | _];
      [|now apply IH].
    exfalso. apply H1. rewrite E. now apply in_map.
Qed.

Lemma emoji_by_rank (text : string) (c : Concept.t) :
  In (bare c) (extractMainConcepts text) ->
  In (emojiFor c) ["⭐"; "🔎"; "📋"].
Proof.
  intros H. apply extracted_In in H. destruct H as (i & w & _ & E).
  change (emojiFor c) with (emojiFor (bare c)). rewrite E.
  unfold emojiFor, makeConcept. cbn [Concept.isCritical Concept.level].
  destruct (Nat.ltb_spec i 5); [simpl; tauto|].
  destruct (Nat.ltb_spec i 3); [lia|].
  destruct (Nat.ltb_spec i 8); simpl; tauto.
Qed.

Lemma styled_weight (visualSettings : VisualSettings.t)
  (concepts : list Concept.t) (r : Relationship.t) :
  exists w,
    Relationship.visualWeight (styleRelationship visualSettings concepts r)
    = Some w
    /\ (1 <= w <= 3)%Z
    /\ Relationship.lineStyle (styleRelationship visualSettings concepts r)
       = Some (if (w =? 3)%Z then VisualSettings.lineStrong visualSettings
               else if (w =? 2)%Z then VisualSettings.lineMedium visualSettings
               else VisualSettings.lineLight visualSettings).
Proof.
  unfold styleRelationship. cbv zeta.
  cbn [Relationship.visualWeight Relationship.lineStyle].
  eexists. split; [reflexivity|]. split; [lia | reflexivity].
Qed.

(** X24.  For a style that names no member of [Object.prototype], with the
    aesthetics stage on, the result has an emoji table that
    gives to every concept of the result its emoji, which is the star, the
    magnifying glass or the clipboard and never the bulb of level 0, since
    the concepts of level 0 are all critical; every concept carries
    formatting; and every relationship carries a visual weight of 1, 2 or 3
    with the line style of that weight in the chosen style. *)
Theorem aesthetics_decorates_the_result
  (rnd : nat -> nat) (text : string) (config : Config.t) :
  knownStyle (Config.style config) = true ->
  Stages.aesthetics (Config.stages config) = true ->
  let result := processText rnd text config in
  let visualSettings := getEducationalVisualSettings (Config.style config) in
  exists emojis,
    Result.conceptEmojis result = Some emojis
    /\ Forall (fun c => Table.get emojis (Concept.id c) = Some (emojiFor c)
                        /\ In (emojiFor c) ["⭐"; "🔎"; "📋"]
                        /\ Concept.formatting c <> None)
              (Result.concepts result)
    /\ Forall (fun r =>
                 exists w,
                   Relationship.visualWeight r = Some w
                   /\ (1 <= w <= 3)%Z
                   /\ Relationship.lineStyle r
                      = Some (if (w =? 3)%Z
                              then VisualSettings.lineStrong visualSettings
                              else if (w =? 2)%Z
                              then VisualSettings.lineMedium visualSettings
                              else VisualSettings.lineLight visualSettings))
              (Result.relationships result).
Proof.
  intros _ Haes. cbv zeta.
  set (order := fun r : Result.t =>
         Subsequence (List.map bare (Result.concepts r))
                     (extractMainConcepts text)).
  set (decorated := fun r : Result.t =>
         exists emojis,
           Result.conceptEmojis r = Some emojis
           /\ Forall (fun c => Table.get emojis (Concept.id c)
                               = Some (emojiFor c)
                               /\ In (emojiFor c) ["⭐"; "🔎"; "📋"]
                               /\ Concept.formatting c <> None)
                     (Result.concepts r)
           /\ Forall (fun r =>
                        exists w,
                          Relationship.visualWeight r = Some w
                          /\ (1 <= w <= 3)%Z
                          /\ Relationship.lineStyle r
                             = Some (if (w =? 3)%Z
                                     then VisualSettings.lineStrong
                                            (getEducationalVisualSettings
                                               (Config.style config))
                                     else if (w =? 2)%Z
                                     then VisualSettings.lineMedium
                                            (getEducationalVisualSettings
                                               (Config.style config))
                                     else VisualSettings.lineLight
                                            (getEducationalVisualSettings
                                               (Config.style config))))
                     (Result.relationships r)).
  change (decorated (processText rnd text config)).
  apply (processText_three_phases order order decorated); unfold order.
  - intros _ r H. now rewrite step2_concepts.
  - intros _ r H. cbn [step3_EnrichSemantically Result.concepts].
    rewrite (map_bare_ext enrich); [exact H | apply bare_enrich].
  - intros r H. destruct (Stages.validation (Config.stages config)); [|exact H].
    cbn [step4_VerifyAndValidate Result.concepts].
    refine (Subsequence_trans _ _ _ _ H). apply Subsequence_map.
    rewrite removeRedundantConcepts_keptFrom.
    refine (Subsequence_trans _ _ _ (keptFrom_Subsequence _ _) _).
    apply Subsequence_filter.
  - intros r H. rewrite Haes. unfold decorated.
    cbn [step5_OptimizeVisualPresentation Result.concepts
         Result.relationships Result.conceptEmojis].
    eexists. split; [reflexivity|]. split.
    + apply Forall_map, Forall_forall. intros c Hc.
      assert (Hids : NoDup (List.map Concept.id (Result.concepts r))).
      { apply (Subsequence_map Concept.id) in H. rewrite map_map in H.
        apply (Subsequence_NoDup _ _ H), extract_ids_NoDup. }
      split; [|split].
      * change (Concept.id (formatConcept _ c)) with (Concept.id c).
        change (emojiFor (formatConcept _ c)) with (emojiFor c).
        unfold assignRelevantEmojis. rewrite get_assignRelevantEmojis.
        rewrite find_unique.
        -- reflexivity.
        -- rewrite map_rev. apply NoDup_rev, Hids.
        -- now apply in_rev in Hc.
      * change (emojiFor (formatConcept _ c)) with (emojiFor c).
        apply (emoji_by_rank text).
        apply (Subsequence_In _ _ _ H). now apply in_map.
      * discriminate.
    + apply Forall_map, Forall_forall. intros rel _. apply styled_weight.
  - intros r (emojis & He & Hc & Hr). unfold decorated.
    rewrite limit_emojis. exists emojis. split; [exact He|]. split.
    + revert Hc. apply Forall_incl, limit_concepts_In.
    + exact (Subsequence_Forall _ _ _
               (limit_relationships_Subsequence config r) Hr).
  - intros r content H. exact H.
  - destruct (Stages.organization (Config.stages config)).
    + rewrite step1_concepts, bare_extracted. apply Subsequence_refl.
    + apply Subsequence_nil_l.
Qed.

(** ** Instances *)

Lemma wordFrequency_counts_cleaned_words_witness :
  plainWords ["Alpha,"; "alpha"; "beta"; "it"] = true
  /\ JSArray.has objectPrototypeMembers "alpha" = false
  /\ frequencyOf (wordFrequencyOf ["Alpha,"; "alpha"; "beta"; "it"]) "alpha"
     = 2.
Proof.
  assert (H1 : plainWords ["Alpha,"; "alpha"; "beta"; "it"] = true)
    by reflexivity.
  assert (H2 : JSArray.has objectPrototypeMembers "alpha" = false)
    by reflexivity.
  split; [exact H1|]. split; [exact H2|].
  exact (proj1 (wordFrequency_counts_cleaned_words
                  ["Alpha,"; "alpha"; "beta"; "it"] "alpha" H1 H2)).
Defined.

Lemma eligible_tokens_witness :
  plainText fourWords = true /\ NoDup (sortedWords fourWords).
Proof.
  assert (H : plainText fourWords = true) by (vm_compute; reflexivity).
  split; [exact H|]. exact (proj1 (eligible_tokens fourWords H)).
Defined.

Lemma extracted_concept_at_rank_witness :
  let c := hd (sampleConcept 0 0 "" 0 false) (extractMainConcepts fourWords) in
  plainText fourWords = true
  /\ nth_error (extractMainConcepts fourWords) 0 = Some c
  /\ Concept.id c = ("concept-" ++ JSString.ofNat 0)%string
  /\ Concept.isCritical c = (0 <? 5).
Proof.
  cbv zeta.
  assert (H0 : plainText fourWords = true) by (vm_compute; reflexivity).
  assert (H : nth_error (extractMainConcepts fourWords) 0
              = Some (hd (sampleConcept 0 0 "" 0 false)
                         (extractMainConcepts fourWords)))
    by (vm_compute; reflexivity).
  destruct (extracted_concept_at_rank fourWords 0 _ H0 H)
    as (_ & _ & Hid & _ & Hcrit & _).
  split; [exact H0|]. split; [exact H|]. split; [exact Hid | exact Hcrit].
Defined.

Lemma step1_keeps_extraction_order_witness :
  plainText fourWords = true
  /\ Result.concepts
       (step1_OrganizeAndHierarchize fourWords (emptyResult fourWords))
     = extractMainConcepts fourWords.
Proof.
  assert (H : plainText fourWords = true) by (vm_compute; reflexivity).
  split; [exact H|].
  exact (proj1 (step1_keeps_extraction_order
                  fourWords (emptyResult fourWords) H)).
Defined.

Lemma stage3_fills_extracted_concepts_witness :
  plainText fourWords = true
  /\ length (extractMainConcepts fourWords)
     = length (Result.concepts
                 (step3_EnrichSemantically fourWords
                    (step1_OrganizeAndHierarchize fourWords
                       (emptyResult fourWords)))).
Proof.
  assert (H : plainText fourWords = true) by (vm_compute; reflexivity).
  split; [exact H|].
  exact (Forall2_length (stage3_fills_extracted_concepts fourWords H)).
Defined.

Lemma result_concepts_in_extraction_order_witness :
  plainText fourWords = true
  /\ length (Result.concepts (processText (fun _ => 0) fourWords defaultConfig))
     <= 15.
Proof.
  assert (H : plainText fourWords = true) by (vm_compute; reflexivity).
  split; [exact H|].
  exact (proj1 (proj2 (result_concepts_in_extraction_order
                         (fun _ => 0) fourWords defaultConfig H))).
Defined.

Lemma emoji_table_by_concept_witness :
  JSArray.has objectPrototypeMembers "concept-1" = false
  /\ emojiOf (assignRelevantEmojis mixedConcepts) "concept-1" = "🔎".
Proof.
  assert (H : JSArray.has objectPrototypeMembers "concept-1" = false)
    by reflexivity.
  split; [exact H|].
  exact (proj2 (emoji_table_by_concept mixedConcepts "concept-1" H)).
Defined.

Lemma concept_names_are_clean_tokens_witness :
  plainText fourWords = true
  /\ Forall (fun c => 3 < String.length (Concept.name c))
            (extractMainConcepts fourWords).
Proof.
  assert (H : plainText fourWords = true) by (vm_compute; reflexivity).
  split; [exact H|].
  refine (Forall_impl _ _ (concept_names_are_clean_tokens fourWords H)).
  intros c Hc. exact (proj1 Hc).
Defined.

Lemma original_form_begins_with_token_witness :
  JSString.forallb JSString.isWordChar "alpha" = true
  /\ prefixIgnoreCase "alpha" (findOriginalForm "alpha" "The Alphabet soup")
     = true.
Proof.
  assert (H : JSString.forallb JSString.isWordChar "alpha" = true)
    by reflexivity.
  split; [exact H|].
  exact (proj1 (original_form_begins_with_token "alpha" "The Alphabet soup" H)).
Defined.

Lemma sortConceptsByRelevance_groups_by_level_witness :
  (forall c, In c twoConcepts -> Concept.level c < 10)
  /\ Permutation (sortConceptsByRelevance twoConcepts) twoConcepts.
Proof.
  assert (H : forall c, In c twoConcepts -> Concept.level c < 10)
    by (intros c [<- | [<- | []]]; simpl; lia).
  split; [exact H|].
  exact (proj1 (sortConceptsByRelevance_groups_by_level twoConcepts H)).
Defined.

Lemma coherence_score_between_0_and_1_3_witness :
  2 <= length twoConcepts
  /\ NoDup (List.map Concept.id twoConcepts)
  /\ endpointsIn twoConcepts bothDirections
  /\ NoDup (List.map endpoints bothDirections)
  /\ (forall r, In r bothDirections ->
                Relationship.source r <> Relationship.target r)
  /\ exists q, isFinite (calculateCoherenceScore twoConcepts bothDirections) q
               /\ (0 <= q)%Q /\ (q <= 1.3)%Q.
Proof.
  assert (H1 : 2 <= length twoConcepts) by (simpl; lia).
  assert (H2 : NoDup (List.map Concept.id twoConcepts)).
  { simpl. repeat constructor; simpl; intuition discriminate. }
  assert (H3 : endpointsIn twoConcepts bothDirections).
  { intros r [<- | [<- | []]]; simpl; tauto. }
  assert (H4 : NoDup (List.map endpoints bothDirections)).
  { simpl. repeat constructor; simpl; intuition discriminate. }
  assert (H5 : forall r, In r bothDirections ->
                         Relationship.source r <> Relationship.target r).
  { intros r [<- | [<- | []]]; simpl; discriminate. }
  split; [exact H1|]. split; [exact H2|]. split; [exact H3|].
  split; [exact H4|]. split; [exact H5|].
  exact (coherence_score_between_0_and_1_3 twoConcepts bothDirections
           H1 H2 H3 H4 H5).
Defined.

Lemma most_frequent_token_heads_the_result_witness :
  plainText fourWords = true
  /\ knownStyle (Config.style defaultConfig) = true
  /\ sortedWords fourWords = "alpha" :: ["beta"; "gamma"; "delta"]
  /\ Stages.organization (Config.stages defaultConfig) = true
  /\ (1 <= Config.maxConcepts defaultConfig)%Z
  /\ exists c rest,
       Result.concepts (processText (fun _ => 0) fourWords defaultConfig)
       = c :: rest
       /\ Concept.name c = "alpha".
Proof.
  assert (Ht : plainText fourWords = true) by (vm_compute; reflexivity).
  assert (Hk : knownStyle (Config.style defaultConfig) = true)
    by reflexivity.
  assert (H1 : sortedWords fourWords = "alpha" :: ["beta"; "gamma"; "delta"])
    by (vm_compute; reflexivity).
  assert (H2 : Stages.organization (Config.stages defaultConfig) = true)
    by reflexivity.
  assert (H3 : (1 <= Config.maxConcepts defaultConfig)%Z) by (simpl; lia).
  destruct (most_frequent_token_heads_the_result
              (fun _ => 0) fourWords defaultConfig
              "alpha" ["beta"; "gamma"; "delta"] Ht Hk H1 H2 H3)
    as (c & rest & tail & E & _ & Hname & _).
  split; [exact Ht|]. split; [exact Hk|].
  split; [exact H1|]. split; [exact H2|]. split; [exact H3|].
  exists c, rest. split; [exact E | exact Hname].
Defined.

Lemma part_of_points_to_a_shallower_level_witness :
  let result := processText (fun _ => 0) fourWords defaultConfig in
  let r := firstRelationship result in
  Stages.validation (Config.stages defaultConfig) = true
  /\ In r (Result.relationships result)
  /\ Relationship.type r = "es parte de"
  /\ exists source target,
       In source (Result.concepts result)
       /\ In target (Result.concepts result)
       /\ Concept.id source = Relationship.source r
       /\ Concept.id target = Relationship.target r
       /\ Concept.level target < Concept.level source.
Proof.
  cbv zeta.
  assert (H1 : Stages.validation (Config.stages defaultConfig) = true)
    by reflexivity.
  assert (H2 : In (firstRelationship
                     (processText (fun _ => 0) fourWords defaultConfig))
                  (Result.relationships
                     (processText (fun _ => 0) fourWords defaultConfig)))
    by (vm_compute; left; reflexivity).
  assert (H3 : Relationship.type
                 (firstRelationship
                    (processText (fun _ => 0) fourWords defaultConfig))
               = "es parte de")
    by (vm_compute; reflexivity).
  split; [exact H1|]. split; [exact H2|]. split; [exact H3|].
  exact (part_of_points_to_a_shallower_level
           (fun _ => 0) fourWords defaultConfig H1 _ H2 H3).
Defined.

Lemma limitation_with_negative_bound_witness :
  Config.maxConcepts negativeConfig = (- Z.of_nat 1)%Z
  /\ length (Result.concepts
               (limitConcepts negativeConfig
                  (resultOf mixedConcepts bothDirections)))
     = length mixedConcepts - 1.
Proof.
  assert (H : Config.maxConcepts negativeConfig = (- Z.of_nat 1)%Z)
    by reflexivity.
  destruct (limitation_with_negative_bound
              negativeConfig (resultOf mixedConcepts bothDirections) 0 H)
    as (_ & Hlen & _).
  split; [exact H | exact Hlen].
Defined.

Lemma aesthetics_decorates_the_result_witness :
  knownStyle (Config.style defaultConfig) = true
  /\ Stages.aesthetics (Config.stages defaultConfig) = true
  /\ exists emojis,
       Result.conceptEmojis (processText (fun _ => 0) fourWords defaultConfig)
       = Some emojis.
Proof.
  assert (Hk : knownStyle (Config.style defaultConfig) = true)
    by reflexivity.
  assert (H : Stages.aesthetics (Config.stages defaultConfig) = true)
    by reflexivity.
  destruct (aesthetics_decorates_the_result
              (fun _ => 0) fourWords defaultConfig Hk H)
    as (emojis & E & _).
  split; [exact Hk|]. split; [exact H|].
  now exists emojis.
Defined.

(* ================================================================= *)
(** * The flowchart of the second service *)

(** ** Lines *)

Lemma lines_nonempty (s : string) : Diagram.lines s <> [].
Proof.
  destruct s as [|c s]; simpl; [discriminate|].
  destruct (nat_of_ascii c =? 10); [discriminate|].
  destruct (Diagram.lines s); discriminate.
Qed.

Lemma lines_app_nl (a b : string) :
  Diagram.lines (a ++ nl ++ b) = Diagram.lines a ++ Diagram.lines b.
Proof.
  change (nl ++ b)%string with (String (ascii_of_nat 10) b).
  induction a as [|c a IH]; [reflexivity|].
  cbn [append Diagram.lines].
  destruct (nat_of_ascii c =? 10); [now rewrite IH|].
  rewrite IH. pose proof (lines_nonempty a) as H.
  destruct (Diagram.lines a); [contradiction | reflexivity].
Qed.

Lemma lines_noLineFeed (s : string) :
  noLineFeed s = true -> Diagram.lines s = [s].
Proof.
  unfold noLineFeed. induction s as [|c s IH]; simpl; [reflexivity|].
  intros H. apply andb_true_iff in H. destruct H as [Hc Hs].
  apply negb_true_iff in Hc. rewrite Hc, (IH Hs). reflexivity.
Qed.

Lemma noLineFeed_app (a b : string) :
  noLineFeed (a ++ b) = noLineFeed a && noLineFeed b.
Proof.
  unfold noLineFeed. induction a as [|c a IH]; simpl; [reflexivity|].
  now rewrite IH, andb_assoc.
Qed.

Lemma countLines_nl (p : string -> bool) (a b : string) :
  Diagram.countLines p (a ++ nl ++ b)
  = Diagram.countLines p a + Diagram.countLines p b.
Proof.
  unfold Diagram.countLines.
  now rewrite lines_app_nl, filter_app, length_app.
Qed.

Lemma countLines_line (p : string -> bool) (s rest : string) :
  noLineFeed s = true ->
  Diagram.countLines p (Fixed.line s ++ rest)
  = (if p s then 1 else 0) + Diagram.countLines p rest.
Proof.
  intros H. unfold Fixed.line. rewrite append_assoc, countLines_nl.
  unfold Diagram.countLines at 1. rewrite (lines_noLineFeed s H). simpl.
  now destruct (p s).
Qed.

(** ** Chunks of whole lines *)

Lemma Writes_nil : Writes "" 0 0.
Proof. intros rest. split; reflexivity. Qed.

Lemma Writes_app (X Y : string) (n e n' e' : nat) :
  Writes X n e -> Writes Y n' e' -> Writes (X ++ Y) (n + n') (e + e').
Proof.
  intros HX HY rest. rewrite append_assoc.
  destruct (HX (Y ++ rest)%string) as [-> ->].
  destruct (HY rest) as [-> ->]. split; lia.
Qed.

Lemma Writes_line (s : string) :
  noLineFeed s = true ->
  Writes (Fixed.line s)
         (if Diagram.declaresConcept s then 1 else 0)
         (if Diagram.isLabelledEdge s then 1 else 0).
Proof.
  intros H rest. unfold Diagram.nodeCount, Diagram.edgeCount.
  now rewrite !countLines_line.
Qed.

Lemma Writes_text (s : string) :
  Writes (s ++ nl) (Diagram.nodeCount s) (Diagram.edgeCount s).
Proof.
  intros rest. unfold Diagram.nodeCount, Diagram.edgeCount.
  now rewrite append_assoc, !countLines_nl.
Qed.

Lemma Writes_silent_line (s : string) :
  noLineFeed s = true ->
  Diagram.declaresConcept s = false ->
  Diagram.isLabelledEdge s = false ->
  Writes (Fixed.line s) 0 0.
Proof.
  intros H HN HE. pose proof (Writes_line s H) as W.
  now rewrite HN, HE in W.
Qed.

Lemma Writes_concat_silent (l : list string) :
  Forall (fun X => Writes X 0 0) l -> Writes (concatAll l) 0 0.
Proof.
  induction 1 as [|X l HX _ IH]; simpl; [apply Writes_nil|].
  exact (Writes_app X (concatAll l) 0 0 0 0 HX IH).
Qed.

Lemma Writes_mapi_from_silent {A : Type} (f : nat -> A -> string)
  (l : list A) (start : nat) :
  (forall i x, In x l -> Writes (f i x) 0 0) ->
  Writes (concatAll (mapi_from f start l)) 0 0.
Proof.
  revert start.
  induction l as [|x l IH]; intros start H; simpl; [apply Writes_nil|].
  refine (Writes_app _ _ 0 0 0 0 (H start x (or_introl eq_refl)) _).
  apply IH. intros i y Hy. apply H. now right.
Qed.

Lemma Writes_mapi_silent {A : Type} (f : nat -> A -> string) (l : list A) :
  (forall i x, In x l -> Writes (f i x) 0 0) ->
  Writes (concatAll (mapi f l)) 0 0.
Proof.
  apply Writes_mapi_from_silent.
Qed.

Lemma Writes_map_nodes {A : Type} (f : A -> string) (l : list A) :
  (forall x, In x l -> Writes (f x) 1 0) ->
  Writes (concatAll (List.map f l)) (length l) 0.
Proof.
  induction l as [|x l IH]; intros H; simpl; [apply Writes_nil|].
  refine (Writes_app _ _ 1 0 (length l) 0 (H x (or_introl eq_refl)) _).
  apply IH. intros y Hy. apply H. now right.
Qed.

Lemma Writes_map_edges {A : Type} (f : A -> string) (l : list A) :
  (forall x, In x l -> Writes (f x) 0 1) ->
  Writes (concatAll (List.map f l)) 0 (length l).
Proof.
  induction l as [|x l IH]; intros H; simpl; [apply Writes_nil|].
  refine (Writes_app _ _ 0 1 0 (length l) (H x (or_introl eq_refl)) _).
  apply IH. intros y Hy. apply H. now right.
Qed.

(** ** Identifiers *)

Lemma isIdChar_plain (c : ascii) :
  Diagram.isIdChar c = true ->
  (nat_of_ascii c =? 10) = false
  /\ Ascii.eqb ">" c = false
  /\ Ascii.eqb "|" c = false.
Proof.
  destruct c as [[] [] [] [] [] [] [] []]; simpl; intros H;
    try discriminate H; repeat split.
Qed.

Lemma forallb_impl (p q : ascii -> bool) (s : string) :
  (forall c, p c = true -> q c = true) ->
  JSString.forallb p s = true -> JSString.forallb q s = true.
Proof.
  intros H. induction s as [|c s IH]; simpl; [reflexivity|].
  intros Hs. apply andb_true_iff in Hs. destruct Hs as [Hc Hs].
  now rewrite (H c Hc), (IH Hs).
Qed.

Lemma noLineFeed_idChars (id : string) :
  JSString.forallb Diagram.isIdChar id = true -> noLineFeed id = true.
Proof.
  apply forallb_impl. intros c H.
  destruct (isIdChar_plain c H) as (E & _). now rewrite E.
Qed.

Lemma isIdentifier_idChars (id : string) :
  isIdentifier id = true -> JSString.forallb Diagram.isIdChar id = true.
Proof.
  unfold isIdentifier. intros H. now apply andb_true_iff in H.
Qed.

Lemma uint_digits (d : Decimal.uint) :
  JSString.forallb JSString.isDigit (NilEmpty.string_of_uint d) = true.
Proof.
  induction d; simpl; auto.
Qed.

Lemma ofNat_idChars (n : nat) :
  JSString.forallb Diagram.isIdChar (JSString.ofNat n) = true.
Proof.
  unfold JSString.ofNat.
  refine (forallb_impl _ _ _ _ (uint_digits (Nat.to_uint n))).
  intros c H. unfold Diagram.isIdChar. rewrite H.
  now rewrite !orb_true_r.
Qed.

Lemma forallb_idChars_app (a b : string) :
  JSString.forallb Diagram.isIdChar (a ++ b)
  = JSString.forallb Diagram.isIdChar a && JSString.forallb Diagram.isIdChar b.
Proof.
  induction a as [|c a IH]; simpl; [reflexivity|].
  now rewrite IH, andb_assoc.
Qed.

(** ** The shape of each line *)

Lemma spanId_app (id : string) (c : ascii) (t : string) :
  JSString.forallb Diagram.isIdChar id = true ->
  Diagram.isIdChar c = false ->
  Diagram.spanId (id ++ String c t) = (id, String c t).
Proof.
  intros H Hc. induction id as [|a id IH]; simpl.
  - now rewrite Hc.
  - simpl in H. apply andb_true_iff in H. destruct H as [Ha H].
    now rewrite Ha, (IH H).
Qed.

Lemma opens_identifier (opening id : string) (c : ascii) (t : string) :
  JSString.forallb Diagram.isIdChar id = true ->
  Diagram.isIdChar c = false ->
  Diagram.opens opening ("    " ++ id ++ String c t)
  = negb (String.eqb id "")
    && match Diagram.afterPrefix opening (String c t) with
       | Some _ => true
       | None => false
       end.
Proof.
  intros H Hc. unfold Diagram.opens.
  change (Diagram.afterPrefix "    " ("    " ++ id ++ String c t))
    with (Some (id ++ String c t)%string).
  cbv beta iota. now rewrite (spanId_app id c t H Hc).
Qed.

(** A line that starts with the identifier of a decorative node neither
    declares a concept nor is a labelled edge. *)
Lemma decorated_line (id suffix rest : string) :
  JSString.forallb Diagram.isIdChar id = true ->
  Diagram.declaresConcept ("    " ++ (id ++ String "_" suffix) ++ rest) = false
  /\ Diagram.isLabelledEdge ("    " ++ (id ++ String "_" suffix) ++ rest)
     = false.
Proof.
  intros H. unfold Diagram.declaresConcept, Diagram.isLabelledEdge.
  rewrite append_assoc.
  change (String "_" suffix ++ rest)%string with (String "_" (suffix ++ rest)).
  rewrite !(opens_identifier _ id "_" _ H eq_refl).
  split; apply andb_false_r.
Qed.

(** After an identifier and a character that is neither a hyphen nor [>],
    no arrow has been read. *)
Lemma no_arrow_in_identifier (id : string) (c : ascii) (t : string) :
  JSString.forallb Diagram.isIdChar id = true ->
  Ascii.eqb "-" c = false -> Ascii.eqb ">" c = false ->
  Diagram.afterPrefix ("--> |" ++ Fixed.dq) (id ++ String c t) = None.
Proof.
  intros H H1 H2.
  destruct id as [|a [|b [|d id]]]; cbn [append Diagram.afterPrefix Fixed.dq].
  - now rewrite H1.
  - destruct (Ascii.eqb "-" a); [|reflexivity]. now rewrite H1.
  - destruct (Ascii.eqb "-" a); [|reflexivity].
    destruct (Ascii.eqb "-" b); [|reflexivity]. now rewrite H2.
  - destruct (Ascii.eqb "-" a); [|reflexivity].
    destruct (Ascii.eqb "-" b); [|reflexivity].
    simpl in H. apply andb_true_iff in H. destruct H as [_ H].
    apply andb_true_iff in H. destruct H as [_ H].
    apply andb_true_iff in H. destruct H as [H _].
    destruct (isIdChar_plain d H) as (_ & E & _). now rewrite E.
Qed.

Lemma no_bar_at_identifier (p id suffix : string) :
  JSString.forallb Diagram.isIdChar id = true ->
  Diagram.afterPrefix (String "|" p) (id ++ String "_" suffix) = None.
Proof.
  intros H. destruct id as [|a id]; [reflexivity|].
  cbn [append Diagram.afterPrefix].
  simpl in H. apply andb_true_iff in H. destruct H as [H _].
  destruct (isIdChar_plain a H) as (_ & _ & E). now rewrite E.
Qed.

Lemma declaration_noLineFeed (id label : string) :
  noLineFeed id = true -> noLineFeed label = true ->
  noLineFeed (Fixed.declaration id label) = true.
Proof.
  intros H1 H2. unfold Fixed.declaration.
  rewrite !noLineFeed_app, H1, H2. reflexivity.
Qed.

Lemma classStatement_noLineFeed (id className : string) :
  noLineFeed id = true -> noLineFeed className = true ->
  noLineFeed (Fixed.classStatement id className) = true.
Proof.
  intros H1 H2. unfold Fixed.classStatement.
  rewrite !noLineFeed_app, H1, H2. reflexivity.
Qed.

Lemma arrow_noLineFeed (source target : string) :
  noLineFeed source = true -> noLineFeed target = true ->
  noLineFeed (Fixed.arrow source target) = true.
Proof.
  intros H1 H2. unfold Fixed.arrow.
  rewrite !noLineFeed_app, H1, H2. reflexivity.
Qed.

Lemma decorated_noLineFeed (id suffix : string) :
  JSString.forallb Diagram.isIdChar id = true ->
  noLineFeed suffix = true ->
  noLineFeed (id ++ String "_" suffix) = true.
Proof.
  intros H1 H2. rewrite noLineFeed_app, (noLineFeed_idChars id H1).
  unfold noLineFeed in *. simpl. exact H2.
Qed.

(** The declaration of a concept. *)
Lemma Writes_declaration (id label : string) :
  isIdentifier id = true -> noLineFeed label = true ->
  Writes (Fixed.line (Fixed.declaration id label)) 1 0.
Proof.
  intros Hid Hl. pose proof (isIdentifier_idChars id Hid) as Hc.
  pose proof (Writes_line (Fixed.declaration id label)
                (declaration_noLineFeed id label
                   (noLineFeed_idChars id Hc) Hl)) as W.
  unfold Diagram.declaresConcept, Diagram.isLabelledEdge, Fixed.declaration in W.
  change ("[" ++ Fixed.dq ++ label ++ Fixed.dq ++ "]")%string
    with (String "[" (Fixed.dq ++ label ++ Fixed.dq ++ "]")) in W.
  rewrite !(opens_identifier _ id "[" _ Hc eq_refl) in W.
  unfold isIdentifier in Hid. apply andb_true_iff in Hid.
  destruct Hid as [Hne _]. rewrite Hne in W. exact W.
Qed.

(** The declaration of a decorative node. *)
Lemma Writes_decorated_declaration (id suffix label : string) :
  JSString.forallb Diagram.isIdChar id = true ->
  noLineFeed suffix = true -> noLineFeed label = true ->
  Writes (Fixed.line (Fixed.declaration (id ++ String "_" suffix) label)) 0 0.
Proof.
  intros Hc Hs Hl. apply Writes_silent_line.
  - apply declaration_noLineFeed; [now apply decorated_noLineFeed | exact Hl].
  - apply decorated_line, Hc.
  - apply decorated_line, Hc.
Qed.

Lemma classStatement_declares_nothing (id className : string) :
  Diagram.declaresConcept (Fixed.classStatement id className) = false.
Proof.
  reflexivity.
Qed.

Lemma classStatement_edge (id className : string) :
  Diagram.isLabelledEdge (Fixed.classStatement id className)
  = match Diagram.afterPrefix ("--> |" ++ Fixed.dq)
            (id ++ " " ++ className ++ ";") with
    | Some _ => true
    | None => false
    end.
Proof.
  reflexivity.
Qed.

(** The class of a concept. *)
Lemma Writes_class (id className : string) :
  JSString.forallb Diagram.isIdChar id = true ->
  noLineFeed className = true ->
  Writes (Fixed.line (Fixed.classStatement id className)) 0 0.
Proof.
  intros Hc Hn. apply Writes_silent_line.
  - apply classStatement_noLineFeed; [now apply noLineFeed_idChars | exact Hn].
  - apply classStatement_declares_nothing.
  - rewrite classStatement_edge.
    change (" " ++ className ++ ";")%string
      with (String " " (className ++ ";")).
    now rewrite (no_arrow_in_identifier id " " _ Hc eq_refl eq_refl).
Qed.

(** The class of a decorative node. *)
Lemma Writes_decorated_class (id suffix className : string) :
  JSString.forallb Diagram.isIdChar id = true ->
  noLineFeed suffix = true -> noLineFeed className = true ->
  Writes (Fixed.line (Fixed.classStatement (id ++ String "_" suffix) className))
         0 0.
Proof.
  intros Hc Hs Hn. apply Writes_silent_line.
  - apply classStatement_noLineFeed;
      [now apply decorated_noLineFeed | exact Hn].
  - apply classStatement_declares_nothing.
  - rewrite classStatement_edge, append_assoc.
    change (String "_" suffix ++ " " ++ className ++ ";")%string
      with (String "_" (suffix ++ " " ++ className ++ ";")).
    now rewrite (no_arrow_in_identifier id "_" _ Hc eq_refl eq_refl).
Qed.

(** The arrow from a concept to one of its decorative nodes. *)
Lemma Writes_arrow (source id suffix : string) :
  JSString.forallb Diagram.isIdChar source = true ->
  JSString.forallb Diagram.isIdChar id = true ->
  noLineFeed suffix = true ->
  Writes (Fixed.line (Fixed.arrow source (id ++ String "_" suffix))) 0 0.
Proof.
  intros Hs Hc Hn. apply Writes_silent_line.
  - apply arrow_noLineFeed;
      [now apply noLineFeed_idChars | now apply decorated_noLineFeed].
  - unfold Diagram.declaresConcept, Fixed.arrow.
    change (" --> " ++ id ++ String "_" suffix)%string
      with (String " " ("--> " ++ id ++ String "_" suffix)).
    rewrite (opens_identifier _ source " " _ Hs eq_refl).
    apply andb_false_r.
  - unfold Diagram.isLabelledEdge, Fixed.arrow.
    change (" --> " ++ id ++ String "_" suffix)%string
      with (String " " ("--> " ++ id ++ String "_" suffix)).
    rewrite (opens_identifier _ source " " _ Hs eq_refl).
    change (Diagram.afterPrefix (" --> |" ++ Fixed.dq)
              (String " " ("--> " ++ id ++ String "_" suffix)))
      with (Diagram.afterPrefix (String "|" Fixed.dq) (id ++ String "_" suffix)).
    rewrite (no_bar_at_identifier _ id suffix Hc). apply andb_false_r.
Qed.

(** The arrow from a decorative node. *)
Lemma Writes_decorated_arrow (id suffix target : string) :
  JSString.forallb Diagram.isIdChar id = true ->
  noLineFeed suffix = true -> noLineFeed target = true ->
  Writes (Fixed.line (Fixed.arrow (id ++ String "_" suffix) target)) 0 0.
Proof.
  intros Hc Hs Hn. apply Writes_silent_line.
  - apply arrow_noLineFeed; [now apply decorated_noLineFeed | exact Hn].
  - apply decorated_line, Hc.
  - apply decorated_line, Hc.
Qed.

(** The labelled edge of a relationship. *)
Lemma Writes_labelledArrow (rel : Fixed.Relationship.t) :
  printableRelationship rel = true ->
  Writes (Fixed.line (Fixed.labelledArrow rel)) 0 1.
Proof.
  unfold printableRelationship. intros H.
  apply andb_true_iff in H. destruct H as [H Hl].
  apply andb_true_iff in H. destruct H as [Hid Ht].
  pose proof (isIdentifier_idChars _ Hid) as Hc.
  assert (Hlabel : noLineFeed match Fixed.Relationship.label rel with
                              | Some label => label
                              | None => ""
                              end = true)
    by (destruct (Fixed.Relationship.label rel); [exact Hl | reflexivity]).
  assert (Hn : noLineFeed (Fixed.labelledArrow rel) = true).
  { unfold Fixed.labelledArrow.
    rewrite !noLineFeed_app, (noLineFeed_idChars _ Hc), Hlabel, Ht.
    reflexivity. }
  pose proof (Writes_line _ Hn) as W.
  unfold Diagram.declaresConcept, Diagram.isLabelledEdge in W.
  unfold Fixed.labelledArrow in W at 2 3.
  set (tail := (Fixed.dq ++ match Fixed.Relationship.label rel with
                            | Some label => label
                            | None => ""
                            end
                ++ Fixed.dq ++ "|" ++ Fixed.Relationship.target rel)%string)
    in W.
  change (" --> |" ++ tail)%string with (String " " ("--> |" ++ tail)) in W.
  rewrite !(opens_identifier _ _ " " _ Hc eq_refl) in W.
  unfold isIdentifier in Hid. apply andb_true_iff in Hid.
  destruct Hid as [Hne _]. rewrite Hne in W. exact W.
Qed.

(** ** The chunks of the emitter *)

Lemma Writes_counts (X : string) (n e n' e' : nat) :
  Writes X n e -> n = n' -> e = e' -> Writes X n' e'.
Proof.
  now intros H <- <-.
Qed.

Lemma Writes_nl : Writes nl 0 0.
Proof.
  exact (Writes_silent_line "" eq_refl eq_refl eq_refl).
Qed.

(** A decorative node whose label runs over several lines. *)
Lemma Writes_declaration_of_lines (id suffix first more : string) :
  JSString.forallb Diagram.isIdChar id = true ->
  noLineFeed suffix = true -> noLineFeed first = true ->
  Writes more 0 0 ->
  Writes (Fixed.line (Fixed.declaration (id ++ String "_" suffix)
                                        (first ++ nl ++ more)))
         0 0.
Proof.
  intros Hc Hs Hf Hm.
  assert (E : Fixed.line (Fixed.declaration (id ++ String "_" suffix)
                                            (first ++ nl ++ more))
              = (Fixed.line ("    " ++ (id ++ String "_" suffix)
                             ++ "[" ++ Fixed.dq ++ first)
                 ++ more ++ Fixed.line (Fixed.dq ++ "]"))%string).
  { unfold Fixed.line, Fixed.declaration. now rewrite !append_assoc. }
  rewrite E.
  refine (Writes_app _ _ 0 0 0 0 _ (Writes_app _ _ 0 0 0 0 Hm _)).
  - apply Writes_silent_line.
    + rewrite !noLineFeed_app, (noLineFeed_idChars id Hc), Hf.
      change (noLineFeed (String "_" suffix)) with (noLineFeed suffix).
      rewrite Hs. reflexivity.
    + apply decorated_line, Hc.
    + apply decorated_line, Hc.
  - now apply Writes_silent_line.
Qed.

Lemma Writes_bullet (text : string) :
  noLineFeed text = true -> Writes ("• " ++ text ++ nl) 0 0.
Proof.
  intros H. change ("• " ++ text ++ nl)%string with (Fixed.line ("• " ++ text)).
  apply Writes_silent_line; [|reflexivity|reflexivity].
  rewrite noLineFeed_app, H. reflexivity.
Qed.

Section ConceptChunks.

Variable concept : Fixed.Concept.t.
Hypothesis ok : printableConcept concept = true.

Lemma printableConcept_fields :
  isIdentifier (Fixed.Concept.id concept) = true
  /\ noLineFeed (Fixed.Concept.name concept) = true
  /\ optionb noLineFeed (Fixed.Concept.icon concept) = true
  /\ optionb noLineFeed (Fixed.Concept.definition concept) = true
  /\ optionb (List.forallb printableAttribute)
             (Fixed.Concept.attributes concept) = true
  /\ optionb (List.forallb noLineFeed) (Fixed.Concept.examples concept) = true
  /\ optionb noLineFeed (Fixed.Concept.origin concept) = true.
Proof.
  pose proof ok as H. unfold printableConcept in H.
  do 6 (apply andb_true_iff in H; destruct H as [H ?]).
  repeat split; assumption.
Qed.

Lemma concept_id_chars :
  JSString.forallb Diagram.isIdChar (Fixed.Concept.id concept) = true.
Proof.
  apply isIdentifier_idChars, printableConcept_fields.
Qed.

Lemma Writes_conceptNode (mainConcept : Fixed.Concept.t) :
  Writes (Fixed.conceptNode mainConcept concept) 1 0.
Proof.
  destruct printableConcept_fields as (Hid & Hname & Hicon & _).
  unfold Fixed.conceptNode.
  destruct (String.eqb (Fixed.Concept.id concept)
                       (Fixed.Concept.id mainConcept)).
  - refine (Writes_app _ _ 1 0 0 0 _ _).
    + apply Writes_declaration; [exact Hid|].
      rewrite noLineFeed_app, Hname.
      destruct (Fixed.Concept.icon concept) as [[|a icon]|];
        [reflexivity| |reflexivity].
      simpl in Hicon. rewrite noLineFeed_app, Hicon. reflexivity.
    + apply Writes_class; [apply concept_id_chars | reflexivity].
  - now apply Writes_declaration.
Qed.

Lemma Writes_definitionNode : Writes (Fixed.definitionNode concept) 0 0.
Proof.
  destruct printableConcept_fields as (_ & _ & _ & Hdef & _).
  pose proof concept_id_chars as Hc.
  unfold Fixed.definitionNode.
  destruct (Fixed.Concept.definition concept) as [[|a definition]|];
    try apply Writes_nil.
  refine (Writes_app _ _ 0 0 0 0 _ _).
  - now apply (Writes_decorated_declaration _ "def").
  - now apply (Writes_arrow _ _ "def").
Qed.

Lemma attribute_suffix (index : nat) :
  noLineFeed ("attr_" ++ JSString.ofNat index) = true.
Proof.
  rewrite noLineFeed_app, (noLineFeed_idChars _ (ofNat_idChars index)).
  reflexivity.
Qed.

Lemma subAttribute_suffix (index subIndex : nat) :
  noLineFeed ("attr_" ++ JSString.ofNat index ++ "_sub_"
              ++ JSString.ofNat subIndex) = true.
Proof.
  rewrite !noLineFeed_app, !(noLineFeed_idChars _ (ofNat_idChars _)).
  reflexivity.
Qed.

Lemma Writes_subAttributeNode (index subIndex : nat) (subAttr : string) :
  noLineFeed subAttr = true ->
  Writes (Fixed.subAttributeNode concept
            (Fixed.Concept.id concept ++ "_attr_" ++ JSString.ofNat index)
            index subIndex subAttr)
         0 0.
Proof.
  intros Hs. pose proof concept_id_chars as Hc.
  pose proof (subAttribute_suffix index subIndex) as Hsub.
  unfold Fixed.subAttributeNode. cbv zeta.
  change (Fixed.Concept.id concept ++ "_attr_" ++ JSString.ofNat index
          ++ "_sub_" ++ JSString.ofNat subIndex)%string
    with (Fixed.Concept.id concept
          ++ String "_" ("attr_" ++ JSString.ofNat index ++ "_sub_"
                         ++ JSString.ofNat subIndex))%string.
  change (Fixed.Concept.id concept ++ "_attr_" ++ JSString.ofNat index)%string
    with (Fixed.Concept.id concept
          ++ String "_" ("attr_" ++ JSString.ofNat index))%string.
  refine (Writes_app _ _ 0 0 0 0 _ (Writes_app _ _ 0 0 0 0 _ _)).
  - now apply Writes_decorated_declaration.
  - now apply Writes_decorated_class.
  - apply Writes_decorated_arrow;
      [exact Hc | apply attribute_suffix |].
    now apply decorated_noLineFeed.
Qed.

Lemma Writes_attributeNode (index : nat) (attr : Fixed.Attribute.t) :
  printableAttribute attr = true ->
  Writes (Fixed.attributeNode concept index attr) 0 0.
Proof.
  unfold printableAttribute. intros H.
  apply andb_true_iff in H. destruct H as [Hname Hsubs].
  pose proof concept_id_chars as Hc.
  pose proof (attribute_suffix index) as Hattr.
  unfold Fixed.attributeNode. cbv zeta.
  refine (Writes_app _ _ 0 0 0 0 _
            (Writes_app _ _ 0 0 0 0 _ (Writes_app _ _ 0 0 0 0 _ _))).
  - now apply (Writes_decorated_declaration
                 _ ("attr_" ++ JSString.ofNat index)).
  - now apply (Writes_decorated_class _ ("attr_" ++ JSString.ofNat index)).
  - now apply (Writes_arrow _ _ ("attr_" ++ JSString.ofNat index)).
  - destruct (Fixed.Attribute.subAttributes attr) as [[|s subs]|];
      try apply Writes_nil.
    apply Writes_mapi_silent. intros subIndex subAttr Hin.
    apply Writes_subAttributeNode.
    simpl in Hsubs. change (List.forallb noLineFeed (s :: subs) = true) in Hsubs.
    rewrite forallb_forall in Hsubs. now apply Hsubs.
Qed.

Lemma Writes_attributeNodes : Writes (Fixed.attributeNodes concept) 0 0.
Proof.
  destruct printableConcept_fields as (_ & _ & _ & _ & Hattrs & _).
  unfold Fixed.attributeNodes.
  destruct (Fixed.Concept.attributes concept) as [[|a attrs]|];
    try apply Writes_nil.
  apply Writes_mapi_silent. intros index attr Hin.
  apply Writes_attributeNode.
  change (List.forallb printableAttribute (a :: attrs) = true) in Hattrs.
  rewrite forallb_forall in Hattrs. now apply Hattrs.
Qed.

Lemma Writes_examplesNode : Writes (Fixed.examplesNode concept) 0 0.
Proof.
  destruct printableConcept_fields as (_ & _ & _ & _ & _ & Hex & _).
  pose proof concept_id_chars as Hc.
  unfold Fixed.examplesNode.
  destruct (Fixed.Concept.examples concept) as [[|e examples]|];
    try apply Writes_nil.
  cbv zeta.
  change (List.forallb noLineFeed (e :: examples) = true) in Hex.
  rewrite (fold_append (fun example => ("• " ++ example ++ nl)%string)).
  rewrite (append_assoc "Ejemplos de uso:" nl).
  refine (Writes_app _ _ 0 0 0 0 _ (Writes_app _ _ 0 0 0 0 _ _)).
  - apply (Writes_declaration_of_lines _ "examples");
      [exact Hc | reflexivity | reflexivity |].
    apply Writes_concat_silent, Forall_map, Forall_forall.
    intros example Hin. apply Writes_bullet.
    rewrite forallb_forall in Hex. now apply Hex.
  - now apply (Writes_decorated_class _ "examples").
  - now apply (Writes_arrow _ _ "examples").
Qed.

Lemma Writes_originNode : Writes (Fixed.originNode concept) 0 0.
Proof.
  destruct printableConcept_fields as (_ & _ & _ & _ & _ & _ & Hor).
  pose proof concept_id_chars as Hc.
  unfold Fixed.originNode.
  destruct (Fixed.Concept.origin concept) as [[|a origin]|];
    try apply Writes_nil.
  cbv zeta.
  refine (Writes_app _ _ 0 0 0 0 _ (Writes_app _ _ 0 0 0 0 _ _)).
  - apply (Writes_declaration_of_lines _ "origin");
      [exact Hc | reflexivity | reflexivity |].
    now apply Writes_bullet.
  - now apply (Writes_decorated_class _ "origin").
  - now apply (Writes_arrow _ _ "origin").
Qed.

(** What the emitter writes for one concept declares that concept and
    nothing else. *)
Lemma Writes_conceptNodes (mainConcept : Fixed.Concept.t) :
  Writes (Fixed.conceptNodes mainConcept concept) 1 0.
Proof.
  unfold Fixed.conceptNodes.
  refine (Writes_app _ _ 1 0 0 0 (Writes_conceptNode mainConcept)
            (Writes_app _ _ 0 0 0 0 Writes_definitionNode
               (Writes_app _ _ 0 0 0 0 Writes_attributeNodes
                  (Writes_app _ _ 0 0 0 0 Writes_examplesNode
                     Writes_originNode)))).
Qed.

End ConceptChunks.

Lemma Writes_contextNode (index : nat) (note : Fixed.ContextNote.t) :
  printableNote note = true -> Writes (Fixed.contextNode index note) 0 0.
Proof.
  unfold printableNote. intros H.
  apply andb_true_iff in H. destruct H as [Hcontent Hid].
  pose proof (noLineFeed_idChars _ (ofNat_idChars index)) as Hn.
  unfold Fixed.contextNode. cbv zeta.
  change ("context_" ++ JSString.ofNat index)%string
    with ("context" ++ String "_" (JSString.ofNat index))%string.
  refine (Writes_app _ _ 0 0 0 0 _ (Writes_app _ _ 0 0 0 0 _ _)).
  - now apply Writes_decorated_declaration.
  - now apply Writes_decorated_class.
  - now apply Writes_arrow.
Qed.

Lemma Writes_contextNodes (result : Fixed.Result.t) :
  optionb (List.forallb printableNote) (Fixed.Result.contextNotes result)
  = true ->
  Writes (Fixed.contextNodes result) 0 0.
Proof.
  intros H. unfold Fixed.contextNodes.
  destruct (Fixed.Result.contextNotes result) as [[|n notes]|];
    try apply Writes_nil.
  apply Writes_mapi_silent. intros index note Hin.
  apply Writes_contextNode.
  change (List.forallb printableNote (n :: notes) = true) in H.
  rewrite forallb_forall in H. now apply H.
Qed.

Lemma Writes_classDefinitions : Writes Fixed.classDefinitions 0 0.
Proof.
  unfold Fixed.classDefinitions.
  repeat (refine (Writes_app _ _ 0 0 0 0 _ _);
          [now apply Writes_silent_line|]).
  apply Writes_nl.
Qed.

(** The flowchart declares each concept once and holds one labelled edge
    per relationship. *)
Lemma mermaidContent_counts (mainConcept : Fixed.Concept.t)
  (result : Fixed.Result.t) :
  printable result = true ->
  exists flowchart,
    Fixed.mermaidContent mainConcept result = (flowchart ++ "```")%string
    /\ Writes flowchart (length (Fixed.Result.concepts result))
              (length (Fixed.Result.relationships result)).
Proof.
  unfold printable. intros H.
  apply andb_true_iff in H. destruct H as [H _].
  apply andb_true_iff in H. destruct H as [H Hrels].
  apply andb_true_iff in H. destruct H as [Hconcepts Hnotes].
  rewrite forallb_forall in Hconcepts, Hrels.
  unfold Fixed.mermaidContent. cbv zeta.
  rewrite (fold_append (fun rel => Fixed.line (Fixed.labelledArrow rel))).
  rewrite (fold_append (Fixed.conceptNodes mainConcept)).
  eexists. split; [reflexivity|].
  refine (Writes_counts _ _ _ _ _
            (Writes_app _ _ (length (Fixed.Result.concepts result) + 0) 0
               0 (length (Fixed.Result.relationships result)) _ _) _ _);
    [| |lia|lia].
  - refine (Writes_app _ _ _ 0 0 0 _ (Writes_contextNodes result Hnotes)).
    refine (Writes_app _ _ 0 0 _ 0 _ _).
    + refine (Writes_app _ _ 0 0 0 0 _ Writes_classDefinitions).
      refine (Writes_app _ _ 0 0 0 0 _ _); now apply Writes_silent_line.
    + apply Writes_map_nodes. intros c Hc.
      apply Writes_conceptNodes. now apply Hconcepts.
  - apply Writes_map_edges. intros rel Hrel.
    apply Writes_labelledArrow. now apply Hrels.
Qed.

Lemma plainSummary_counts (opening summary : string) :
  plainSummary (Some summary) = true ->
  Diagram.countLines (Diagram.opens opening) summary = 0.
Proof.
  unfold plainSummary, optionb, Diagram.countLines. intros H.
  induction (Diagram.lines summary) as [|l ls IH]; [reflexivity|].
  cbn [List.forallb] in H. apply andb_true_iff in H. destruct H as [Hl Hls].
  cbn [List.filter]. unfold Diagram.opens at 1. unfold unindented in Hl.
  destruct (Diagram.afterPrefix "    " l); [discriminate Hl|]. now apply IH.
Qed.

Lemma Writes_markdownHeader (mainConcept : Fixed.Concept.t)
  (result : Fixed.Result.t) :
  noLineFeed (Fixed.Concept.name mainConcept) = true ->
  plainSummary (Fixed.Result.summary result) = true ->
  Writes (Fixed.markdownHeader mainConcept result) 0 0.
Proof.
  intros Hname Hsum.
  assert (W : Writes (Fixed.line ("# Mapa Conceptual: "
                                  ++ Fixed.Concept.name mainConcept) ++ nl)
                     0 0).
  { refine (Writes_app _ _ 0 0 0 0 _ Writes_nl).
    apply Writes_silent_line; [|reflexivity|reflexivity].
    rewrite noLineFeed_app, Hname. reflexivity. }
  unfold Fixed.markdownHeader. cbv zeta.
  destruct (Fixed.Result.summary result) as [[|a summary]|]; try exact W.
  refine (Writes_app _ _ 0 0 0 0 W (Writes_app _ _ 0 0 0 0 _ _)).
  - now apply Writes_silent_line.
  - rewrite <- append_assoc.
    refine (Writes_app _ _ 0 0 0 0 _ Writes_nl).
    pose proof (Writes_text (String a summary)) as T.
    unfold Diagram.nodeCount, Diagram.edgeCount, Diagram.declaresConcept,
      Diagram.isLabelledEdge in T.
    now rewrite !(plainSummary_counts _ _ Hsum) in T.
Qed.

(** ** The round trip of the Mermaid emitter *)

Lemma identifyMainConcept_keeps (result : Fixed.Result.t) :
  printable result = true ->
  noLineFeed (Fixed.Concept.name (fst (Fixed.identifyMainConcept result)))
  = true
  /\ printable (snd (Fixed.identifyMainConcept result)) = true
  /\ length (Fixed.Result.concepts (snd (Fixed.identifyMainConcept result)))
     = length (Fixed.Result.concepts result)
  /\ Fixed.Result.relationships (snd (Fixed.identifyMainConcept result))
     = Fixed.Result.relationships result.
Proof.
  intros H. unfold Fixed.identifyMainConcept, JSArray.find.
  assert (Hall : forall c, In c (Fixed.Result.concepts result) ->
                           noLineFeed (Fixed.Concept.name c) = true).
  { intros c Hc. unfold printable in H.
    do 3 (apply andb_true_iff in H; destruct H as [H _]).
    rewrite forallb_forall in H.
    now destruct (printableConcept_fields c (H c Hc)) as (_ & Hn & _). }
  destruct (List.find Fixed.Concept.isMainConcept
                      (Fixed.Result.concepts result)) as [explicitMain|] eqn:E;
    cbn [fst snd].
  - apply find_some in E. destruct E as [E _]. auto.
  - cbn [Fixed.Result.concepts Fixed.Result.relationships].
    pose proof (sort_perm Fixed.byImportance (Fixed.Result.concepts result))
      as Hp.
    split; [|split; [|split; [apply sort_length | reflexivity]]].
    + destruct (JSArray.sort Fixed.byImportance (Fixed.Result.concepts result))
        as [|c sorted]; [reflexivity|].
      apply Hall, (Permutation_in _ Hp). now left.
    + unfold printable in *.
      cbn [Fixed.Result.concepts Fixed.Result.contextNotes
           Fixed.Result.relationships Fixed.Result.summary].
      apply andb_true_iff in H. destruct H as [H H4].
      apply andb_true_iff in H. destruct H as [H H3].
      apply andb_true_iff in H. destruct H as [H1 H2].
      rewrite H2, H3, H4, !andb_true_r.
      apply forallb_forall. intros c Hc.
      rewrite forallb_forall in H1. apply H1, (Permutation_in _ Hp), Hc.
Qed.

(** For a printable result, the text that the Mermaid emitter returns
    declares each concept once and holds one labelled edge per
    relationship. *)
Lemma fixed_emitter_round_trip (result : Fixed.Result.t) (config : Config.t) :
  printable result = true ->
  Diagram.nodeCount (Fixed.generateEducationalConceptMap result config)
  = length (Fixed.Result.concepts result)
  /\ Diagram.edgeCount (Fixed.generateEducationalConceptMap result config)
     = length (Fixed.Result.relationships result).
Proof.
  intros H. unfold Fixed.generateEducationalConceptMap.
  destruct (identifyMainConcept_keeps result H) as (Hname & Hp & Hlen & Hrel).
  destruct (Fixed.identifyMainConcept result) as [mainConcept result'].
  cbn [fst snd] in *.
  destruct (mermaidContent_counts mainConcept result' Hp)
    as (flowchart & -> & W).
  assert (Hsum : plainSummary (Fixed.Result.summary result') = true)
    by (unfold printable in Hp; now apply andb_true_iff in Hp).
  pose proof (Writes_app _ _ 0 0 _ _
                (Writes_markdownHeader mainConcept result' Hname Hsum) W)
    as Hall.
  rewrite <- append_assoc. destruct (Hall "```"%string) as [-> ->].
  rewrite Hlen, Hrel.
  change (Diagram.nodeCount "```") with 0.
  change (Diagram.edgeCount "```") with 0.
  split; lia.
Qed.

(** ** The results of the pipeline are printable *)

Lemma wordChars_noLineFeed (s : string) :
  JSString.forallb JSString.isWordChar s = true -> noLineFeed s = true.
Proof.
  apply forallb_impl. intros c.
  destruct c as [[] [] [] [] [] [] [] []]; simpl; intros H;
    try discriminate H; reflexivity.
Qed.

Lemma originalForm_wordChars (word text : string) :
  JSString.forallb JSString.isWordChar word = true ->
  JSString.forallb JSString.isWordChar (findOriginalForm word text) = true.
Proof.
  intros H. unfold findOriginalForm.
  destruct (matchOriginalFrom false word text) as [m|] eqn:E; [|exact H].
  now apply matchOriginalFrom_Some in E.
Qed.

Lemma extracted_conceptOk (text : string) (c : Concept.t) :
  In c (extractMainConcepts text) -> conceptOk c.
Proof.
  intros Hc. apply In_nth_error in Hc. destruct Hc as (i & Hc).
  apply extract_nth_error in Hc. destruct Hc as (_ & w & Hw & ->).
  apply nth_error_In in Hw. apply sortedWords_In in Hw.
  destruct Hw as (_ & Hin & _).
  apply in_map_iff in Hin. destruct Hin as (word & <- & _).
  destruct (cleanWord_clean word) as [Hwc _].
  unfold conceptOk, makeConcept.
  cbn [Concept.id Concept.name Concept.originalForm Concept.definition
       Concept.examples optionb].
  split.
  { unfold isIdentifier. rewrite forallb_idChars_app, ofNat_idChars.
    reflexivity. }
  split; [now apply wordChars_noLineFeed|].
  split; [now apply wordChars_noLineFeed, originalForm_wordChars|].
  repeat split.
Qed.

Lemma orElse_noLineFeed (a b : string) :
  noLineFeed a = true -> noLineFeed b = true ->
  noLineFeed (JSString.orElse a b) = true.
Proof.
  now destruct a.
Qed.

Lemma generated_definition_noLineFeed (c : Concept.t) :
  noLineFeed (Concept.name c) = true ->
  noLineFeed (Concept.originalForm c) = true ->
  optionb noLineFeed (generateConciseDefinition c) = true.
Proof.
  intros Hn Ho. unfold generateConciseDefinition. cbv zeta.
  destruct (_ <? 0)%Z; [reflexivity|].
  destruct (nth_error _ _) as [d|] eqn:E; [|reflexivity].
  apply nth_error_In in E. cbn [In] in E. cbn [optionb].
  destruct E as [<- | [<- | [<- | [<- | []]]]].
  - rewrite !noLineFeed_app, Hn. reflexivity.
  - reflexivity.
  - rewrite noLineFeed_app, (orElse_noLineFeed _ _ Ho Hn). reflexivity.
  - reflexivity.
Qed.

Lemma generated_definition_unindented (c : Concept.t) :
  optionb unindented (generateConciseDefinition c) = true.
Proof.
  unfold generateConciseDefinition. cbv zeta.
  destruct (_ <? 0)%Z; [reflexivity|].
  destruct (nth_error _ _) as [d|] eqn:E; [|reflexivity].
  apply nth_error_In in E. cbn [In] in E.
  destruct E as [<- | [<- | [<- | [<- | []]]]]; reflexivity.
Qed.

Lemma forallb_firstn {A : Type} (p : A -> bool) (n : nat) (l : list A) :
  List.forallb p l = true -> List.forallb p (firstn n l) = true.
Proof.
  revert n. induction l as [|x l IH]; intros [|n]; simpl; auto.
  intros H. apply andb_true_iff in H. destruct H as [Hx Hl].
  now rewrite Hx, (IH n Hl).
Qed.

Lemma generated_examples_noLineFeed (c : Concept.t) :
  noLineFeed (Concept.name c) = true ->
  noLineFeed (Concept.originalForm c) = true ->
  List.forallb noLineFeed (findRelevantExamples c) = true.
Proof.
  intros Hn Ho. unfold findRelevantExamples. cbv zeta.
  apply forallb_firstn. cbn [List.forallb].
  rewrite noLineFeed_app, (orElse_noLineFeed _ _ Ho Hn). reflexivity.
Qed.

Lemma enrich_conceptOk (c : Concept.t) : conceptOk c -> conceptOk (enrich c).
Proof.
  intros (Hid & Hn & Ho & Hd & Hu & He & Hr).
  destruct (enrich_fields c) as (Hb & _ & Ed & Ee & Er & _).
  unfold conceptOk.
  change (Concept.id (enrich c)) with (Concept.id (bare (enrich c))).
  change (Concept.name (enrich c)) with (Concept.name (bare (enrich c))).
  change (Concept.originalForm (enrich c))
    with (Concept.originalForm (bare (enrich c))).
  rewrite Hb, Ed, Ee, Er.
  split; [exact Hid|]. split; [exact Hn|]. split; [exact Ho|].
  split; [|split; [|split]].
  - destruct (JSString.truthy (Concept.definition c)); [exact Hd|].
    now apply generated_definition_noLineFeed.
  - destruct (JSString.truthy (Concept.definition c)); [exact Hu|].
    apply generated_definition_unindented.
  - destruct (Concept.examples c); [exact He|].
    now apply generated_examples_noLineFeed.
  - destruct (Concept.relatedTerms c); [exact Hr|].
    unfold identifyRelatedTerms. cbn [optionb List.forallb].
    rewrite noLineFeed_app, Hn. reflexivity.
Qed.

Lemma pipeline_conceptOk (rnd : nat -> nat) (text : string)
  (config : Config.t) :
  Forall conceptOk (Result.concepts (processText rnd text config)).
Proof.
  apply (processText_stages
           (fun r => Forall conceptOk (Result.concepts r))
           (fun r => Forall conceptOk (Result.concepts r))).
  - intros _ r H. now rewrite step2_concepts.
  - intros _ r H. cbn [step3_EnrichSemantically Result.concepts].
    apply Forall_map. revert H. apply Forall_impl, enrich_conceptOk.
  - intros r H. destruct (Stages.validation (Config.stages config)); [|exact H].
    cbn [step4_VerifyAndValidate Result.concepts].
    rewrite removeRedundantConcepts_keptFrom.
    refine (Subsequence_Forall _ _ _ _ H).
    refine (Subsequence_trans _ _ _ (keptFrom_Subsequence _ _) _).
    apply Subsequence_filter.
  - intros _ r H. cbn [step5_OptimizeVisualPresentation Result.concepts].
    apply Forall_map. revert H. apply Forall_impl. intros c Hc. exact Hc.
  - intros r. apply Forall_incl, limit_concepts_In.
  - intros r content H. exact H.
  - destruct (Stages.organization (Config.stages config)); [|constructor].
    rewrite step1_concepts. apply Forall_forall, extracted_conceptOk.
Qed.

Lemma processText_closed (rnd : nat -> nat) (text : string)
  (config : Config.t) :
  closed (processText rnd text config).
Proof.
  unfold processText, closed. cbn [Result.concepts Result.relationships].
  apply limit_closed.
  assert (H1 : closed (if Stages.organization (Config.stages config)
                       then step1_OrganizeAndHierarchize text (emptyResult text)
                       else emptyResult text)).
  { destruct (Stages.organization (Config.stages config));
      intros r Hr; destruct Hr. }
  destruct (Stages.reasoning (Config.stages config)),
    (Stages.enrichment (Config.stages config)),
    (Stages.validation (Config.stages config)),
    (Stages.aesthetics (Config.stages config));
    auto using step2_closed, step3_closed, step4_closed, step5_closed.
Qed.

Lemma pipeline_results_are_printable (rnd : nat -> nat) (text : string)
  (config : Config.t) (summary : option string) :
  plainSummary summary = true ->
  printable (asFixedResult (processText rnd text config) summary) = true.
Proof.
  intros Hsum.
  pose proof (pipeline_conceptOk rnd text config) as Hc.
  pose proof (processText_closed rnd text config) as Hcl.
  rewrite Forall_forall in Hc.
  unfold printable, asFixedResult.
  cbn [Fixed.Result.concepts Fixed.Result.contextNotes
       Fixed.Result.relationships Fixed.Result.summary optionb].
  rewrite Hsum, !andb_true_r. apply andb_true_iff. split.
  - apply forallb_forall. intros fc Hfc.
    apply in_map_iff in Hfc. destruct Hfc as (c & <- & Hin).
    destruct (Hc c Hin) as (Hid & Hn & _ & Hd & _ & He & _).
    unfold printableConcept, asFixedConcept.
    cbn [Fixed.Concept.id Fixed.Concept.name Fixed.Concept.icon
         Fixed.Concept.definition Fixed.Concept.attributes
         Fixed.Concept.examples Fixed.Concept.origin optionb].
    now rewrite Hid, Hn, Hd, He.
  - apply forallb_forall. intros fr Hfr.
    apply in_map_iff in Hfr. destruct Hfr as (r & <- & Hin).
    destruct (Hcl r Hin) as [Hs Ht].
    apply in_map_iff in Hs. destruct Hs as (s & Es & Hs).
    apply in_map_iff in Ht. destruct Ht as (t & Et & Ht).
    destruct (Hc s Hs) as (Hids & _). destruct (Hc t Ht) as (Hidt & _).
    unfold printableRelationship, asFixedRelationship.
    cbn [Fixed.Relationship.source Fixed.Relationship.target
         Fixed.Relationship.label optionb].
    rewrite <- Es, <- Et, Hids.
    now rewrite (noLineFeed_idChars _ (isIdentifier_idChars _ Hidt)).
Qed.

(** ** The Markdown outline holds no flowchart *)

Lemma Writes_unindented_line (s : string) :
  noLineFeed s = true -> unindented s = true -> Writes (Fixed.line s) 0 0.
Proof.
  intros Hn Hu. unfold unindented in Hu.
  apply Writes_silent_line; [exact Hn| |];
    unfold Diagram.declaresConcept, Diagram.isLabelledEdge, Diagram.opens;
    now destruct (Diagram.afterPrefix "    " s).
Qed.

Lemma Writes_head (h R : string) (n e : nat) :
  noLineFeed h = true -> unindented h = true ->
  Writes R n e -> Writes (h ++ nl ++ R) n e.
Proof.
  intros Hn Hu HR. rewrite <- append_assoc.
  exact (Writes_app _ _ 0 0 n e (Writes_unindented_line h Hn Hu) HR).
Qed.

Lemma Writes_blank (R : string) (n e : nat) :
  Writes R n e -> Writes (nl ++ R) n e.
Proof.
  exact (Writes_head "" R n e eq_refl eq_refl).
Qed.

Lemma append_4 (a b c d R : string) :
  (a ++ b ++ c ++ d ++ R = (a ++ b ++ c ++ d) ++ R)%string.
Proof.
  now rewrite !append_assoc.
Qed.

Lemma join_noLineFeed (sep : string) (l : list string) :
  noLineFeed sep = true -> List.forallb noLineFeed l = true ->
  noLineFeed (JSString.join sep l) = true.
Proof.
  intros Hs. unfold JSString.join.
  induction l as [|x l IH]; [reflexivity|].
  intros H. cbn [List.forallb] in H. apply andb_true_iff in H.
  destruct H as [Hx Hl]. destruct l as [|y l]; [exact Hx|].
  change (String.concat sep (x :: y :: l))
    with (x ++ sep ++ String.concat sep (y :: l))%string.
  now rewrite !noLineFeed_app, Hx, Hs, (IH Hl).
Qed.

Lemma displayName_noLineFeed (c : Concept.t) :
  conceptOk c -> noLineFeed (displayName c) = true.
Proof.
  intros (_ & Hn & Ho & _). now apply orElse_noLineFeed.
Qed.

Section Outline.

Variable result : Result.t.
Variable conceptsByLevel : list (string * list Concept.t).
Variable emojis : list (string * string).

Hypothesis levels :
  forall level c, In c (atLevel conceptsByLevel level) -> conceptOk c.
Hypothesis types :
  forall r, In r (Result.relationships result) ->
            noLineFeed (Relationship.type r) = true.
Hypothesis emojis_plain : forall id, noLineFeed (emojiOf emojis id) = true.

Lemma relationTo_type (relations : list Relationship.t) (c : Concept.t)
  (relation : Relationship.t) :
  (forall r, In r relations -> noLineFeed (Relationship.type r) = true) ->
  relationTo relations c = Some relation ->
  noLineFeed (Relationship.type relation) = true.
Proof.
  intros H E. unfold relationTo, JSArray.find in E.
  apply find_some in E. now apply H.
Qed.

Lemma filtered_types (p : Relationship.t -> bool) :
  forall r, In r (List.filter p (Result.relationships result)) ->
            noLineFeed (Relationship.type r) = true.
Proof.
  intros r Hr. apply filter_In in Hr. now apply types.
Qed.

Lemma Writes_detailLine (subConcept : Concept.t)
  (subRelations : list Relationship.t) (detail : Concept.t) :
  conceptOk subConcept -> conceptOk detail ->
  (forall r, In r subRelations -> noLineFeed (Relationship.type r) = true) ->
  Writes (detailLine subConcept subRelations detail) 0 0.
Proof.
  intros Hs Hd Hr. unfold detailLine. cbv zeta.
  pose proof (displayName_noLineFeed detail Hd) as Hname.
  destruct Hs as (_ & Hsn & _).
  match goal with
  | |- Writes (?a ++ ?b ++ ?c ++ ?d ++ nl)%string 0 0 =>
      change (Writes (Fixed.line (a ++ b ++ c ++ d)) 0 0) ||
      (replace (a ++ b ++ c ++ d ++ nl)%string
         with (Fixed.line (a ++ b ++ c ++ d))
         by (unfold Fixed.line; now rewrite !append_assoc))
  end.
  apply Writes_unindented_line; [|reflexivity].
  rewrite !noLineFeed_app.
  assert (H1 : noLineFeed (if isBold detail
                           then ("**" ++ displayName detail ++ "**")%string
                           else displayName detail) = true).
  { destruct (isBold detail); [|exact Hname].
    rewrite !noLineFeed_app, Hname. reflexivity. }
  rewrite H1.
  destruct (relationTo subRelations detail) as [detailRelation|] eqn:E;
    [|reflexivity].
  rewrite !noLineFeed_app, (relationTo_type _ _ _ Hr E), Hsn. reflexivity.
Qed.

Lemma Writes_mainHeading (mainConcept : Concept.t) :
  conceptOk mainConcept -> Writes (mainHeading emojis mainConcept) 0 0.
Proof.
  intros Hm. unfold mainHeading. cbv zeta.
  pose proof (displayName_noLineFeed mainConcept Hm) as Hname.
  destruct Hm as (_ & _ & _ & Hd & Hu & _).
  rewrite append_4.
  apply Writes_head; [|reflexivity|apply Writes_blank].
  - rewrite !noLineFeed_app, emojis_plain.
    destruct (isBold mainConcept); [|now rewrite Hname].
    rewrite !noLineFeed_app, Hname. reflexivity.
  - destruct (Concept.definition mainConcept) as [[|a d]|];
      try apply Writes_nil.
    apply Writes_head; [exact Hd | exact Hu | apply Writes_nl].
Qed.

Lemma Writes_subConceptSection (mainConcept : Concept.t)
  (relations : list Relationship.t) (subConcept : Concept.t) :
  conceptOk mainConcept -> conceptOk subConcept ->
  (forall r, In r relations -> noLineFeed (Relationship.type r) = true) ->
  Writes (subConceptSection result conceptsByLevel emojis mainConcept
                            relations subConcept)
         0 0.
Proof.
  intros Hm Hs Hr. unfold subConceptSection. cbv zeta.
  pose proof (displayName_noLineFeed subConcept Hs) as Hname.
  pose proof Hs as (_ & _ & _ & Hd & Hu & He & Ht).
  destruct Hm as (_ & Hmn & _).
  rewrite append_4.
  apply Writes_head; [|reflexivity|apply Writes_blank].
  { rewrite !noLineFeed_app, emojis_plain.
    assert (H1 : noLineFeed (if isBold subConcept
                             then ("**" ++ displayName subConcept ++ "**")%string
                             else displayName subConcept) = true).
    { destruct (isBold subConcept); [|exact Hname].
      rewrite !noLineFeed_app, Hname. reflexivity. }
    destruct (isUnderlined subConcept); [|now rewrite H1].
    rewrite !noLineFeed_app, H1. reflexivity. }
  refine (Writes_app _ _ 0 0 0 0 _
            (Writes_app _ _ 0 0 0 0 _
               (Writes_app _ _ 0 0 0 0 _ (Writes_app _ _ 0 0 0 0 _ _)))).
  - destruct (relationTo relations subConcept) as [relation|] eqn:E;
      [|apply Writes_nil].
    rewrite append_4.
    apply Writes_head; [|reflexivity|apply Writes_nl].
    rewrite !noLineFeed_app, (relationTo_type _ _ _ Hr E), Hmn. reflexivity.
  - destruct (Concept.definition subConcept) as [[|a d]|];
      try apply Writes_nil.
    apply Writes_head; [exact Hd | exact Hu | apply Writes_nl].
  - destruct (Concept.examples subConcept) as [[|x examples]|];
      try apply Writes_nil.
    apply Writes_head; [reflexivity | reflexivity |].
    refine (Writes_app _ _ 0 0 0 0 _ Writes_nl).
    rewrite (fold_append (fun example => ("- " ++ example ++ nl)%string)).
    change (Writes (concatAll
                      (List.map (fun example => ("- " ++ example ++ nl)%string)
                                (x :: examples))) 0 0).
    apply Writes_concat_silent, Forall_map, Forall_forall.
    intros example Hin.
    change (Writes (Fixed.line ("- " ++ example)) 0 0).
    apply Writes_unindented_line; [|reflexivity].
    change (List.forallb noLineFeed (x :: examples) = true) in He.
    rewrite forallb_forall in He. rewrite noLineFeed_app, (He _ Hin).
    reflexivity.
  - destruct (List.filter _ (atLevel conceptsByLevel 2))
      as [|d details] eqn:E; [apply Writes_nil|].
    apply Writes_head; [reflexivity | reflexivity |].
    refine (Writes_app _ _ 0 0 0 0 _ Writes_nl).
    rewrite (fold_append (detailLine subConcept _)).
    change (Writes (concatAll
                      (List.map (detailLine subConcept
                                   (List.filter
                                      (fun rel =>
                                         String.eqb (Relationship.source rel)
                                                    (Concept.id subConcept))
                                      (Result.relationships result)))
                                (d :: details))) 0 0).
    apply Writes_concat_silent, Forall_map, Forall_forall.
    intros detail Hin. rewrite <- E in Hin. apply filter_In in Hin.
    apply Writes_detailLine;
      [exact Hs | exact (levels 2 detail (proj1 Hin)) | apply filtered_types].
  - destruct (Concept.relatedTerms subConcept) as [[|x terms]|];
      try apply Writes_nil.
    change ("**Términos relacionados:** "
            ++ JSString.join ", " (x :: terms) ++ nl ++ nl)%string
      with (("**Términos relacionados:** "
             ++ JSString.join ", " (x :: terms)) ++ nl ++ nl)%string.
    apply Writes_head; [|reflexivity|apply Writes_nl].
    rewrite noLineFeed_app, (join_noLineFeed ", " (x :: terms) eq_refl Ht).
    reflexivity.
Qed.

Lemma Writes_mainConceptSection (mainConcept : Concept.t) :
  conceptOk mainConcept ->
  Writes (mainConceptSection result conceptsByLevel emojis mainConcept) 0 0.
Proof.
  intros Hm. unfold mainConceptSection. cbv zeta.
  rewrite (fold_append
             (subConceptSection result conceptsByLevel emojis mainConcept
                                (relationsFrom result mainConcept))).
  refine (Writes_app _ _ 0 0 0 0 (Writes_mainHeading mainConcept Hm) _).
  apply Writes_concat_silent, Forall_map, Forall_forall.
  intros subConcept Hin. apply filter_In in Hin.
  apply Writes_subConceptSection;
    [exact Hm | exact (levels 1 subConcept (proj1 Hin)) |].
  apply filtered_types.
Qed.

End Outline.

Lemma append_empty (s : string) : (s ++ "")%string = s.
Proof.
  induction s as [|c s IH]; simpl; [reflexivity | now rewrite IH].
Qed.

(** The Markdown outline of a result whose texts hold no line feed has no
    line that declares a concept and no labelled edge. *)
Lemma outline_counts (result : Result.t) (config : Config.t) :
  Forall conceptOk (Result.concepts result) ->
  (forall r, In r (Result.relationships result) ->
             noLineFeed (Relationship.type r) = true) ->
  (forall id,
     noLineFeed (emojiOf match Result.conceptEmojis result with
                         | Some e => e
                         | None => []
                         end id) = true) ->
  Diagram.nodeCount (generateEducationalConceptMap result config) = 0
  /\ Diagram.edgeCount (generateEducationalConceptMap result config) = 0.
Proof.
  intros Hc Hr He. rewrite content_sections.
  assert (levels : forall level c,
             In c (atLevel (fold_left pushLevel (Result.concepts result) [])
                           level) ->
             conceptOk c).
  { intros level c Hin. rewrite atLevel_fold in Hin. simpl in Hin.
    apply filter_In in Hin. rewrite Forall_forall in Hc. now apply Hc. }
  assert (W : Writes (title
                      ++ concatAll
                           (List.map
                              (mainConceptSection result
                                 (fold_left pushLevel (Result.concepts result) [])
                                 match Result.conceptEmojis result with
                                 | Some e => e
                                 | None => []
                                 end)
                              (mainConcepts (Result.concepts result))))
                     0 0).
  { refine (Writes_app _ _ 0 0 0 0 _ _).
    - exact (Writes_head "# Mapa Conceptual" nl 0 0 eq_refl eq_refl Writes_nl).
    - apply Writes_concat_silent, Forall_map, Forall_forall.
      intros c Hin. unfold mainConcepts in Hin. apply filter_In in Hin.
      apply Writes_mainConceptSection; try assumption.
      rewrite Forall_forall in Hc. now apply Hc. }
  destruct (W ""%string) as [Hn Hd]. rewrite append_empty in Hn, Hd.
  exact (conj Hn Hd).
Qed.

Lemma emojiFor_noLineFeed (c : Concept.t) : noLineFeed (emojiFor c) = true.
Proof.
  unfold emojiFor. destruct (Concept.isCritical c); [reflexivity|].
  destruct (Concept.level c) as [|[|[|[|n]]]]; reflexivity.
Qed.

Lemma assigned_emojis_plain (concepts : list Concept.t) (id : string) :
  noLineFeed (emojiOf (assignRelevantEmojis concepts) id) = true.
Proof.
  unfold emojiOf, assignRelevantEmojis. rewrite get_assignRelevantEmojis.
  destruct (JSArray.find _ (rev concepts));
    [apply emojiFor_noLineFeed | reflexivity].
Qed.

Lemma pipeline_emojis_plain (rnd : nat -> nat) (text : string)
  (config : Config.t) (id : string) :
  noLineFeed (emojiOf match Result.conceptEmojis (processText rnd text config)
                      with
                      | Some e => e
                      | None => []
                      end id) = true.
Proof.
  set (plain := fun r : Result.t =>
         noLineFeed (emojiOf match Result.conceptEmojis r with
                             | Some e => e
                             | None => []
                             end id) = true).
  change (plain (processText rnd text config)).
  apply (processText_stages plain plain); unfold plain.
  - intros _ r H.
    unfold step2_AnalyzeRelationships, Rand.run, Rand.bind, Rand.ret.
    now destruct (analyzeRelationships rnd text (Result.concepts r) 0).
  - intros _ r H. exact H.
  - intros r H. destruct (Stages.validation (Config.stages config)); exact H.
  - intros _ r H. cbn [step5_OptimizeVisualPresentation Result.conceptEmojis].
    apply assigned_emojis_plain.
  - intros r H. now rewrite limit_emojis.
  - intros r content H. exact H.
  - now destruct (Stages.organization (Config.stages config)).
Qed.

Lemma pipeline_types_plain (rnd : nat -> nat) (text : string)
  (config : Config.t) :
  Forall (fun r => noLineFeed (Relationship.type r) = true)
         (Result.relationships (processText rnd text config)).
Proof.
  enough (H : wellFormed (fun r => noLineFeed (Relationship.type r) = true)
                         text (processText rnd text config))
    by (now destruct H as (_ & _ & H)).
  apply result_edges; [intros vs cs r H; exact H|].
  intros concepts _.
  pose proof (engine_edges rnd text concepts 0) as He.
  revert He. apply Forall_impl. intros r (_ & _ & H).
  destruct (3 <=? Relationship.sharedSentences r).
  - destruct H as [Ht _]. simpl in Ht.
    destruct Ht as [<- | [<- | [<- | []]]]; reflexivity.
  - destruct H as [Ht _]. simpl in Ht.
    destruct Ht as [<- | [<- | [<- | []]]]; reflexivity.
Qed.

(** Whatever the text and the configuration, the content that the pipeline
    stores holds no node declaration and no labelled edge. *)
Lemma stored_content_counts (rnd : nat -> nat) (text : string)
  (config : Config.t) :
  option_map Diagram.nodeCount (Result.content (processText rnd text config))
  = Some 0
  /\ option_map Diagram.edgeCount
                (Result.content (processText rnd text config))
     = Some 0.
Proof.
  rewrite content_of_result. cbn [option_map].
  destruct (outline_counts (processText rnd text config) config
              (pipeline_conceptOk rnd text config)
              (proj1 (Forall_forall _ _) (pipeline_types_plain rnd text config))
              (pipeline_emojis_plain rnd text config))
    as [-> ->].
  split; reflexivity.
Qed.

(** ** The round trip *)

(** C4.  For every result of the pipeline, the flowchart that the Mermaid
    emitter of the repository ([fixed-conceptMapService.js]) writes for it
    holds exactly one node declaration per concept and exactly one labelled
    edge per relationship, the decorative nodes left out: reading the text
    back gives [concepts.length] and [relationships.length].  The summary
    that is printed above the flowchart must hold no line indented by four
    spaces.  The content that the pipeline stores is not that flowchart but
    the Markdown outline of [conceptMapService.js], which holds no node
    declaration and no labelled edge at all. *)
Theorem flowchart_round_trip
  (rnd : nat -> nat) (text : string) (config : Config.t)
  (summary : option string) :
  plainSummary summary = true ->
  let result := processText rnd text config in
  let flowchart :=
    Fixed.generateEducationalConceptMap (asFixedResult result summary) config in
  Diagram.nodeCount flowchart = length (Result.concepts result)
  /\ Diagram.edgeCount flowchart = length (Result.relationships result)
  /\ option_map Diagram.nodeCount (Result.content result) = Some 0
  /\ option_map Diagram.edgeCount (Result.content result) = Some 0.
Proof.
  intros Hsum. cbv zeta.
  destruct (fixed_emitter_round_trip
              (asFixedResult (processText rnd text config) summary) config
              (pipeline_results_are_printable rnd text config summary Hsum))
    as [Hn He].
  rewrite Hn, He. unfold asFixedResult.
  cbn [Fixed.Result.concepts Fixed.Result.relationships].
  rewrite !length_map.
  split; [reflexivity|]. split; [reflexivity|].
  apply stored_content_counts.
Qed.

Lemma flowchart_round_trip_witness :
  let summary := Some ("Mapa de cuatro conceptos." ++ nl
                      ++ "- Principal: 3 conceptos")%string in
  let result := processText (fun _ => 0) fourWords defaultConfig in
  let flowchart :=
    Fixed.generateEducationalConceptMap (asFixedResult result summary)
                                        defaultConfig in
  plainSummary summary = true
  /\ length (Result.concepts result) = 4
  /\ length (Result.relationships result) = 3
  /\ Diagram.nodeCount flowchart = length (Result.concepts result)
  /\ Diagram.edgeCount flowchart = length (Result.relationships result)
  /\ option_map Diagram.nodeCount (Result.content result) = Some 0
  /\ option_map Diagram.edgeCount (Result.content result) = Some 0.
Proof.
  cbv zeta.
  assert (H : plainSummary
                (Some ("Mapa de cuatro conceptos." ++ nl
                       ++ "- Principal: 3 conceptos")%string) = true)
    by reflexivity.
  assert (H4 : length (Result.concepts
                         (processText (fun _ => 0) fourWords defaultConfig))
               = 4) by (vm_compute; reflexivity).
  assert (H3 : length (Result.relationships
                         (processText (fun _ => 0) fourWords defaultConfig))
               = 3) by (vm_compute; reflexivity).
  split; [exact H|]. split; [exact H4|]. split; [exact H3|].
  exact (flowchart_round_trip (fun _ => 0) fourWords defaultConfig _ H).
Defined.

(** X25.  For a result whose concept ids are identifiers of letters, digits
    and hyphens, whose texts hold no line feed and whose summary has no
    indented line, the text that the Mermaid emitter returns declares each
    concept once and holds one labelled edge per relationship, whatever
    icon, definition, attributes, examples, origin and context notes
    decorate it, and whether the main concept is marked or found by
    sorting. *)
Theorem mermaid_emitter_counts (result : Fixed.Result.t) (config : Config.t) :
  printable result = true ->
  Diagram.nodeCount (Fixed.generateEducationalConceptMap result config)
  = length (Fixed.Result.concepts result)
  /\ Diagram.edgeCount (Fixed.generateEducationalConceptMap result config)
     = length (Fixed.Result.relationships result).
Proof.
  apply fixed_emitter_round_trip.
Qed.

Lemma mermaid_emitter_counts_witness :
  printable decoratedResult = true
  /\ Diagram.nodeCount
       (Fixed.generateEducationalConceptMap decoratedResult defaultConfig)
     = 2
  /\ Diagram.edgeCount
       (Fixed.generateEducationalConceptMap decoratedResult defaultConfig)
     = 1.
Proof.
  assert (H : printable decoratedResult = true) by reflexivity.
  split; [exact H|].
  exact (mermaid_emitter_counts decoratedResult defaultConfig H).
Defined.
